(** * The chat-completion proxy (proxy/main.go): model and verification

    The proxy is a validate-and-forward wrapper: [handleChatCompletions]
    parses a JSON body into a [ChatCompletionRequest], checks the required
    fields, hands the request to an [OpenAIClient] and relays the answer.

    The development follows the Go packages the program is built from.
    Go strings and byte slices are sequences of bytes ([string]); runes,
    status codes and Go integers are [Z].  The parts of the Go standard
    library the program calls (unicode/utf8, unicode/utf16, strconv,
    encoding/json, net/http) are modelled after their documented behaviour
    in modules that carry the package names; the program itself (package
    main and its test double) is translated function by function. *)

From Stdlib Require Import ZArith Ascii String Lia DecimalString.
From Stdlib Require DecimalFacts DecimalPos DecimalN.
From stdpp Require Import base tactics option list gmap strings.

Local Open Scope Z_scope.

(** ** Bytes *)

(** The numeric value of a byte, and Go's conversion [byte(z)], which keeps
    the low eight bits. *)
Definition ord (c : ascii) : Z := Z.of_N (N_of_ascii c).
Definition chr (z : Z) : ascii := ascii_of_N (Z.to_N (z mod 256)).

Definition byte_is (c x : ascii) : bool := Ascii.eqb c x.

Definition between (lo hi x : Z) : bool := (lo <=? x) && (x <=? hi).

(** The double quote, and a text between double quotes. *)
Definition dquote : ascii := "034"%char.
Definition quoted (s : string) : string := String dquote (s +:+ String dquote "").

Fixpoint drop_bytes (n : nat) (s : string) : string :=
  match n, s with
  | O, _ => s
  | S k, String _ s' => drop_bytes k s'
  | S _, EmptyString => EmptyString
  end.

Fixpoint take_bytes (n : nat) (s : string) : string :=
  match n, s with
  | O, _ => EmptyString
  | S k, String c s' => String c (take_bytes k s')
  | S _, EmptyString => EmptyString
  end.

(** ** unicode/utf8 *)

Module utf8.

Definition RuneError : Z := 0xFFFD.
Definition RuneSelf : Z := 0x80.
Definition MaxRune : Z := 0x10FFFF.
Definition surrogateMin : Z := 0xD800.
Definition surrogateMax : Z := 0xDFFF.
Definition rune1Max : Z := 0x7F.
Definition rune2Max : Z := 0x7FF.
Definition rune3Max : Z := 0xFFFF.
Definition t2 : Z := 0xC0.
Definition t3 : Z := 0xE0.
Definition t4 : Z := 0xF0.
Definition tx : Z := 0x80.
Definition maskx : Z := 0x3F.
Definition mask2 : Z := 0x1F.
Definition mask3 : Z := 0x0F.
Definition mask4 : Z := 0x07.
Definition locb : Z := 0x80.
Definition hicb : Z := 0xBF.

(** [EncodeRune]: the UTF-8 encoding of a rune; surrogates and values out
    of range are written as U+FFFD. *)
Definition EncodeRune (r : Z) : string :=
  if between 0 rune1Max r then String (chr r) ""
  else if between 0 rune2Max r then
    String (chr (Z.lor t2 (Z.shiftr r 6)))
      (String (chr (Z.lor tx (Z.land r maskx))) "")
  else if (between 0 (surrogateMin - 1) r) || (between (surrogateMax + 1) rune3Max r) then
    String (chr (Z.lor t3 (Z.shiftr r 12)))
      (String (chr (Z.lor tx (Z.land (Z.shiftr r 6) maskx)))
         (String (chr (Z.lor tx (Z.land r maskx))) ""))
  else if between (rune3Max + 1) MaxRune r then
    String (chr (Z.lor t4 (Z.shiftr r 18)))
      (String (chr (Z.lor tx (Z.land (Z.shiftr r 12) maskx)))
         (String (chr (Z.lor tx (Z.land (Z.shiftr r 6) maskx)))
            (String (chr (Z.lor tx (Z.land r maskx))) "")))
  else
    String (chr 0xEF) (String (chr 0xBF) (String (chr 0xBD) "")).

(** [ValidRune]: [r] can be encoded, that is, it is in range and no
    surrogate half. *)
Definition ValidRune (r : Z) : bool :=
  between 0 (surrogateMin - 1) r || between (surrogateMax + 1) MaxRune r.

(** The table [first] together with [acceptRanges]: for the leading byte
    of a multi-byte sequence, the length of the sequence and the range
    the second byte has to lie in.  [None] is the entry [xx] (invalid). *)
Definition first (p0 : Z) : option (nat * (Z * Z)) :=
  if between 0xC2 0xDF p0 then Some (2%nat, (locb, hicb))
  else if p0 =? 0xE0 then Some (3%nat, (0xA0, hicb))
  else if between 0xE1 0xEC p0 then Some (3%nat, (locb, hicb))
  else if p0 =? 0xED then Some (3%nat, (locb, 0x9F))
  else if between 0xEE 0xEF p0 then Some (3%nat, (locb, hicb))
  else if p0 =? 0xF0 then Some (4%nat, (0x90, hicb))
  else if between 0xF1 0xF3 p0 then Some (4%nat, (locb, hicb))
  else if p0 =? 0xF4 then Some (4%nat, (locb, 0x8F))
  else None.

(** [DecodeRune]: the first rune of [p] and the number of bytes it takes;
    [(RuneError, 1)] for an invalid or truncated sequence and
    [(RuneError, 0)] for the empty input. *)
Definition DecodeRune (p : string) : Z * nat :=
  match p with
  | EmptyString => (RuneError, 0%nat)
  | String c0 p1 =>
    let p0 := ord c0 in
    if p0 <? RuneSelf then (p0, 1%nat)
    else
      match first p0 with
      | None => (RuneError, 1%nat)
      | Some (sz, (lo, hi)) =>
        if (String.length p <? sz)%nat then (RuneError, 1%nat)
        else
          match p1 with
          | EmptyString => (RuneError, 1%nat)
          | String c1 p2 =>
            let b1 := ord c1 in
            if negb (between lo hi b1) then (RuneError, 1%nat)
            else if (sz <=? 2)%nat then
              (Z.lor (Z.shiftl (Z.land p0 mask2) 6) (Z.land b1 maskx), 2%nat)
            else
              match p2 with
              | EmptyString => (RuneError, 1%nat)
              | String c2 p3 =>
                let b2 := ord c2 in
                if negb (between locb hicb b2) then (RuneError, 1%nat)
                else if (sz <=? 3)%nat then
                  (Z.lor (Z.lor (Z.shiftl (Z.land p0 mask3) 12)
                                (Z.shiftl (Z.land b1 maskx) 6))
                         (Z.land b2 maskx), 3%nat)
                else
                  match p3 with
                  | EmptyString => (RuneError, 1%nat)
                  | String c3 _ =>
                    let b3 := ord c3 in
                    if negb (between locb hicb b3) then (RuneError, 1%nat)
                    else
                      (Z.lor (Z.lor (Z.lor (Z.shiftl (Z.land p0 mask4) 18)
                                           (Z.shiftl (Z.land b1 maskx) 12))
                                    (Z.shiftl (Z.land b2 maskx) 6))
                             (Z.land b3 maskx), 4%nat)
                  end
              end
          end
      end
  end.

(** [ValidString]: [s] consists of valid UTF-8 sequences only.  The
    counter [skip] is the number of bytes still belonging to the rune
    decoded last. *)
Fixpoint valid_from (s : string) (skip : nat) : bool :=
  match s with
  | EmptyString => true
  | String _ s' =>
    match skip with
    | S k => valid_from s' k
    | O =>
      let '(r, size) := DecodeRune s in
      if (r =? RuneError) && (size =? 1)%nat then false
      else valid_from s' (size - 1)
    end
  end.

Definition ValidString (s : string) : bool := valid_from s 0.

End utf8.

(** ** unicode/utf16 *)

Module utf16.

Definition surr1 : Z := 0xD800.
Definition surr2 : Z := 0xDC00.
Definition surr3 : Z := 0xE000.
Definition surrSelf : Z := 0x10000.
Definition replacementChar : Z := 0xFFFD.

Definition IsSurrogate (r : Z) : bool := (surr1 <=? r) && (r <? surr3).

Definition DecodeRune (r1 r2 : Z) : Z :=
  if (surr1 <=? r1) && (r1 <? surr2) && (surr2 <=? r2) && (r2 <? surr3)
  then Z.lor (Z.shiftl (r1 - surr1) 10) (r2 - surr2) + surrSelf
  else replacementChar.

End utf16.


(** ** strconv *)

Module strconv.

(** [FormatInt(z, 10)]: the decimal text of an integer. *)
Definition FormatInt (z : Z) : string := NilZero.string_of_int (Z.to_int z).

(** [ParseUint(s, 10, 64)] before its range check: one or more decimal
    digits and nothing else. *)
Definition ParseUint (s : string) : option Z :=
  match NilZero.uint_of_string s with
  | Some d => Some (Z.of_N (N.of_uint d))
  | None => None
  end.

(** [ParseInt(s, 10, 64)]: an optional sign and decimal digits; [None]
    stands for a syntax error or a value outside of the 64-bit range. *)
Definition ParseInt (s : string) : option Z :=
  match s with
  | EmptyString => None
  | String c s' =>
    let neg := byte_is c "-" in
    let digits := if byte_is c "+" || byte_is c "-" then s' else s in
    match ParseUint digits with
    | None => None
    | Some un =>
      let cutoff := 2 ^ 63 in
      if negb neg && (cutoff <=? un) then None
      else if neg && (cutoff <? un) then None
      else Some (if neg then - un else un)
    end
  end.

End strconv.

(** Go's [float64] and the two conversions of strconv that encoding/json
    applies to it are kept abstract: [ParseFloat] is
    [strconv.ParseFloat(s, 64)] on a number literal ([None] when the literal
    is out of range), and [encodeFloat] is the text json's [floatEncoder]
    writes, [None] for NaN and the infinities, which json refuses with an
    [UnsupportedValueError].  [zeroFloat] is the zero value of the type. *)
Class Float64 := {
  float64 : Type;
  zeroFloat : float64;
  ParseFloat : string -> option float64;
  encodeFloat : float64 -> option string
}.

(** ** encoding/json: syntax *)

Module json.

#[local] Set Warnings "-register-all".

Inductive Value :=
| Null
| Bool (b : bool)
| Number (lit : string)
| Str (s : string)
| Array (elems : list Value)
| Object (members : list (string * Value)).

(** The outcome of reading one item from the front of the input. *)
Inductive scan (A : Type) :=
| Done (a : A) (rest : string)
| Invalid
| Exhausted.
Arguments Done {A} a rest.
Arguments Invalid {A}.
Arguments Exhausted {A}.

Definition maxNestingDepth : Z := 10000.

Definition isSpace (c : ascii) : bool :=
  byte_is c " " || byte_is c "009" || byte_is c "013" || byte_is c "010".

Fixpoint skipSpace (s : string) : string :=
  match s with
  | EmptyString => EmptyString
  | String c s' => if isSpace c then skipSpace s' else s
  end.

Fixpoint strip_prefix (p s : string) : option string :=
  match p, s with
  | EmptyString, _ => Some s
  | String a p', String b s' => if byte_is a b then strip_prefix p' s' else None
  | String _ _, EmptyString => None
  end.

(** *** Numbers (the scanner states [stateNeg] to [stateE0]) *)

Definition isDigit (c : ascii) : bool := between 48 57 (ord c).

Fixpoint digits (s : string) : string * string :=
  match s with
  | EmptyString => (EmptyString, EmptyString)
  | String c s' =>
    if isDigit c then let '(d, r) := digits s' in (String c d, r)
    else (EmptyString, s)
  end.

Definition scan_int (s : string) : option (string * string) :=
  match s with
  | EmptyString => None
  | String c s' =>
    if byte_is c "0" then Some (String c "", s')
    else if isDigit c then let '(d, r) := digits s' in Some (String c d, r)
    else None
  end.

Definition scan_frac (s : string) : option (string * string) :=
  match s with
  | String c s' =>
    if byte_is c "." then
      match digits s' with
      | (EmptyString, _) => None
      | (d, r) => Some (String c d, r)
      end
    else Some (EmptyString, s)
  | EmptyString => Some (EmptyString, s)
  end.

Definition scan_sign (s : string) : string * string :=
  match s with
  | String c s' => if byte_is c "+" || byte_is c "-" then (String c "", s') else (EmptyString, s)
  | EmptyString => (EmptyString, s)
  end.

Definition scan_exp (s : string) : option (string * string) :=
  match s with
  | String c s' =>
    if byte_is c "e" || byte_is c "E" then
      let '(sg, s1) := scan_sign s' in
      match digits s1 with
      | (EmptyString, _) => None
      | (d, r) => Some (String c (sg +:+ d), r)
      end
    else Some (EmptyString, s)
  | EmptyString => Some (EmptyString, s)
  end.

Definition scan_minus (s : string) : string * string :=
  match s with
  | String c s' => if byte_is c "-" then (String c "", s') else (EmptyString, s)
  | EmptyString => (EmptyString, s)
  end.

(** The longest number literal at the front of [s], and what follows. *)
Definition scan_number (s : string) : option (string * string) :=
  let '(m, s0) := scan_minus s in
  match scan_int s0 with
  | None => None
  | Some (i, s1) =>
    match scan_frac s1 with
    | None => None
    | Some (f, s2) =>
      match scan_exp s2 with
      | None => None
      | Some (e, s3) => Some (m +:+ i +:+ f +:+ e, s3)
      end
    end
  end.

(** [isValidNumber]: the whole of [s] is one number literal. *)
Definition isValidNumber (s : string) : bool :=
  match scan_number s with
  | Some (_, EmptyString) => true
  | _ => false
  end.

(** *** Strings (the scanner states [stateInString] to
    [stateInStringEscU123], and [unquoteBytes]) *)

Definition hexval (c : ascii) : option Z :=
  let b := ord c in
  if between 48 57 b then Some (b - 48)
  else if between 97 102 b then Some (b - 97 + 10)
  else if between 65 70 b then Some (b - 65 + 10)
  else None.

(** [getu4]: the value of a leading [\uXXXX], or -1. *)
Definition getu4 (s : string) : Z :=
  match s with
  | String c0 (String c1 (String h0 (String h1 (String h2 (String h3 _))))) =>
    if byte_is c0 "\" && byte_is c1 "u" then
      match hexval h0, hexval h1, hexval h2, hexval h3 with
      | Some a, Some b, Some c, Some d => ((a * 16 + b) * 16 + c) * 16 + d
      | _, _, _, _ => -1
      end
    else -1
  | _ => -1
  end.

(** The byte a one-letter escape stands for. *)
Definition unescape (e : ascii) : option ascii :=
  if byte_is e dquote || byte_is e "\" || byte_is e "/" then Some e
  else if byte_is e "b" then Some "008"%char
  else if byte_is e "f" then Some "012"%char
  else if byte_is e "n" then Some "010"%char
  else if byte_is e "r" then Some "013"%char
  else if byte_is e "t" then Some "009"%char
  else None.

(** The text of a string literal, read from just behind its opening
    quote: escapes are resolved, invalid UTF-8 and unpaired surrogates
    become U+FFFD.  [skip] counts the bytes already consumed by the
    escape or rune read last; [acc] is the text read so far. *)
Fixpoint string_body (s : string) (skip : nat) (acc : string) : option (string * string) :=
  match s with
  | EmptyString => None
  | String c s' =>
    match skip with
    | S k => string_body s' k acc
    | O =>
      if byte_is c dquote then Some (acc, s')
      else if byte_is c "\" then
        match s' with
        | EmptyString => None
        | String e _ =>
          if byte_is e "u" then
            let rr := getu4 s in
            if rr <? 0 then None
            else if utf16.IsSurrogate rr then
              let dec := utf16.DecodeRune rr (getu4 (drop_bytes 6 s)) in
              if negb (dec =? utf16.replacementChar)
              then string_body s' 11 (acc +:+ utf8.EncodeRune dec)
              else string_body s' 5 (acc +:+ utf8.EncodeRune utf16.replacementChar)
            else string_body s' 5 (acc +:+ utf8.EncodeRune rr)
          else
            match unescape e with
            | Some b => string_body s' 1 (acc +:+ String b "")
            | None => None
            end
        end
      else if ord c <? 32 then None
      else if ord c <? utf8.RuneSelf then string_body s' 0 (acc +:+ String c "")
      else
        let '(rr, size) := utf8.DecodeRune s in
        string_body s' (size - 1) (acc +:+ utf8.EncodeRune rr)
    end
  end.

(** *** Values (the scanner together with the value it reads) *)

Fixpoint value (fuel : nat) (depth : Z) (s : string) : scan Value :=
  match fuel with
  | O => Exhausted
  | S fuel' =>
    match s with
    | EmptyString => Invalid
    | String c s' =>
      if byte_is c "{" then
        if maxNestingDepth <? depth + 1 then Invalid
        else
          match skipSpace s' with
          | EmptyString => Invalid
          | String c1 s1 =>
            if byte_is c1 "}" then Done (Object []) s1
            else
              match members fuel' (depth + 1) (String c1 s1) with
              | Done ms rest => Done (Object ms) rest
              | Invalid => Invalid
              | Exhausted => Exhausted
              end
          end
      else if byte_is c "[" then
        if maxNestingDepth <? depth + 1 then Invalid
        else
          match skipSpace s' with
          | EmptyString => Invalid
          | String c1 s1 =>
            if byte_is c1 "]" then Done (Array []) s1
            else
              match elements fuel' (depth + 1) (String c1 s1) with
              | Done vs rest => Done (Array vs) rest
              | Invalid => Invalid
              | Exhausted => Exhausted
              end
          end
      else if byte_is c dquote then
        match string_body s' 0 "" with
        | Some (t, rest) => Done (Str t) rest
        | None => Invalid
        end
      else if byte_is c "t" then
        match strip_prefix "rue" s' with
        | Some rest => Done (Bool true) rest
        | None => Invalid
        end
      else if byte_is c "f" then
        match strip_prefix "alse" s' with
        | Some rest => Done (Bool false) rest
        | None => Invalid
        end
      else if byte_is c "n" then
        match strip_prefix "ull" s' with
        | Some rest => Done Null rest
        | None => Invalid
        end
      else
        match scan_number s with
        | Some (lit, rest) => Done (Number lit) rest
        | None => Invalid
        end
    end
  end

(** The elements of an array from its first element on, up to and
    including the closing bracket. *)
with elements (fuel : nat) (depth : Z) (s : string) : scan (list Value) :=
  match fuel with
  | O => Exhausted
  | S fuel' =>
    match value fuel' depth s with
    | Done v r =>
      match skipSpace r with
      | EmptyString => Invalid
      | String c r1 =>
        if byte_is c "]" then Done [v] r1
        else if byte_is c "," then
          match elements fuel' depth (skipSpace r1) with
          | Done vs rest => Done (v :: vs) rest
          | Invalid => Invalid
          | Exhausted => Exhausted
          end
        else Invalid
      end
    | Invalid => Invalid
    | Exhausted => Exhausted
    end
  end

(** The members of an object from its first key on, up to and including
    the closing brace. *)
with members (fuel : nat) (depth : Z) (s : string) : scan (list (string * Value)) :=
  match fuel with
  | O => Exhausted
  | S fuel' =>
    match s with
    | EmptyString => Invalid
    | String q s' =>
      if negb (byte_is q dquote) then Invalid
      else
        match string_body s' 0 "" with
        | None => Invalid
        | Some (key, r0) =>
          match skipSpace r0 with
          | EmptyString => Invalid
          | String c r1 =>
            if negb (byte_is c ":") then Invalid
            else
              match value fuel' depth (skipSpace r1) with
              | Done v r2 =>
                match skipSpace r2 with
                | EmptyString => Invalid
                | String c2 r3 =>
                  if byte_is c2 "}" then Done [(key, v)] r3
                  else if byte_is c2 "," then
                    match members fuel' depth (skipSpace r3) with
                    | Done ms rest => Done ((key, v) :: ms) rest
                    | Invalid => Invalid
                    | Exhausted => Exhausted
                    end
                  else Invalid
                end
              | Invalid => Invalid
              | Exhausted => Exhausted
              end
          end
        end
    end
  end.

(** [checkValid] followed by the reading of the value: the input is one
    JSON value with optional white space around it.  The fuel is twice the
    length of the input and one more, which bounds the number of nested
    calls. *)
Definition parse (data : string) : scan Value :=
  let s := skipSpace data in
  match value (S (2 * String.length s)) 0 s with
  | Done v rest =>
    match skipSpace rest with
    | EmptyString => Done v EmptyString
    | String _ _ => Invalid
    end
  | Invalid => Invalid
  | Exhausted => Exhausted
  end.

(** *** Writing strings ([appendString] with [escapeHTML] set) *)

Definition htmlSafeSet (b : Z) : bool :=
  between 32 127 b && negb (b =? 34) && negb (b =? 38) && negb (b =? 60)
  && negb (b =? 62) && negb (b =? 92).

Definition hex (z : Z) : ascii := if z <? 10 then chr (48 + z) else chr (97 + (z - 10)).

(** What is written for an ASCII byte outside of [htmlSafeSet]. *)
Definition escape_byte (c : ascii) : string :=
  if byte_is c "\" || byte_is c dquote then String "\" (String c "")
  else if byte_is c "008" then "\b"
  else if byte_is c "012" then "\f"
  else if byte_is c "010" then "\n"
  else if byte_is c "013" then "\r"
  else if byte_is c "009" then "\t"
  else "\u00" +:+ String (hex (Z.shiftr (ord c) 4)) (String (hex (Z.land (ord c) 15)) "").

(** The loop of [appendString]; [skip] counts the bytes of the rune that
    was written last and are still to be passed over.  The rune at the
    front is decoded from at most [utf8.UTFMax] bytes, which is all
    [utf8.DecodeRune] looks at. *)
Fixpoint string_bytes (s : string) (skip : nat) : string :=
  match s with
  | EmptyString => EmptyString
  | String c s' =>
    match skip with
    | S k => string_bytes s' k
    | O =>
      if ord c <? utf8.RuneSelf then
        (if htmlSafeSet (ord c) then String c "" else escape_byte c)
        +:+ string_bytes s' 0
      else
        let '(r, size) := utf8.DecodeRune s in
        if (r =? utf8.RuneError) && (size =? 1)%nat then
          "\ufffd" +:+ string_bytes s' 0
        else if (r =? 0x2028) || (r =? 0x2029) then
          "\u202" +:+ String (hex (Z.land r 15)) "" +:+ string_bytes s' (size - 1)
        else take_bytes size s +:+ string_bytes s' (size - 1)
    end
  end.

Definition appendString (s : string) : string := quoted (string_bytes s 0).

(** *** Reading into Go values

    A reader takes the JSON value and the Go value the target holds and
    returns the new Go value, or [None] for an [UnmarshalTypeError].  (Go
    goes on reading after a type error and reports it at the end; the
    callers in this program discard the target when an error is
    reported.) *)

(** [foldName]: the key a member name is looked up by when no field has
    exactly that name.  ASCII letters are folded to upper case; among the
    runes outside ASCII only U+017F and U+212A fold to an ASCII letter (S
    and K).  Every other rune outside ASCII folds to a rune outside ASCII
    and is kept here, which gives the same answer for the ASCII field
    names of this program. *)
Fixpoint fold_bytes (s : string) (skip : nat) : string :=
  match s with
  | EmptyString => EmptyString
  | String c s' =>
    match skip with
    | S k => fold_bytes s' k
    | O =>
      if ord c <? utf8.RuneSelf then
        String (if between 97 122 (ord c) then chr (ord c - 32) else c) (fold_bytes s' 0)
      else
        let '(r, size) := utf8.DecodeRune s in
        (if r =? 0x17F then "S" else if r =? 0x212A then "K" else utf8.EncodeRune r)
        +:+ fold_bytes s' (size - 1)
    end
  end.

Definition foldName (s : string) : string := fold_bytes s 0.

(** The member name [key] selects the field with the JSON name [name]. *)
Definition field_is (name key : string) : bool :=
  String.eqb key name || String.eqb (foldName key) (foldName name).

Definition Reader (A : Type) : Type := Value -> A -> option A.

Definition readString : Reader string := fun j v =>
  match j with
  | Str s => Some s
  | Null => Some v
  | _ => None
  end.

Definition readInt : Reader Z := fun j v =>
  match j with
  | Number lit => strconv.ParseInt lit
  | Null => Some v
  | _ => None
  end.

Definition readBool : Reader bool := fun j v =>
  match j with
  | Bool b => Some b
  | Null => Some v
  | _ => None
  end.

Definition readFloat `{Float64} : Reader float64 := fun j v =>
  match j with
  | Number lit => ParseFloat lit
  | Null => Some v
  | _ => None
  end.

(** A pointer field: [null] makes it nil, any other value is read into the
    pointee, which is allocated when the pointer is nil. *)
Definition readPtr {A : Type} (zero : A) (elem : Reader A) : Reader (option A) := fun j v =>
  match j with
  | Null => Some None
  | _ => match elem j (default zero v) with
         | Some a => Some (Some a)
         | None => None
         end
  end.

(** The elements of an array are read into the elements the backing array
    of the slice already holds, position by position, and into zero values
    beyond them. *)
Fixpoint readElems {A : Type} (zero : A) (elem : Reader A) (js : list Value) (old : list A)
  : option (list A) :=
  match js with
  | [] => Some []
  | j :: js' =>
    match elem j (hd zero old) with
    | None => None
    | Some a =>
      match readElems zero elem js' (tl old) with
      | None => None
      | Some l => Some (a :: l)
      end
    end
  end.

(** A slice field, as the pair of the slice ([None] for nil) and the
    contents of its backing array: [null] makes the slice nil, an empty
    array makes it a fresh empty slice, and an array that is not empty
    keeps the backing array behind the elements read. *)
Definition readSlice {A : Type} (zero : A) (elem : Reader A)
  : Reader (option (list A) * list A) := fun j v =>
  match j with
  | Null => Some (None, [])
  | Array [] => Some (Some [], [])
  | Array js =>
    match readElems zero elem js v.2 with
    | Some l => Some (Some l, l ++ drop (length l) v.2)
    | None => None
    end
  | _ => None
  end.

(** A struct: the members of an object are taken in the order they are
    written, each by the field reader [field]; [null] leaves the struct as
    it is. *)
Fixpoint readMembers {A : Type} (field : string -> Reader A) (ms : list (string * Value)) (v : A)
  : option A :=
  match ms with
  | [] => Some v
  | (key, j) :: ms' =>
    match field key j v with
    | Some v' => readMembers field ms' v'
    | None => None
    end
  end.

Definition readStruct {A : Type} (field : string -> Reader A) : Reader A := fun j v =>
  match j with
  | Object ms => readMembers field ms v
  | Null => Some v
  | _ => None
  end.

End json.

(** ** Errors *)

(** A Go [error] value.  [errorString] is an error made of a text
    ([errors.New], [fmt.Errorf] without [%w], and the errors of the network
    and of [io.ReadAll], which reach the program from outside);
    [wrapError] is [fmt.Errorf] with a [%w] verb behind the text. *)
Inductive error :=
| errorString (text : string)
| wrapError (text : string) (err : error)
| SyntaxError (data : string)
| UnmarshalTypeError (data : string)
| UnsupportedValueError.

(** The texts of the errors of encoding/json, which the program only
    passes on. *)
Class JSONErrors := {
  SyntaxError_Error : string -> string;
  UnmarshalTypeError_Error : string -> string;
  UnsupportedValueError_Error : string
}.

(** The method [Error()]. *)
Fixpoint Error `{JSONErrors} (e : error) : string :=
  match e with
  | errorString text => text
  | wrapError text err => text +:+ Error err
  | SyntaxError data => SyntaxError_Error data
  | UnmarshalTypeError data => UnmarshalTypeError_Error data
  | UnsupportedValueError => UnsupportedValueError_Error
  end.

(** [json.Unmarshal(data, &v)] for a target that is read by [read]: a
    syntax error when [data] is not one JSON value, a type error when the
    value does not fit the target. *)
Definition Unmarshal {A : Type} (read : json.Reader A) (data : string) (v : A) : A + error :=
  match json.parse data with
  | json.Done j _ =>
    match read j v with
    | Some a => inl a
    | None => inr (UnmarshalTypeError data)
    end
  | json.Invalid => inr (SyntaxError data)
  | json.Exhausted => inr (SyntaxError data)
  end.

Definition newline : string := String "010" "".

(** ** package main: the data model *)

Record Message := mkMessage {
  Role : string;
  Content : string
}.

(** [Messages] is a slice ([None] is the nil slice); the four pointer
    fields are [None] when nil. *)
Record ChatCompletionRequest `{Float64} := mkRequest {
  Model : string;
  Messages : option (list Message);
  Temperature : option float64;
  MaxTokens : option Z;
  TopP : option float64;
  Stream : option bool
}.
Arguments mkRequest {_} Model Messages Temperature MaxTokens TopP Stream.

Record Choice := mkChoice {
  Index : Z;
  choice_Message : Message;
  FinishReason : string
}.

Record Usage := mkUsage {
  PromptTokens : Z;
  CompletionTokens : Z;
  TotalTokens : Z
}.

Record ChatCompletionResponse := mkResponse {
  ID : string;
  Object : string;
  Created : Z;
  resp_Model : string;
  Choices : option (list Choice);
  resp_Usage : Usage
}.

Record ErrorDetail := mkErrorDetail {
  err_Message : string;
  err_Type : string;
  err_Code : string
}.

Record ErrorResponse := mkErrorResponse {
  resp_Error : ErrorDetail
}.

(** [len] of a slice. *)
Definition len {A : Type} (s : option (list A)) : nat :=
  match s with
  | None => 0
  | Some l => length l
  end.

(** The zero values [var x T] starts from. *)
Definition zeroMessage : Message := mkMessage "" "".
Definition zeroRequest `{Float64} : ChatCompletionRequest := mkRequest "" None None None None None.
Definition zeroUsage : Usage := mkUsage 0 0 0.
Definition zeroChoice : Choice := mkChoice 0 zeroMessage "".
Definition zeroResponse : ChatCompletionResponse := mkResponse "" "" 0 "" None zeroUsage.
Definition zeroErrorResponse : ErrorResponse := mkErrorResponse (mkErrorDetail "" "" "").

(** ** package main: the wire form, from the struct tags *)

(** *** Reading *)

Definition readMessageField (key : string) : json.Reader Message := fun j m =>
  if json.field_is "role" key then
    match json.readString j (Role m) with
    | Some x => Some (mkMessage x (Content m))
    | None => None
    end
  else if json.field_is "content" key then
    match json.readString j (Content m) with
    | Some x => Some (mkMessage (Role m) x)
    | None => None
    end
  else Some m.

Definition readMessage : json.Reader Message := json.readStruct readMessageField.

(** The request is read together with the backing array of [Messages]. *)
Definition readRequestField `{Float64} (key : string)
  : json.Reader (ChatCompletionRequest * list Message) := fun j '(r, backing) =>
  if json.field_is "model" key then
    match json.readString j (Model r) with
    | Some x =>
      Some (mkRequest x (Messages r) (Temperature r) (MaxTokens r) (TopP r) (Stream r), backing)
    | None => None
    end
  else if json.field_is "messages" key then
    match json.readSlice zeroMessage readMessage j (Messages r, backing) with
    | Some (x, backing') =>
      Some (mkRequest (Model r) x (Temperature r) (MaxTokens r) (TopP r) (Stream r), backing')
    | None => None
    end
  else if json.field_is "temperature" key then
    match json.readPtr zeroFloat json.readFloat j (Temperature r) with
    | Some x =>
      Some (mkRequest (Model r) (Messages r) x (MaxTokens r) (TopP r) (Stream r), backing)
    | None => None
    end
  else if json.field_is "max_tokens" key then
    match json.readPtr 0 json.readInt j (MaxTokens r) with
    | Some x =>
      Some (mkRequest (Model r) (Messages r) (Temperature r) x (TopP r) (Stream r), backing)
    | None => None
    end
  else if json.field_is "top_p" key then
    match json.readPtr zeroFloat json.readFloat j (TopP r) with
    | Some x =>
      Some (mkRequest (Model r) (Messages r) (Temperature r) (MaxTokens r) x (Stream r), backing)
    | None => None
    end
  else if json.field_is "stream" key then
    match json.readPtr false json.readBool j (Stream r) with
    | Some x =>
      Some (mkRequest (Model r) (Messages r) (Temperature r) (MaxTokens r) (TopP r) x, backing)
    | None => None
    end
  else Some (r, backing).

Definition readRequest `{Float64} : json.Reader (ChatCompletionRequest * list Message) :=
  json.readStruct readRequestField.

Definition readUsageField (key : string) : json.Reader Usage := fun j u =>
  if json.field_is "prompt_tokens" key then
    match json.readInt j (PromptTokens u) with
    | Some x => Some (mkUsage x (CompletionTokens u) (TotalTokens u))
    | None => None
    end
  else if json.field_is "completion_tokens" key then
    match json.readInt j (CompletionTokens u) with
    | Some x => Some (mkUsage (PromptTokens u) x (TotalTokens u))
    | None => None
    end
  else if json.field_is "total_tokens" key then
    match json.readInt j (TotalTokens u) with
    | Some x => Some (mkUsage (PromptTokens u) (CompletionTokens u) x)
    | None => None
    end
  else Some u.

Definition readUsage : json.Reader Usage := json.readStruct readUsageField.

Definition readChoiceField (key : string) : json.Reader Choice := fun j c =>
  if json.field_is "index" key then
    match json.readInt j (Index c) with
    | Some x => Some (mkChoice x (choice_Message c) (FinishReason c))
    | None => None
    end
  else if json.field_is "message" key then
    match readMessage j (choice_Message c) with
    | Some x => Some (mkChoice (Index c) x (FinishReason c))
    | None => None
    end
  else if json.field_is "finish_reason" key then
    match json.readString j (FinishReason c) with
    | Some x => Some (mkChoice (Index c) (choice_Message c) x)
    | None => None
    end
  else Some c.

Definition readChoice : json.Reader Choice := json.readStruct readChoiceField.

(** The response is read together with the backing array of [Choices]. *)
Definition readResponseField (key : string)
  : json.Reader (ChatCompletionResponse * list Choice) := fun j '(r, backing) =>
  if json.field_is "id" key then
    match json.readString j (ID r) with
    | Some x =>
      Some (mkResponse x (Object r) (Created r) (resp_Model r) (Choices r) (resp_Usage r), backing)
    | None => None
    end
  else if json.field_is "object" key then
    match json.readString j (Object r) with
    | Some x =>
      Some (mkResponse (ID r) x (Created r) (resp_Model r) (Choices r) (resp_Usage r), backing)
    | None => None
    end
  else if json.field_is "created" key then
    match json.readInt j (Created r) with
    | Some x =>
      Some (mkResponse (ID r) (Object r) x (resp_Model r) (Choices r) (resp_Usage r), backing)
    | None => None
    end
  else if json.field_is "model" key then
    match json.readString j (resp_Model r) with
    | Some x =>
      Some (mkResponse (ID r) (Object r) (Created r) x (Choices r) (resp_Usage r), backing)
    | None => None
    end
  else if json.field_is "choices" key then
    match json.readSlice zeroChoice readChoice j (Choices r, backing) with
    | Some (x, backing') =>
      Some (mkResponse (ID r) (Object r) (Created r) (resp_Model r) x (resp_Usage r), backing')
    | None => None
    end
  else if json.field_is "usage" key then
    match readUsage j (resp_Usage r) with
    | Some x =>
      Some (mkResponse (ID r) (Object r) (Created r) (resp_Model r) (Choices r) x, backing)
    | None => None
    end
  else Some (r, backing).

Definition readResponse : json.Reader (ChatCompletionResponse * list Choice) :=
  json.readStruct readResponseField.

Definition readErrorDetailField (key : string) : json.Reader ErrorDetail := fun j e =>
  if json.field_is "message" key then
    match json.readString j (err_Message e) with
    | Some x => Some (mkErrorDetail x (err_Type e) (err_Code e))
    | None => None
    end
  else if json.field_is "type" key then
    match json.readString j (err_Type e) with
    | Some x => Some (mkErrorDetail (err_Message e) x (err_Code e))
    | None => None
    end
  else if json.field_is "code" key then
    match json.readString j (err_Code e) with
    | Some x => Some (mkErrorDetail (err_Message e) (err_Type e) x)
    | None => None
    end
  else Some e.

Definition readErrorResponseField (key : string) : json.Reader ErrorResponse := fun j e =>
  if json.field_is "error" key then
    match json.readStruct readErrorDetailField j (resp_Error e) with
    | Some x => Some (mkErrorResponse x)
    | None => None
    end
  else Some e.

Definition readErrorResponse : json.Reader ErrorResponse := json.readStruct readErrorResponseField.

(** [json.Unmarshal(data, &v)] for [var v T] of the three types the program
    reads. *)
Definition UnmarshalRequest `{Float64} (data : string) : ChatCompletionRequest + error :=
  match Unmarshal readRequest data (zeroRequest, []) with
  | inl (r, _) => inl r
  | inr e => inr e
  end.

Definition UnmarshalResponse (data : string) : ChatCompletionResponse + error :=
  match Unmarshal readResponse data (zeroResponse, []) with
  | inl (r, _) => inl r
  | inr e => inr e
  end.

Definition UnmarshalErrorResponse (data : string) : ErrorResponse + error :=
  Unmarshal readErrorResponse data zeroErrorResponse.

(** *** Writing *)

Definition member (name value : string) : string := quoted name +:+ ":" +:+ value.

Fixpoint join (sep : string) (l : list string) : string :=
  match l with
  | [] => EmptyString
  | [x] => x
  | x :: l' => x +:+ sep +:+ join sep l'
  end.

Definition object (ms : list string) : string := "{" +:+ join "," ms +:+ "}".

(** A slice is written as [null] when nil and as an array otherwise. *)
Definition marshalSlice {A : Type} (elem : A -> string) (s : option (list A)) : string :=
  match s with
  | None => "null"
  | Some l => "[" +:+ join "," (map elem l) +:+ "]"
  end.

Definition marshalBool (b : bool) : string := if b then "true" else "false".

Definition marshalMessage (m : Message) : string :=
  object [member "role" (json.appendString (Role m));
          member "content" (json.appendString (Content m))].

(** A field tagged [omitempty] is left out when its pointer is nil. *)
Definition omitempty {A : Type} (name : string) (elem : A -> option string) (p : option A)
  : option (list string) :=
  match p with
  | None => Some []
  | Some a =>
    match elem a with
    | Some text => Some [member name text]
    | None => None
    end
  end.

(** [json.Marshal(req)]; [None] is the [UnsupportedValueError] for a float
    that has no JSON form. *)
Definition MarshalRequest `{Float64} (r : ChatCompletionRequest) : option string :=
  match omitempty "temperature" encodeFloat (Temperature r) with
  | None => None
  | Some temperature =>
    match omitempty "top_p" encodeFloat (TopP r) with
    | None => None
    | Some top_p =>
      match omitempty "max_tokens" (fun z => Some (strconv.FormatInt z)) (MaxTokens r),
            omitempty "stream" (fun b => Some (marshalBool b)) (Stream r) with
      | Some max_tokens, Some stream =>
        Some (object ([member "model" (json.appendString (Model r));
                       member "messages" (marshalSlice marshalMessage (Messages r))]
                      ++ temperature ++ max_tokens ++ top_p ++ stream))
      | _, _ => None
      end
    end
  end.

Definition marshalChoice (c : Choice) : string :=
  object [member "index" (strconv.FormatInt (Index c));
          member "message" (marshalMessage (choice_Message c));
          member "finish_reason" (json.appendString (FinishReason c))].

Definition marshalUsage (u : Usage) : string :=
  object [member "prompt_tokens" (strconv.FormatInt (PromptTokens u));
          member "completion_tokens" (strconv.FormatInt (CompletionTokens u));
          member "total_tokens" (strconv.FormatInt (TotalTokens u))].

(** [json.Marshal(resp)] for a [*ChatCompletionResponse]; a nil pointer is
    written as [null].  No field of the type can fail to be written. *)
Definition MarshalResponse (resp : option ChatCompletionResponse) : string :=
  match resp with
  | None => "null"
  | Some r =>
    object [member "id" (json.appendString (ID r));
            member "object" (json.appendString (Object r));
            member "created" (strconv.FormatInt (Created r));
            member "model" (json.appendString (resp_Model r));
            member "choices" (marshalSlice marshalChoice (Choices r));
            member "usage" (marshalUsage (resp_Usage r))]
  end.

(** ** net/http *)

Module http.

Definition StatusOK : Z := 200.
Definition StatusBadRequest : Z := 400.
Definition StatusMethodNotAllowed : Z := 405.
Definition StatusInternalServerError : Z := 500.
Definition MethodPost : string := "POST".

(** A header map; [Set] leaves one value under the key. *)
Definition Header_Set (key value : string) (h : gmap string (list string))
  : gmap string (list string) := <[key := [value]]> h.
Definition Header_Del (key : string) (h : gmap string (list string))
  : gmap string (list string) := delete key h.
Definition Header_Get (key : string) (h : gmap string (list string)) : string :=
  match h !! key with
  | Some (v :: _) => v
  | _ => EmptyString
  end.

(** A request, inbound or outbound.  [Body] is what [io.ReadAll] gets from
    the body: its bytes, or the error of the read. *)
Record Request := mkRequest {
  Method : string;
  URL : string;
  Header : gmap string (list string);
  Body : string + error
}.

(** The reply [http.Client.Do] returns. *)
Record Response := mkResponse {
  StatusCode : Z;
  resp_Body : string + error
}.

(** The state behind a [ResponseWriter]: the header map the handler edits,
    the status line and the headers that went out with the first
    [WriteHeader] (explicit, or implied by the first [Write]), the bytes
    handed to [Write] so far, and the error the connection answers each
    [Write] with, if it is failing. *)
Record ResponseWriter := mkResponseWriter {
  header : gmap string (list string);
  sent : option (Z * gmap string (list string));
  written : string;
  failure : option error
}.

(** What the server hands to a handler. *)
Definition NewResponseWriter (failure : option error) : ResponseWriter :=
  mkResponseWriter ∅ None EmptyString failure.

Definition SetHeader (key value : string) (w : ResponseWriter) : ResponseWriter :=
  mkResponseWriter (Header_Set key value (header w)) (sent w) (written w) (failure w).

Definition DelHeader (key : string) (w : ResponseWriter) : ResponseWriter :=
  mkResponseWriter (Header_Del key (header w)) (sent w) (written w) (failure w).

(** Only the first [WriteHeader] has an effect. *)
Definition WriteHeader (code : Z) (w : ResponseWriter) : ResponseWriter :=
  match sent w with
  | Some _ => w
  | None => mkResponseWriter (header w) (Some (code, header w)) (written w) (failure w)
  end.

(** [Write] sends the header with status 200 first if none was sent. *)
Definition Write (data : string) (w : ResponseWriter) : ResponseWriter * option error :=
  let w1 := WriteHeader StatusOK w in
  (mkResponseWriter (header w1) (sent w1) (written w1 +:+ data) (failure w1), failure w1).

(** [http.Error]: a plain-text reply with the given status.  The result of
    the final [Fprintln] is dropped. *)
Definition Error (w : ResponseWriter) (text : string) (code : Z) : ResponseWriter :=
  let w1 := DelHeader "Content-Length" w in
  let w2 := SetHeader "Content-Type" "text/plain; charset=utf-8" w1 in
  let w3 := SetHeader "X-Content-Type-Options" "nosniff" w2 in
  let w4 := WriteHeader code w3 in
  (Write (text +:+ newline) w4).1.

(** The status and the value of a header of the reply that went out. *)
Definition status (w : ResponseWriter) : option Z :=
  match sent w with
  | Some (code, _) => Some code
  | None => None
  end.

Definition sent_header (key : string) (w : ResponseWriter) : string :=
  match sent w with
  | Some (_, h) => Header_Get key h
  | None => EmptyString
  end.

End http.

(** The network as the client sees it: [parseURL] is the check
    [http.NewRequest] makes on its URL ([Some] is its error), [Do] is
    [http.Client.Do]. *)
Class Network := {
  parseURL : string -> option error;
  Do : http.Request -> http.Response + error
}.

(** What a run does besides writing the reply. *)
Inductive event `{Float64} :=
| ReadBody
| Call (req : ChatCompletionRequest)
| Send (httpReq : http.Request)
| Log (text : string).

(** ** package main: the upstream client *)

(** The interface [OpenAIClient].  A call returns the pair Go returns and
    the events of the call. *)
Class OpenAIClient `{Float64} (C : Type) := {
  CreateChatCompletion : C -> ChatCompletionRequest ->
                         (option ChatCompletionResponse * option error) * list event
}.

Record RealOpenAIClient := mkRealOpenAIClient {
  APIKey : string;
  BaseURL : string
}.

Definition NewRealOpenAIClient (apiKey : string) : RealOpenAIClient :=
  mkRealOpenAIClient apiKey "https://api.openai.com/v1".

(** [http.NewRequest] with the method POST. *)
Definition NewRequest `{Network} (url : string) (body : string) : http.Request + error :=
  match parseURL url with
  | Some e => inr e
  | None => inl (http.mkRequest http.MethodPost url ∅ (inl body))
  end.

(** The request the client builds: lines 76 to 87 of main.go. *)
Definition buildRequest `{Float64} `{Network} (c : RealOpenAIClient) (req : ChatCompletionRequest)
  : http.Request + error :=
  match MarshalRequest req with
  | None => inr (wrapError "failed to marshal request: " UnsupportedValueError)
  | Some jsonData =>
    match NewRequest (BaseURL c +:+ "/chat/completions") jsonData with
    | inr err => inr (wrapError "failed to create request: " err)
    | inl httpReq =>
      let h1 := http.Header_Set "Content-Type" "application/json" (http.Header httpReq) in
      let h2 := http.Header_Set "Authorization" ("Bearer " +:+ APIKey c) h1 in
      inl (http.mkRequest (http.Method httpReq) (http.URL httpReq) h2 (http.Body httpReq))
    end
  end.

(** What the client makes of the reply: lines 96 to 114 of main.go. *)
Definition readReply (resp : http.Response) : option ChatCompletionResponse * option error :=
  match http.resp_Body resp with
  | inr err => (None, Some (wrapError "failed to read response: " err))
  | inl body =>
    if negb (http.StatusCode resp =? http.StatusOK) then
      match UnmarshalErrorResponse body with
      | inr _ =>
        (None, Some (errorString ("API error (status " +:+ strconv.FormatInt (http.StatusCode resp)
                                  +:+ "): " +:+ body)))
      | inl errorResp =>
        (None, Some (errorString ("API error: " +:+ err_Message (resp_Error errorResp))))
      end
    else
      match UnmarshalResponse body with
      | inr err => (None, Some (wrapError "failed to unmarshal response: " err))
      | inl chatResp => (Some chatResp, None)
      end
  end.

Definition RealOpenAIClient_CreateChatCompletion `{Float64} `{Network}
    (c : RealOpenAIClient) (req : ChatCompletionRequest)
  : (option ChatCompletionResponse * option error) * list event :=
  match buildRequest c req with
  | inr err => ((None, Some err), [])
  | inl httpReq =>
    match Do httpReq with
    | inr err => ((None, Some (wrapError "failed to send request: " err)), [Send httpReq])
    | inl resp => (readReply resp, [Send httpReq])
    end
  end.

#[export] Instance RealOpenAIClient_OpenAIClient `{Float64} `{Network}
  : OpenAIClient RealOpenAIClient :=
  {| CreateChatCompletion := RealOpenAIClient_CreateChatCompletion |}.

(** The test double of main_test.go. *)
Record MockOpenAIClient := mkMockOpenAIClient {
  shouldError : bool;
  response : option ChatCompletionResponse;
  mock_error : option error
}.

Definition MockOpenAIClient_CreateChatCompletion `{Float64}
    (m : MockOpenAIClient) (req : ChatCompletionRequest)
  : (option ChatCompletionResponse * option error) * list event :=
  if shouldError m then ((None, mock_error m), [])
  else ((response m, None), []).

#[export] Instance MockOpenAIClient_OpenAIClient `{Float64} : OpenAIClient MockOpenAIClient :=
  {| CreateChatCompletion := MockOpenAIClient_CreateChatCompletion |}.

(** ** package main: the proxy server *)

Record ProxyServer (C : Type) := mkProxyServer {
  client : C
}.
Arguments mkProxyServer {C} client.
Arguments client {C} p.

Definition NewProxyServer {C : Type} (client : C) : ProxyServer C := mkProxyServer client.

(** [json.NewEncoder(w).Encode(resp)]: the value is written to a buffer in
    full, a line end is added, and the buffer is handed to [w.Write]. *)
Definition Encode (w : http.ResponseWriter) (resp : option ChatCompletionResponse)
  : http.ResponseWriter * option error :=
  http.Write (MarshalResponse resp +:+ newline) w.

(** [handleChatCompletions]: the writer after the call and the events of
    the call, in order. *)
Definition handleChatCompletions `{Float64} `{JSONErrors} {C : Type} `{!OpenAIClient C}
    (s : ProxyServer C) (w : http.ResponseWriter) (r : http.Request)
  : http.ResponseWriter * list event :=
  if negb (String.eqb (http.Method r) http.MethodPost) then
    (http.Error w "Method not allowed" http.StatusMethodNotAllowed, [])
  else
    match http.Body r with
    | inr _ => (http.Error w "Failed to read request body" http.StatusBadRequest, [ReadBody])
    | inl body =>
      match UnmarshalRequest body with
      | inr _ => (http.Error w "Invalid JSON in request body" http.StatusBadRequest, [ReadBody])
      | inl req =>
        if String.eqb (Model req) "" then
          (http.Error w "Model field is required" http.StatusBadRequest, [ReadBody])
        else if (len (Messages req) =? 0)%nat then
          (http.Error w "Messages field is required and cannot be empty" http.StatusBadRequest,
           [ReadBody])
        else
          let '((resp, err), evs) := CreateChatCompletion (client s) req in
          match err with
          | Some e =>
            (http.Error w ("OpenAI API error: " +:+ Error e) http.StatusInternalServerError,
             [ReadBody; Call req] ++ evs ++ [Log ("OpenAI API error: " +:+ Error e)])
          | None =>
            let w1 := http.SetHeader "Content-Type" "application/json" w in
            match Encode w1 resp with
            | (w2, Some e) =>
              (http.Error w2 "Failed to encode response" http.StatusInternalServerError,
               [ReadBody; Call req] ++ evs ++ [Log ("Failed to encode response: " +:+ Error e)])
            | (w2, None) => (w2, [ReadBody; Call req] ++ evs)
            end
          end
      end
    end.

(** [handleHealth]. *)
Definition handleHealth (w : http.ResponseWriter) (r : http.Request) : http.ResponseWriter :=
  let w1 := http.SetHeader "Content-Type" "application/json" w in
  (http.Write (object [member "status" (json.appendString "healthy")] +:+ newline) w1).1.

(** ** A small environment to run the model in *)

(** Four floats: 0, 0.7, 1 and NaN. *)
Inductive sample_float := f_0 | f_0_7 | f_1 | f_NaN.

#[export] Instance sample_Float64 : Float64 := {|
  float64 := sample_float;
  zeroFloat := f_0;
  ParseFloat := fun lit =>
    if String.eqb lit "0" then Some f_0
    else if String.eqb lit "0.7" then Some f_0_7
    else if String.eqb lit "1" then Some f_1
    else None;
  encodeFloat := fun f =>
    match f with
    | f_0 => Some "0"
    | f_0_7 => Some "0.7"
    | f_1 => Some "1"
    | f_NaN => None
    end
|}.

#[export] Instance sample_JSONErrors : JSONErrors := {|
  SyntaxError_Error := fun _ => "invalid character";
  UnmarshalTypeError_Error := fun _ => "json: cannot unmarshal";
  UnsupportedValueError_Error := "json: unsupported value"
|}.

(** A network that answers every request with [resp]. *)
Definition sample_Network (resp : http.Response + error) : Network :=
  {| parseURL := fun _ => None; Do := fun _ => resp |}.

(** JSON text with ' written for the double quote. *)
Fixpoint jq (s : string) : string :=
  match s with
  | EmptyString => EmptyString
  | String c s' => String (if byte_is c "'" then dquote else c) (jq s')
  end.

(** The request and the response of the tests. *)
Definition createTestChatCompletionRequest : ChatCompletionRequest :=
  mkRequest "gpt-3.5-turbo" (Some [mkMessage "user" "Hello, how are you?"])
            (Some f_0_7) None None None.

Definition createTestChatCompletionResponse (now : Z) : ChatCompletionResponse :=
  mkResponse "chatcmpl-test123" "chat.completion" now "gpt-3.5-turbo"
    (Some [mkChoice 0
             (mkMessage "assistant"
                "Hello! I'm doing well, thank you for asking. How can I help you today?")
             "stop"])
    (mkUsage 12 20 32).

Definition post (body : string) : http.Request :=
  http.mkRequest "POST" "/v1/chat/completions" ∅ (inl body).

(** ** Vocabulary of the proofs *)

(** The range [utf8.first] gives for the second byte of a sequence of
    three or four bytes that starts with [p0]. *)
Definition lo3 (p0 : Z) : Z := if p0 =? 224 then 160 else 128.
Definition hi3 (p0 : Z) : Z := if p0 =? 237 then 159 else 191.
Definition lo4 (p0 : Z) : Z := if p0 =? 240 then 144 else 128.
Definition hi4 (p0 : Z) : Z := if p0 =? 244 then 143 else 191.

(** What may follow a number literal: the end of the input, or a byte that
    no state of the number scanner accepts. *)
Definition number_stop (rest : string) : bool :=
  match rest with
  | EmptyString => true
  | String c _ =>
    negb (json.isDigit c || byte_is c "." || byte_is c "e" || byte_is c "E"
          || byte_is c "+" || byte_is c "-")
  end.

Fixpoint all_digits (s : string) : bool :=
  match s with
  | EmptyString => true
  | String c s' => json.isDigit c && all_digits s'
  end.

(** The 64-bit range of Go's [int] and [int64]. *)
Definition int64_range (z : Z) : Prop := - 2 ^ 63 <= z < 2 ^ 63.

(** What follows a value in the text the program writes: the end of the
    input, a comma, or a closing brace or bracket. *)
Definition delimited (rest : string) : bool :=
  match rest with
  | EmptyString => true
  | String c _ => byte_is c "," || byte_is c "}" || byte_is c "]"
  end.

(** With fuel [n] at depth [d], [text] is read as the value [v] wherever it
    is followed by a delimiter. *)
Definition reads (n : nat) (d : Z) (text : string) (v : json.Value) : Prop :=
  forall rest, delimited rest = true -> json.value n d (text +:+ rest) = json.Done v rest.

(** A member name that is written between quotes as it is. *)
Fixpoint plain (s : string) : bool :=
  match s with
  | EmptyString => true
  | String c s' => json.htmlSafeSet (ord c) && plain s'
  end.

(** The members of an object and the elements of an array, each with its
    text and the value it stands for. *)
Definition member_texts (fs : list (string * string * json.Value)) : list string :=
  map (fun f => member f.1.1 f.1.2) fs.
Definition member_values (fs : list (string * string * json.Value))
  : list (string * json.Value) :=
  map (fun f => (f.1.1, f.2)) fs.

(** The JSON values the struct types are written as. *)
Definition valueOfMessage (m : Message) : json.Value :=
  json.Object [("role", json.Str (Role m)); ("content", json.Str (Content m))].

Definition valueOfSlice {A : Type} (elem : A -> json.Value) (s : option (list A)) : json.Value :=
  match s with
  | None => json.Null
  | Some l => json.Array (map elem l)
  end.

(** The strings of a request are valid UTF-8 and its integer is in range. *)
Definition valid_message (m : Message) : bool :=
  utf8.ValidString (Role m) && utf8.ValidString (Content m).

Definition valid_strings `{Float64} (r : ChatCompletionRequest) : bool :=
  utf8.ValidString (Model r) && forallb valid_message (default [] (Messages r)).

Definition int_fields_in_range `{Float64} (r : ChatCompletionRequest) : Prop :=
  match MaxTokens r with
  | Some z => int64_range z
  | None => True
  end.

(** The contract of strconv and json for [float64]: a float that json
    writes is written as a number literal, reading that literal gives the
    float back, and a float that was read from a literal can be written. *)
Class Float64Spec `{Float64} : Prop := {
  encodeFloat_valid : forall f lit, encodeFloat f = Some lit -> json.isValidNumber lit = true;
  ParseFloat_encodeFloat : forall f lit, encodeFloat f = Some lit -> ParseFloat lit = Some f;
  encodeFloat_ParseFloat : forall lit f, ParseFloat lit = Some f -> is_Some (encodeFloat f)
}.

(** The members [MarshalRequest] writes, each with its name, its text and
    the value the text stands for. *)
Definition optField {A : Type} (name : string) (text : A -> option string)
    (val : A -> string -> json.Value) (p : option A)
  : option (list (string * string * json.Value)) :=
  match p with
  | None => Some []
  | Some a =>
    match text a with
    | Some t => Some [(name, t, val a t)]
    | None => None
    end
  end.

Definition requestFields `{Float64} (r : ChatCompletionRequest)
  : option (list (string * string * json.Value)) :=
  match optField "temperature" encodeFloat (fun _ t => json.Number t) (Temperature r),
        optField "max_tokens" (fun z => Some (strconv.FormatInt z)) (fun _ t => json.Number t)
                 (MaxTokens r),
        optField "top_p" encodeFloat (fun _ t => json.Number t) (TopP r),
        optField "stream" (fun b => Some (marshalBool b)) (fun b _ => json.Bool b) (Stream r) with
  | Some temperature, Some max_tokens, Some top_p, Some stream =>
    Some ([("model", json.appendString (Model r), json.Str (Model r));
           ("messages", marshalSlice marshalMessage (Messages r),
            valueOfSlice valueOfMessage (Messages r))]
          ++ temperature ++ max_tokens ++ top_p ++ stream)
  | _, _, _, _ => None
  end.

(** Every string of a JSON value, member names included, is valid UTF-8. *)
Fixpoint valid_value (v : json.Value) : bool :=
  match v with
  | json.Str s => utf8.ValidString s
  | json.Array l => forallb valid_value l
  | json.Object ms => forallb (fun kv => valid_value kv.2) ms
  | _ => true
  end.



(** No member of [ms] selects the field with the JSON name [name]. *)
Definition absent (name : string) (ms : list (string * json.Value)) : bool :=
  forallb (fun kv => negb (json.field_is name kv.1)) ms.

(** [json.Valid]: the input is well-formed JSON. *)
Definition Valid (data : string) : bool :=
  match json.parse data with
  | json.Done _ _ => true
  | _ => false
  end.

(** The requests [CreateChatCompletion] was called with, and the HTTP
    requests that were sent, in the events of a run. *)
Fixpoint calls `{Float64} (evs : list event) : list ChatCompletionRequest :=
  match evs with
  | [] => []
  | Call req :: evs' => req :: calls evs'
  | _ :: evs' => calls evs'
  end.

Fixpoint sends `{Float64} (evs : list event) : list http.Request :=
  match evs with
  | [] => []
  | Send httpReq :: evs' => httpReq :: sends evs'
  | _ :: evs' => sends evs'
  end.

(** A request the handler accepts. *)
Definition valid_request `{Float64} (req : ChatCompletionRequest) : Prop :=
  Model req <> "" /\ len (Messages req) <> 0%nat.

(** ** The inputs of the tests *)

Definition testBody : string :=
  jq "{'model':'gpt-3.5-turbo','messages':[{'role':'user','content':'Hello, how are you?'}],'temperature':0.7}".

(** The test double, answering with the response of the tests or with an
    error. *)
Definition mockSuccess : ProxyServer MockOpenAIClient :=
  NewProxyServer (mkMockOpenAIClient false (Some (createTestChatCompletionResponse 0)) None).

Definition mockFailure : ProxyServer MockOpenAIClient :=
  NewProxyServer (mkMockOpenAIClient true None (Some (errorString "rate limit exceeded"))).



(** A request with every optional field set, and the same request with a
    model that is not UTF-8. *)
Definition fullRequest (model : string) : ChatCompletionRequest :=
  mkRequest model
    (Some [mkMessage "system" "You are a helpful assistant."; mkMessage "user" "Hello!"])
    (Some f_0_7) (Some 150) (Some f_1) (Some false).

(** ** Vocabulary of the proofs about responses *)

(** The members [json.Marshal] writes for a choice, for the usage and for
    a response, each with its name, its text and the value the text stands
    for. *)
Definition choiceFields (c : Choice) : list (string * string * json.Value) :=
  [("index", strconv.FormatInt (Index c), json.Number (strconv.FormatInt (Index c)));
   ("message", marshalMessage (choice_Message c), valueOfMessage (choice_Message c));
   ("finish_reason", json.appendString (FinishReason c), json.Str (FinishReason c))].

Definition valueOfChoice (c : Choice) : json.Value :=
  json.Object (member_values (choiceFields c)).

Definition usageFields (u : Usage) : list (string * string * json.Value) :=
  [("prompt_tokens", strconv.FormatInt (PromptTokens u),
    json.Number (strconv.FormatInt (PromptTokens u)));
   ("completion_tokens", strconv.FormatInt (CompletionTokens u),
    json.Number (strconv.FormatInt (CompletionTokens u)));
   ("total_tokens", strconv.FormatInt (TotalTokens u),
    json.Number (strconv.FormatInt (TotalTokens u)))].

Definition valueOfUsage (u : Usage) : json.Value :=
  json.Object (member_values (usageFields u)).

Definition responseFields (r : ChatCompletionResponse) : list (string * string * json.Value) :=
  [("id", json.appendString (ID r), json.Str (ID r));
   ("object", json.appendString (Object r), json.Str (Object r));
   ("created", strconv.FormatInt (Created r), json.Number (strconv.FormatInt (Created r)));
   ("model", json.appendString (resp_Model r), json.Str (resp_Model r));
   ("choices", marshalSlice marshalChoice (Choices r), valueOfSlice valueOfChoice (Choices r));
   ("usage", marshalUsage (resp_Usage r), valueOfUsage (resp_Usage r))].

(** The strings of a response are valid UTF-8 and its integers are in the
    range of their Go types. *)
Definition valid_choice (c : Choice) : bool :=
  valid_message (choice_Message c) && utf8.ValidString (FinishReason c).

Definition valid_response (r : ChatCompletionResponse) : bool :=
  utf8.ValidString (ID r) && utf8.ValidString (Object r) && utf8.ValidString (resp_Model r)
  && forallb valid_choice (default [] (Choices r)).

Definition response_in_range (r : ChatCompletionResponse) : Prop :=
  int64_range (Created r)
  /\ Forall (fun c => int64_range (Index c)) (default [] (Choices r))
  /\ int64_range (PromptTokens (resp_Usage r))
  /\ int64_range (CompletionTokens (resp_Usage r))
  /\ int64_range (TotalTokens (resp_Usage r)).

(** A body of the provider in the form of [ErrorResponse]. *)
Definition errorBody (e : ErrorDetail) : string :=
  object [member "error"
            (object [member "message" (json.appendString (err_Message e));
                     member "type" (json.appendString (err_Type e));
                     member "code" (json.appendString (err_Code e))])].

(** The member names [json.Unmarshal] stores in a field of a request. *)
Definition request_field (key : string) : bool :=
  json.field_is "model" key || json.field_is "messages" key
  || json.field_is "temperature" key || json.field_is "max_tokens" key
  || json.field_is "top_p" key || json.field_is "stream" key.

Definition valid_error (e : ErrorDetail) : bool :=
  utf8.ValidString (err_Message e) && utf8.ValidString (err_Type e)
  && utf8.ValidString (err_Code e).

(** What holds of a response while it is read: its strings and the strings
    in the backing array of its choices are valid UTF-8, and its integers
    are in range. *)
Definition choice_ok (c : Choice) : Prop :=
  valid_choice c = true /\ int64_range (Index c).

Definition usage_ok (u : Usage) : Prop :=
  int64_range (PromptTokens u) /\ int64_range (CompletionTokens u)
  /\ int64_range (TotalTokens u).

Definition response_ok (st : ChatCompletionResponse * list Choice) : Prop :=
  utf8.ValidString (ID st.1) = true /\ utf8.ValidString (Object st.1) = true
  /\ utf8.ValidString (resp_Model st.1) = true /\ int64_range (Created st.1)
  /\ Forall choice_ok (default [] (Choices st.1)) /\ usage_ok (resp_Usage st.1)
  /\ Forall choice_ok st.2.

(** ** More inputs to run the model on *)

(** A test double that reports a failure without an error. *)
Definition mockSilent : ProxyServer MockOpenAIClient :=
  NewProxyServer (mkMockOpenAIClient true None None).

Definition testClient : RealOpenAIClient := NewRealOpenAIClient "test-key".

(** Replies of a provider: the response of the tests, an error in the
    form of [ErrorResponse], an error of another form, and a page that is
    not JSON. *)
Definition okReply : http.Response :=
  http.mkResponse 200 (inl (MarshalResponse (Some (createTestChatCompletionResponse 0)))).

Definition rateLimit : ErrorDetail :=
  mkErrorDetail "rate limit exceeded" "requests" "rate_limit_exceeded".

Definition errorReply : http.Response := http.mkResponse 429 (inl (errorBody rateLimit)).

Definition notFoundReply : http.Response :=
  http.mkResponse 404 (inl (jq "{'detail':'Not Found'}")).

Definition htmlReply : http.Response := http.mkResponse 200 (inl "<html>").

(** A response with members the struct has no field for. *)
Definition sparseText : string :=
  jq "{'id':'x','choices':[{'message':{'content':'hi'}}],'system_fingerprint':'fp'}".

Definition sparseResponse : ChatCompletionResponse :=
  mkResponse "x" "" 0 "" (Some [mkChoice 0 (mkMessage "" "hi") ""]) zeroUsage.

(** The request the client sends for the request of the tests. *)
Definition testHttpRequest : http.Request :=
  http.mkRequest "POST" "https://api.openai.com/v1/chat/completions"
    (<["Authorization" := ["Bearer test-key"]]> (<["Content-Type" := ["application/json"]]> ∅))
    (inl testBody).

(** A test double whose response holds a string that is not UTF-8. *)
Definition brokenResponse : ChatCompletionResponse :=
  mkResponse (String (chr 255) "") "chat.completion" 0 "gpt-3.5-turbo" None zeroUsage.

Definition mockBroken : ProxyServer MockOpenAIClient :=
  NewProxyServer (mkMockOpenAIClient false (Some brokenResponse) None).

(** * Proofs *)

(** ** Bytes and UTF-8 *)

#[local] Arguments String.append !s1 s2 : simpl nomatch.

Ltac dlia := Z.div_mod_to_equations; lia.

Ltac pows :=
  change (2 ^ 3) with 8 in *; change (2 ^ 4) with 16 in *; change (2 ^ 5) with 32 in *;
  change (2 ^ 6) with 64 in *; change (2 ^ 12) with 4096 in *;
  change (2 ^ 18) with 262144 in *.

Ltac side := try done; pows; dlia.

Ltac cmp_lia :=
  repeat match goal with
  | |- context [(?a <=? ?b)%Z] =>
    first [ rewrite (proj2 (Z.leb_le a b)) by lia | rewrite (proj2 (Z.leb_gt a b)) by lia ]
  | |- context [(?a <? ?b)%Z] =>
    first [ rewrite (proj2 (Z.ltb_lt a b)) by lia | rewrite (proj2 (Z.ltb_ge a b)) by lia ]
  | |- context [(?a =? ?b)%Z] =>
    first [ rewrite (proj2 (Z.eqb_eq a b)) by lia | rewrite (proj2 (Z.eqb_neq a b)) by lia ]
  end.

Section Bytes.

Lemma ord_range c : 0 <= ord c < 256.
Proof.
  unfold ord. pose proof (N_ascii_bounded c). lia.
Qed.

Lemma chr_ord c : chr (ord c) = c.
Proof.
  unfold chr, ord. pose proof (N_ascii_bounded c).
  rewrite Z.mod_small by lia. rewrite N2Z.id. apply ascii_N_embedding.
Qed.

Lemma ord_chr z : 0 <= z < 256 -> ord (chr z) = z.
Proof.
  intros Hz. unfold chr, ord. rewrite Z.mod_small by lia.
  rewrite N_ascii_embedding by lia. lia.
Qed.

Lemma ord_inj c d : ord c = ord d -> c = d.
Proof. intros H. rewrite <- (chr_ord c), <- (chr_ord d). by rewrite H. Qed.

Lemma byte_is_eq c x : byte_is c x = true <-> c = x.
Proof. unfold byte_is. apply Ascii.eqb_eq. Qed.

Lemma byte_is_ord c x : byte_is c x = (ord c =? ord x).
Proof.
  destruct (Z.eqb_spec (ord c) (ord x)) as [E|E].
  - apply byte_is_eq. by apply ord_inj.
  - apply not_true_is_false. intros H. apply byte_is_eq in H. by subst.
Qed.

End Bytes.

Section Bits.

Lemma land_shifted_low a b k : 0 <= k -> 0 <= b < 2 ^ k -> Z.land (a * 2 ^ k) b = 0.
Proof.
  intros Hk Hb. apply Z.bits_inj'. intros n Hn.
  rewrite Z.land_spec, Z.bits_0.
  destruct (Z.lt_ge_cases n k).
  - rewrite Z.mul_pow2_bits_low by lia. done.
  - destruct (Z.eq_dec b 0) as [->|]; [by rewrite Z.bits_0, andb_false_r|].
    rewrite (Z.bits_above_log2 b n); [apply andb_false_r | lia |].
    apply Z.log2_lt_pow2; [lia|].
    apply Z.lt_le_trans with (2 ^ k); [lia|]. apply Z.pow_le_mono_r; lia.
Qed.

Lemma lor_shifted a b k : 0 <= k -> 0 <= b < 2 ^ k -> Z.lor (a * 2 ^ k) b = a * 2 ^ k + b.
Proof.
  intros Hk Hb. pose proof (Z.add_lor_land (a * 2 ^ k) b) as H.
  rewrite land_shifted_low in H by done. lia.
Qed.

Lemma land_mask a k : 0 <= k -> Z.land a (2 ^ k - 1) = a mod 2 ^ k.
Proof. intros Hk. rewrite <- Z.land_ones by done. f_equal. rewrite Z.ones_equiv. lia. Qed.

End Bits.

Lemma lor_const c k x : 0 <= k -> c mod 2 ^ k = 0 -> 0 <= x < 2 ^ k -> Z.lor c x = c + x.
Proof.
  intros Hk Hc Hx. rewrite (Z.div_mod c (2 ^ k)) at 1 by lia.
  rewrite Hc, Z.add_0_r, Z.mul_comm, lor_shifted by done.
  rewrite (Z.div_mod c (2 ^ k)) at 2 by lia. lia.
Qed.

Section Utf8.

Lemma ord_tx x : 0 <= x -> ord (chr (Z.lor utf8.tx (Z.land x utf8.maskx))) = 128 + x mod 64.
Proof.
  intros Hx. unfold utf8.tx, utf8.maskx. change 63 with (2 ^ 6 - 1).
  rewrite land_mask by lia. rewrite (lor_const 128 6) by side.
  pows. apply ord_chr. dlia.
Qed.

Lemma ord_t2 x : 0 <= x < 32 -> ord (chr (Z.lor utf8.t2 x)) = 192 + x.
Proof. intros Hx. unfold utf8.t2. rewrite (lor_const 192 5) by side. apply ord_chr. lia. Qed.

Lemma ord_t3 x : 0 <= x < 16 -> ord (chr (Z.lor utf8.t3 x)) = 224 + x.
Proof. intros Hx. unfold utf8.t3. rewrite (lor_const 224 4) by side. apply ord_chr. lia. Qed.

Lemma ord_t4 x : 0 <= x < 8 -> ord (chr (Z.lor utf8.t4 x)) = 240 + x.
Proof. intros Hx. unfold utf8.t4. rewrite (lor_const 240 3) by side. apply ord_chr. lia. Qed.

Lemma chr_tx x : 0 <= x -> chr (Z.lor utf8.tx (Z.land x utf8.maskx)) = chr (128 + x mod 64).
Proof. intros. apply ord_inj. rewrite ord_tx, ord_chr by dlia. done. Qed.
Lemma chr_t2 x : 0 <= x < 32 -> chr (Z.lor utf8.t2 x) = chr (192 + x).
Proof. intros. apply ord_inj. rewrite ord_t2, ord_chr by dlia. done. Qed.
Lemma chr_t3 x : 0 <= x < 16 -> chr (Z.lor utf8.t3 x) = chr (224 + x).
Proof. intros. apply ord_inj. rewrite ord_t3, ord_chr by dlia. done. Qed.
Lemma chr_t4 x : 0 <= x < 8 -> chr (Z.lor utf8.t4 x) = chr (240 + x).
Proof. intros. apply ord_inj. rewrite ord_t4, ord_chr by dlia. done. Qed.

Lemma shiftr6 r : Z.shiftr r 6 = r / 64.
Proof. by rewrite Z.shiftr_div_pow2. Qed.
Lemma shiftr12 r : Z.shiftr r 12 = r / 4096.
Proof. by rewrite Z.shiftr_div_pow2. Qed.
Lemma shiftr18 r : Z.shiftr r 18 = r / 262144.
Proof. by rewrite Z.shiftr_div_pow2. Qed.

Lemma rune2 p0 b1 :
  Z.lor (Z.shiftl (Z.land p0 utf8.mask2) 6) (Z.land b1 utf8.maskx)
  = (p0 mod 32) * 64 + b1 mod 64.
Proof.
  unfold utf8.mask2, utf8.maskx. change 31 with (2 ^ 5 - 1). change 63 with (2 ^ 6 - 1).
  rewrite !land_mask by lia. rewrite Z.shiftl_mul_pow2 by lia.
  rewrite lor_shifted by side. done.
Qed.

Lemma rune3 p0 b1 b2 :
  Z.lor (Z.lor (Z.shiftl (Z.land p0 utf8.mask3) 12) (Z.shiftl (Z.land b1 utf8.maskx) 6))
        (Z.land b2 utf8.maskx)
  = (p0 mod 16) * 4096 + (b1 mod 64) * 64 + b2 mod 64.
Proof.
  unfold utf8.mask3, utf8.maskx. change 15 with (2 ^ 4 - 1). change 63 with (2 ^ 6 - 1).
  rewrite !land_mask by lia. rewrite !Z.shiftl_mul_pow2 by lia.
  rewrite (lor_shifted _ (b1 `mod` 2 ^ 6 * 2 ^ 6) 12) by side.
  replace (p0 `mod` 2 ^ 4 * 2 ^ 12 + b1 `mod` 2 ^ 6 * 2 ^ 6)
    with ((p0 mod 2 ^ 4 * 2 ^ 6 + b1 mod 2 ^ 6) * 2 ^ 6) by (pows; lia).
  rewrite lor_shifted by side. pows. lia.
Qed.

Lemma rune4 p0 b1 b2 b3 :
  Z.lor (Z.lor (Z.lor (Z.shiftl (Z.land p0 utf8.mask4) 18) (Z.shiftl (Z.land b1 utf8.maskx) 12))
               (Z.shiftl (Z.land b2 utf8.maskx) 6))
        (Z.land b3 utf8.maskx)
  = (p0 mod 8) * 262144 + (b1 mod 64) * 4096 + (b2 mod 64) * 64 + b3 mod 64.
Proof.
  unfold utf8.mask4, utf8.maskx. change 7 with (2 ^ 3 - 1). change 63 with (2 ^ 6 - 1).
  rewrite !land_mask by lia. rewrite !Z.shiftl_mul_pow2 by lia.
  rewrite (lor_shifted _ (b1 `mod` 2 ^ 6 * 2 ^ 12) 18) by side.
  replace (p0 `mod` 2 ^ 3 * 2 ^ 18 + b1 `mod` 2 ^ 6 * 2 ^ 12)
    with ((p0 mod 2 ^ 3 * 2 ^ 6 + b1 mod 2 ^ 6) * 2 ^ 12) by (pows; lia).
  rewrite (lor_shifted _ (b2 `mod` 2 ^ 6 * 2 ^ 6) 12) by side.
  replace ((p0 `mod` 2 ^ 3 * 2 ^ 6 + b1 `mod` 2 ^ 6) * 2 ^ 12 + b2 `mod` 2 ^ 6 * 2 ^ 6)
    with (((p0 mod 2 ^ 3 * 2 ^ 6 + b1 mod 2 ^ 6) * 2 ^ 6 + b2 mod 2 ^ 6) * 2 ^ 6)
    by (pows; lia).
  rewrite lor_shifted by side. pows. lia.
Qed.

(** The second byte of a sequence that starts with [p0] lies in the range
    [first] gives iff the rune is neither too short for its length, nor a
    surrogate half, nor out of range. *)
Lemma first_2 p0 : 194 <= p0 <= 223 -> utf8.first p0 = Some (2%nat, (128, 191)).
Proof. intros. unfold utf8.first, between, utf8.locb, utf8.hicb. by cmp_lia. Qed.

Lemma first_3 p0 :
  224 <= p0 <= 239 ->
  utf8.first p0 = Some (3%nat, (lo3 p0, hi3 p0)).
Proof.
  intros. unfold lo3, hi3, utf8.first, between, utf8.locb, utf8.hicb.
  destruct (Z.eq_dec p0 224); [|destruct (Z.eq_dec p0 237); [|destruct (Z.lt_ge_cases p0 237)]].
  all: by cmp_lia.
Qed.

Lemma first_4 p0 :
  240 <= p0 <= 244 ->
  utf8.first p0 = Some (4%nat, (lo4 p0, hi4 p0)).
Proof.
  intros. unfold lo4, hi4, utf8.first, between, utf8.locb, utf8.hicb.
  destruct (Z.eq_dec p0 240); [|destruct (Z.eq_dec p0 244)].
  all: by cmp_lia.
Qed.

Lemma first_None p0 : 128 <= p0 < 194 \/ 244 < p0 -> utf8.first p0 = None.
Proof.
  intros [H|H]; unfold utf8.first, between, utf8.locb, utf8.hicb; by cmp_lia.
Qed.

Lemma DecodeRune_1 c0 t : ord c0 < 128 -> utf8.DecodeRune (String c0 t) = (ord c0, 1%nat).
Proof. intros. unfold utf8.DecodeRune, utf8.RuneSelf. by cmp_lia. Qed.

Lemma DecodeRune_2 c0 c1 t :
  194 <= ord c0 <= 223 -> 128 <= ord c1 <= 191 ->
  utf8.DecodeRune (String c0 (String c1 t)) = ((ord c0 mod 32) * 64 + ord c1 mod 64, 2%nat).
Proof.
  intros H0 H1. unfold utf8.DecodeRune, utf8.RuneSelf.
  rewrite first_2 by done. unfold between. cmp_lia. simpl. by rewrite rune2.
Qed.

Lemma DecodeRune_3 c0 c1 c2 t :
  224 <= ord c0 <= 239 ->
  lo3 (ord c0) <= ord c1 <= hi3 (ord c0) ->
  128 <= ord c2 <= 191 ->
  utf8.DecodeRune (String c0 (String c1 (String c2 t)))
  = ((ord c0 mod 16) * 4096 + (ord c1 mod 64) * 64 + ord c2 mod 64, 3%nat).
Proof.
  intros H0 H1 H2. unfold utf8.DecodeRune, utf8.RuneSelf.
  rewrite first_3 by done. unfold between, utf8.locb, utf8.hicb.
  rewrite (proj2 (Z.ltb_ge (ord c0) 128)) by lia.
  rewrite (proj2 (Z.leb_le _ (ord c1))), (proj2 (Z.leb_le (ord c1) _)) by lia.
  rewrite (proj2 (Z.leb_le _ (ord c2))), (proj2 (Z.leb_le (ord c2) _)) by lia.
  simpl. by rewrite rune3.
Qed.

Lemma DecodeRune_4 c0 c1 c2 c3 t :
  240 <= ord c0 <= 244 ->
  lo4 (ord c0) <= ord c1 <= hi4 (ord c0) ->
  128 <= ord c2 <= 191 -> 128 <= ord c3 <= 191 ->
  utf8.DecodeRune (String c0 (String c1 (String c2 (String c3 t))))
  = ((ord c0 mod 8) * 262144 + (ord c1 mod 64) * 4096 + (ord c2 mod 64) * 64 + ord c3 mod 64,
     4%nat).
Proof.
  intros H0 H1 H2 H3. unfold utf8.DecodeRune, utf8.RuneSelf.
  rewrite first_4 by done. unfold between, utf8.locb, utf8.hicb.
  rewrite (proj2 (Z.ltb_ge (ord c0) 128)) by lia.
  rewrite (proj2 (Z.leb_le _ (ord c1))), (proj2 (Z.leb_le (ord c1) _)) by lia.
  rewrite (proj2 (Z.leb_le _ (ord c2))), (proj2 (Z.leb_le (ord c2) _)) by lia.
  rewrite (proj2 (Z.leb_le _ (ord c3))), (proj2 (Z.leb_le (ord c3) _)) by lia.
  simpl. by rewrite rune4.
Qed.

(** The four shapes of an encoding. *)
Lemma EncodeRune_1 r : 0 <= r < 128 -> utf8.EncodeRune r = String (chr r) "".
Proof. intros. unfold utf8.EncodeRune, between, utf8.rune1Max. by cmp_lia. Qed.

Lemma EncodeRune_2 r :
  128 <= r < 2048 ->
  utf8.EncodeRune r = String (chr (192 + r / 64)) (String (chr (128 + r mod 64)) "").
Proof.
  intros. unfold utf8.EncodeRune, between, utf8.rune1Max, utf8.rune2Max. cmp_lia. simpl.
  rewrite shiftr6.
  rewrite chr_t2, chr_tx by dlia. done.
Qed.

Lemma EncodeRune_3 r :
  2048 <= r < 65536 -> r < 55296 \/ 57344 <= r ->
  utf8.EncodeRune r
  = String (chr (224 + r / 4096))
      (String (chr (128 + (r / 64) mod 64)) (String (chr (128 + r mod 64)) "")).
Proof.
  intros Hr Hs. unfold utf8.EncodeRune, between, utf8.rune1Max, utf8.rune2Max, utf8.rune3Max,
    utf8.surrogateMin, utf8.surrogateMax.
  rewrite shiftr6, shiftr12.
  rewrite chr_t3, !chr_tx by dlia.
  destruct Hs; by cmp_lia.
Qed.

Lemma EncodeRune_4 r :
  65536 <= r <= 1114111 ->
  utf8.EncodeRune r
  = String (chr (240 + r / 262144))
      (String (chr (128 + (r / 4096) mod 64))
         (String (chr (128 + (r / 64) mod 64)) (String (chr (128 + r mod 64)) ""))).
Proof.
  intros Hr. unfold utf8.EncodeRune, between, utf8.rune1Max, utf8.rune2Max, utf8.rune3Max,
    utf8.surrogateMin, utf8.surrogateMax, utf8.MaxRune.
  rewrite shiftr6, shiftr12, shiftr18.
  rewrite chr_t4, !chr_tx by dlia.
  by cmp_lia.
Qed.

Lemma EncodeRune_invalid r :
  utf8.ValidRune r = false ->
  utf8.EncodeRune r = String (chr 239) (String (chr 191) (String (chr 189) "")).
Proof.
  unfold utf8.ValidRune, utf8.EncodeRune, between, utf8.rune1Max, utf8.rune2Max, utf8.rune3Max,
    utf8.surrogateMin, utf8.surrogateMax, utf8.MaxRune.
  intros H. 
  assert (r < 0 \/ 55296 <= r < 57344 \/ 1114111 < r) as Hr by lia. clear H.
  destruct Hr as [Hr|[Hr|Hr]]; by cmp_lia.
Qed.

Lemma ValidRune_spec r :
  utf8.ValidRune r = true <-> 0 <= r <= 1114111 /\ (r < 55296 \/ 57344 <= r).
Proof.
  unfold utf8.ValidRune, between, utf8.surrogateMin, utf8.surrogateMax, utf8.MaxRune. lia.
Qed.

Lemma decode_encode r t :
  utf8.ValidRune r = true ->
  utf8.DecodeRune (utf8.EncodeRune r +:+ t) = (r, String.length (utf8.EncodeRune r)).
Proof.
  intros [Hs Hs']%ValidRune_spec.
  destruct (Z.lt_ge_cases r 128); [|destruct (Z.lt_ge_cases r 2048);
    [|destruct (Z.lt_ge_cases r 65536)]].
  - rewrite EncodeRune_1 by lia. cbn [String.append String.length]. rewrite DecodeRune_1; rewrite ord_chr; try lia. done.
  - rewrite EncodeRune_2 by lia. cbn [String.append String.length].
    rewrite DecodeRune_2; rewrite ?ord_chr by dlia; try dlia. f_equal. dlia.
  - rewrite EncodeRune_3 by lia. cbn [String.append String.length].
    rewrite DecodeRune_3; rewrite ?ord_chr by dlia; try dlia.
    + f_equal. dlia.
    + unfold lo3, hi3.
      destruct (Z.eqb_spec (224 + r / 4096) 224), (Z.eqb_spec (224 + r / 4096) 237); dlia.
  - rewrite EncodeRune_4 by lia. cbn [String.append String.length].
    rewrite DecodeRune_4; rewrite ?ord_chr by dlia; try dlia.
    + f_equal. dlia.
    + unfold lo4, hi4.
      destruct (Z.eqb_spec (240 + r / 262144) 240), (Z.eqb_spec (240 + r / 262144) 244); dlia.
Qed.

End Utf8.

Ltac decode_fails :=
  right; right; right; right;
  unfold utf8.DecodeRune, utf8.RuneSelf;
  rewrite ?first_None, ?first_2, ?first_3, ?first_4 by lia;
  unfold between, utf8.locb, utf8.hicb, lo3, hi3, lo4, hi4; cmp_lia; simpl; cmp_lia;
  repeat case_match; reflexivity.

Ltac split_ranges c0 :=
  unfold lo3, hi3, lo4, hi4 in *;
  destruct (Z.eqb_spec (ord c0) 224), (Z.eqb_spec (ord c0) 237),
           (Z.eqb_spec (ord c0) 240), (Z.eqb_spec (ord c0) 244); try lia.

Section Utf8Decode.

(** The shapes of the input [DecodeRune] accepts. *)
Lemma DecodeRune_cases c0 p1 :
  ord c0 < 128
  \/ (exists c1 p2, p1 = String c1 p2 /\ 194 <= ord c0 <= 223 /\ 128 <= ord c1 <= 191)
  \/ (exists c1 c2 p3, p1 = String c1 (String c2 p3) /\ 224 <= ord c0 <= 239
        /\ lo3 (ord c0) <= ord c1 <= hi3 (ord c0) /\ 128 <= ord c2 <= 191)
  \/ (exists c1 c2 c3 p4, p1 = String c1 (String c2 (String c3 p4)) /\ 240 <= ord c0 <= 244
        /\ lo4 (ord c0) <= ord c1 <= hi4 (ord c0) /\ 128 <= ord c2 <= 191
        /\ 128 <= ord c3 <= 191)
  \/ utf8.DecodeRune (String c0 p1) = (utf8.RuneError, 1%nat).
Proof.
  pose proof (ord_range c0) as R0.
  destruct (Z.lt_ge_cases (ord c0) 128); [by left|].
  destruct (Z.lt_ge_cases (ord c0) 194); [decode_fails|].
  destruct (Z.lt_ge_cases 244 (ord c0)); [decode_fails|].
  destruct p1 as [|c1 p2]; [decode_fails|].
  destruct (Z.lt_ge_cases (ord c0) 224).
  { destruct (Z.lt_ge_cases (ord c1) 128); [decode_fails|].
    destruct (Z.lt_ge_cases 191 (ord c1)); [decode_fails|].
    right; left. eexists _, _. split; [done|lia]. }
  destruct (Z.lt_ge_cases (ord c0) 240).
  { destruct p2 as [|c2 p3]; [decode_fails|].
    destruct (Z.lt_ge_cases (ord c1) (lo3 (ord c0))); [split_ranges c0; decode_fails|].
    destruct (Z.lt_ge_cases (hi3 (ord c0)) (ord c1)); [split_ranges c0; decode_fails|].
    destruct (Z.lt_ge_cases (ord c2) 128); [split_ranges c0; decode_fails|].
    destruct (Z.lt_ge_cases 191 (ord c2)); [split_ranges c0; decode_fails|].
    right; right; left; eexists _, _, _; split; [done|lia]. }
  destruct p2 as [|c2 p3]; [decode_fails|].
  destruct p3 as [|c3 p4]; [split_ranges c0; decode_fails|].
  destruct (Z.lt_ge_cases (ord c1) (lo4 (ord c0))); [split_ranges c0; decode_fails|].
  destruct (Z.lt_ge_cases (hi4 (ord c0)) (ord c1)); [split_ranges c0; decode_fails|].
  destruct (Z.lt_ge_cases (ord c2) 128); [split_ranges c0; decode_fails|].
  destruct (Z.lt_ge_cases 191 (ord c2)); [split_ranges c0; decode_fails|].
  destruct (Z.lt_ge_cases (ord c3) 128); [split_ranges c0; decode_fails|].
  destruct (Z.lt_ge_cases 191 (ord c3)); [split_ranges c0; decode_fails|].
  right; right; right; left; eexists _, _, _, _; split; [done|lia].
Qed.

(** A rune that was decoded from a valid sequence is encoded as that
    sequence. *)
Lemma encode_decode s r n :
  utf8.DecodeRune s = (r, n) -> s <> "" ->
  (r =? utf8.RuneError) && (n =? 1)%nat = false ->
  utf8.ValidRune r = true /\ utf8.EncodeRune r = take_bytes n s
  /\ n = String.length (utf8.EncodeRune r).
Proof.
  destruct s as [|c0 p1]; [done|]. intros Hd _ Hok.
  pose proof (ord_range c0) as R0.
  destruct (DecodeRune_cases c0 p1)
    as [H|[(c1 & p2 & -> & H0 & H1)|[(c1 & c2 & p3 & -> & H0 & H1 & H2)|
        [(c1 & c2 & c3 & p4 & -> & H0 & H1 & H2 & H3)|H]]]].
  - rewrite DecodeRune_1 in Hd by done. injection Hd as <- <-.
    rewrite EncodeRune_1 by lia. rewrite chr_ord. split; [apply ValidRune_spec; lia|done].
  - pose proof (ord_range c1). rewrite DecodeRune_2 in Hd by done. injection Hd as <- <-.
    rewrite EncodeRune_2 by dlia. split; [apply ValidRune_spec; dlia|].
    replace (192 + _) with (ord c0) by dlia. replace (128 + _) with (ord c1) by dlia.
    by rewrite !chr_ord.
  - pose proof (ord_range c1). pose proof (ord_range c2).
    rewrite DecodeRune_3 in Hd by done. injection Hd as <- <-.
    assert (128 <= ord c1 <= 191) by (split_ranges c0; lia).
    assert (Hv : utf8.ValidRune (ord c0 `mod` 16 * 4096 + ord c1 `mod` 64 * 64 + ord c2 `mod` 64)
                 = true).
    { apply ValidRune_spec. split_ranges c0; dlia. }
    split; [done|]. apply ValidRune_spec in Hv.
    rewrite EncodeRune_3; [|split_ranges c0; dlia|lia].
    replace (224 + _) with (ord c0) by dlia.
    replace (128 + (_ / 64) mod 64) with (ord c1) by dlia.
    replace (128 + _ mod 64) with (ord c2) by dlia.
    by rewrite !chr_ord.
  - pose proof (ord_range c1). pose proof (ord_range c2). pose proof (ord_range c3).
    rewrite DecodeRune_4 in Hd by done. injection Hd as <- <-.
    assert (128 <= ord c1 <= 191) by (split_ranges c0; lia).
    assert (Hv : utf8.ValidRune (ord c0 `mod` 8 * 262144 + ord c1 `mod` 64 * 4096
                                 + ord c2 `mod` 64 * 64 + ord c3 `mod` 64) = true).
    { apply ValidRune_spec. split_ranges c0; dlia. }
    split; [done|]. apply ValidRune_spec in Hv.
    rewrite EncodeRune_4; [|split_ranges c0; dlia].
    replace (240 + _) with (ord c0) by dlia.
    replace (128 + (_ / 4096) mod 64) with (ord c1) by dlia.
    replace (128 + (_ / 64) mod 64) with (ord c2) by dlia.
    replace (128 + _ mod 64) with (ord c3) by dlia.
    by rewrite !chr_ord.
  - rewrite H in Hd. injection Hd as <- <-. done.
Qed.

End Utf8Decode.

(** ** Strings and the validity of UTF-8 *)

Section Strings.

Lemma sapp_nil_r s : s +:+ "" = s.
Proof. induction s; simpl; congruence. Qed.

Lemma sapp_assoc s t u : (s +:+ t) +:+ u = s +:+ (t +:+ u).
Proof. induction s; simpl; congruence. Qed.

Lemma slength_app s t : String.length (s +:+ t) = (String.length s + String.length t)%nat.
Proof. induction s; simpl; congruence. Qed.

Lemma take_drop n s : take_bytes n s +:+ drop_bytes n s = s.
Proof. revert s; induction n; intros [|c s]; simpl; try done. by rewrite IHn. Qed.

Lemma length_take n s : (n <= String.length s)%nat -> String.length (take_bytes n s) = n.
Proof. revert s; induction n; intros [|c s]; simpl; try done; try lia. intros. rewrite IHn; lia. Qed.

Lemma length_take_le n s : (String.length (take_bytes n s) <= String.length s)%nat.
Proof. revert s; induction n; intros [|c s]; simpl; try lia. specialize (IHn s). lia. Qed.

Lemma drop_app s t : drop_bytes (String.length s) (s +:+ t) = t.
Proof. induction s; simpl; done. Qed.

End Strings.

#[local] Arguments utf8.DecodeRune : simpl never.
#[local] Arguments utf8.EncodeRune : simpl never.

Section Utf8Strings.

(** A decoded rune does not depend on what follows its bytes. *)
Lemma DecodeRune_prefix s r n :
  utf8.DecodeRune s = (r, n) -> s <> "" ->
  (r =? utf8.RuneError) && (n =? 1)%nat = false ->
  (1 <= n <= String.length s)%nat /\ forall t, utf8.DecodeRune (s +:+ t) = (r, n).
Proof.
  intros Hd Hs Hok. destruct (encode_decode s r n) as (Hv & He & Hn); try done.
  pose proof (length_take_le n s) as Hl. rewrite <- He, <- Hn in Hl.
  split.
  - split; [|done]. destruct s as [|c s]; [done|]. destruct n; [|lia].
    exfalso. simpl in He. unfold utf8.EncodeRune in He. repeat case_match; done.
  - intros t. rewrite <- (take_drop n s), <- He, sapp_assoc, decode_encode by done.
    by rewrite <- Hn.
Qed.

Lemma valid_from_skip pre s k :
  utf8.valid_from (pre +:+ s) (String.length pre + k) = utf8.valid_from s k.
Proof. induction pre; simpl; done. Qed.

Lemma valid_from_app a b k :
  (k <= String.length a)%nat -> utf8.valid_from a k = true ->
  utf8.valid_from (a +:+ b) k = utf8.valid_from b 0.
Proof.
  revert k. induction a as [|c a IH]; intros k Hk Hv.
  - simpl in Hk. by replace k with 0%nat by lia.
  - destruct k as [|k]; simpl in *; [|apply IH; [lia|done]].
    change (String c (a +:+ b)) with (String c a +:+ b).
    destruct (utf8.DecodeRune (String c a)) as [r n] eqn:Hd.
    destruct ((r =? utf8.RuneError) && (n =? 1)%nat) eqn:Hok; [done|].
    destruct (DecodeRune_prefix _ _ _ Hd) as [Hn Ht]; try done.
    rewrite Ht, Hok. simpl in Hn. apply IH; [lia|done].
Qed.

Lemma ValidString_app a b :
  utf8.ValidString a = true -> utf8.ValidString (a +:+ b) = utf8.ValidString b.
Proof. intros. apply valid_from_app; [lia|done]. Qed.

Lemma ValidString_EncodeRune r : utf8.ValidString (utf8.EncodeRune r) = true.
Proof.
  destruct (utf8.ValidRune r) eqn:Hv.
  - pose proof (decode_encode r "" Hv) as Hd. rewrite sapp_nil_r in Hd.
    unfold utf8.ValidString.
    destruct (utf8.EncodeRune r) as [|c s] eqn:He.
    + done.
    + simpl utf8.valid_from. rewrite Hd.
      apply ValidRune_spec in Hv.
      replace (r =? utf8.RuneError) with (r =? 65533) by done.
      destruct (Z.eqb_spec r 65533) as [->|].
      * rewrite EncodeRune_3 in He by lia. injection He as <- <-. done.
      * simpl. rewrite <- (Nat.add_0_r (String.length s - 0)).
        rewrite Nat.sub_0_r. rewrite <- (sapp_nil_r s) at 1.
        by rewrite valid_from_skip.
  - rewrite EncodeRune_invalid by done. done.
Qed.

End Utf8Strings.

(** ** JSON strings: what is written is read back *)

#[local] Arguments utf8.ValidString : simpl never.

Section JsonStrings.

Lemma string_body_skip pre s k acc :
  json.string_body (pre +:+ s) (String.length pre + k) acc = json.string_body s k acc.
Proof. induction pre; simpl; done. Qed.

Lemma string_bytes_skip pre s k :
  json.string_bytes (pre +:+ s) (String.length pre + k) = json.string_bytes s k.
Proof. induction pre; simpl; done. Qed.

Lemma hexval_hex z : 0 <= z < 16 -> json.hexval (json.hex z) = Some z.
Proof.
  intros Hz. unfold json.hex, json.hexval, between.
  destruct (Z.ltb_spec z 10); rewrite ord_chr by lia; cmp_lia; simpl; f_equal; lia.
Qed.

Lemma ValidString_ascii c : ord c < 128 -> utf8.ValidString (String c "") = true.
Proof.
  intros Hc. unfold utf8.ValidString. simpl. rewrite DecodeRune_1 by done.
  pose proof (ord_range c). unfold utf8.RuneError. by cmp_lia.
Qed.

(** Reading back what [string_bytes] writes for an ASCII byte. *)
Lemma string_body_ascii c rest acc :
  ord c < 128 ->
  json.string_body
    ((if json.htmlSafeSet (ord c) then String c "" else json.escape_byte c) +:+ rest) 0 acc
  = json.string_body rest 0 (acc +:+ String c "").
Proof.
  intros Hc. pose proof (ord_range c) as Hr.
  destruct (json.htmlSafeSet (ord c)) eqn:Hs.
  - unfold json.htmlSafeSet, between in Hs. simpl. rewrite !byte_is_ord.
    change (ord dquote) with 34. change (ord "\") with 92. unfold utf8.RuneSelf.
    cmp_lia. done.
  - unfold json.escape_byte. rewrite !byte_is_ord.
    change (ord dquote) with 34. change (ord "\") with 92.
    change (ord "008") with 8. change (ord "012") with 12. change (ord "010") with 10.
    change (ord "013") with 13. change (ord "009") with 9.
    destruct (Z.eqb_spec (ord c) 92) as [E|N1];
      [apply (ord_inj c "\") in E; by subst|].
    destruct (Z.eqb_spec (ord c) 34) as [E|N2];
      [apply (ord_inj c dquote) in E; by subst|].
    destruct (Z.eqb_spec (ord c) 8) as [E|N3];
      [apply (ord_inj c "008") in E; by subst|].
    destruct (Z.eqb_spec (ord c) 12) as [E|N4];
      [apply (ord_inj c "012") in E; by subst|].
    destruct (Z.eqb_spec (ord c) 10) as [E|N5];
      [apply (ord_inj c "010") in E; by subst|].
    destruct (Z.eqb_spec (ord c) 13) as [E|N6];
      [apply (ord_inj c "013") in E; by subst|].
    destruct (Z.eqb_spec (ord c) 9) as [E|N7];
      [apply (ord_inj c "009") in E; by subst|].
    cbn [orb String.append json.string_body].
    change (byte_is "\" dquote) with false. change (byte_is "\" "\") with true.
    change (byte_is "u" "u") with true. cbn iota.
    unfold json.getu4.
    change (byte_is "\" "\" && byte_is "u" "u") with true. cbn iota.
    change (json.hexval "0") with (Some 0).
    rewrite Z.shiftr_div_pow2 by lia. change 15 with (2 ^ 4 - 1). rewrite land_mask by lia.
    pows. rewrite !hexval_hex by dlia.
    replace (((0 * 16 + 0) * 16 + ord c `div` 16) * 16 + ord c `mod` 16) with (ord c) by dlia.
    unfold utf16.IsSurrogate, utf16.surr1, utf16.surr3. cmp_lia. cbn [andb].
    rewrite EncodeRune_1 by lia. rewrite chr_ord. done.
Qed.

(** Reading back the bytes of a rune outside ASCII. *)
Lemma string_body_rune r rest acc :
  utf8.ValidRune r = true -> 128 <= r ->
  json.string_body (utf8.EncodeRune r +:+ rest) 0 acc
  = json.string_body rest 0 (acc +:+ utf8.EncodeRune r).
Proof.
  intros Hv Hr. pose proof (decode_encode r rest Hv) as Hd.
  destruct (utf8.EncodeRune r) as [|c u] eqn:He.
  { exfalso. unfold utf8.EncodeRune in He. repeat case_match; done. }
  assert (128 <= ord c) as Hc.
  { destruct (Z.lt_ge_cases (ord c) 128) as [Hlt|]; [|done].
    cbn [String.append] in Hd. rewrite DecodeRune_1 in Hd by done.
    injection Hd as Hd _. lia. }
  cbn [String.append] in *. cbn [json.string_body]. rewrite !byte_is_ord.
  change (ord dquote) with 34. change (ord "\") with 92. unfold utf8.RuneSelf.
  cmp_lia. rewrite Hd, He. cbn [String.length].
  replace (S (String.length u) - 1)%nat with (String.length u + 0)%nat by lia.
  apply string_body_skip.
Qed.

Lemma string_body_sep (r : Z) rest acc :
  r = 0x2028 \/ r = 0x2029 ->
  json.string_body ("\u202" +:+ String (json.hex (Z.land r 15)) "" +:+ rest) 0 acc
  = json.string_body rest 0 (acc +:+ utf8.EncodeRune r).
Proof. intros [->| ->]; done. Qed.

(** A string literal that [appendString] wrote is read back as the string
    it was written from, provided that is valid UTF-8. *)
Lemma string_body_bytes n : forall s acc rest,
  (String.length s <= n)%nat -> utf8.ValidString s = true ->
  json.string_body (json.string_bytes s 0 +:+ String dquote rest) 0 acc = Some (acc +:+ s, rest).
Proof.
  induction n as [|n IH]; intros s acc rest Hn Hv.
  { destruct s; [|simpl in Hn; lia]. simpl. by rewrite sapp_nil_r. }
  destruct s as [|c s]; [simpl; by rewrite sapp_nil_r|].
  unfold utf8.ValidString in Hv. cbn [utf8.valid_from] in Hv.
  cbn [json.string_bytes]. unfold utf8.RuneSelf.
  destruct (Z.ltb_spec (ord c) 128) as [Hc|Hc].
  - rewrite DecodeRune_1 in Hv by done.
    destruct ((ord c =? utf8.RuneError) && (1 =? 1)%nat); [done|].
    rewrite sapp_assoc, string_body_ascii by done.
    rewrite IH; [|simpl in Hn; lia|done]. by rewrite sapp_assoc.
  - destruct (utf8.DecodeRune (String c s)) as [r k] eqn:Hd.
    destruct ((r =? utf8.RuneError) && (k =? 1)%nat) eqn:Hok; [done|].
    destruct (encode_decode _ _ _ Hd) as (Hr & He & Hk); try done.
    destruct (DecodeRune_prefix _ _ _ Hd) as [Hlen _]; try done.
    assert (128 <= r) as Hr128.
    { destruct (Z.lt_ge_cases r 128) as [Hlt|]; [|done]. exfalso.
      apply ValidRune_spec in Hr. rewrite EncodeRune_1 in He, Hk by lia.
      simpl in Hk. subst k. simpl in He. injection He as He.
      rewrite <- He, ord_chr in Hc by lia. lia. }
    assert (String c s = utf8.EncodeRune r +:+ drop_bytes k (String c s)) as Hs.
    { by rewrite He, take_drop. }
    assert (s = drop_bytes 1 (utf8.EncodeRune r) +:+ drop_bytes k (String c s)) as Hs'.
    { destruct (utf8.EncodeRune r) as [|c' u]; [simpl in *; lia|].
      cbn [String.append drop_bytes] in *. by injection Hs. }
    assert (String.length (drop_bytes 1 (utf8.EncodeRune r)) = (k - 1)%nat) as Hl.
    { destruct (utf8.EncodeRune r) as [|c' u]; simpl in *; lia. }
    assert (json.string_bytes s (k - 1) = json.string_bytes (drop_bytes k (String c s)) 0) as Hb.
    { rewrite Hs' at 1. rewrite <- Hl, <- (Nat.add_0_r (String.length _)).
      apply string_bytes_skip. }
    assert (utf8.ValidString (drop_bytes k (String c s)) = true) as Hv'.
    { unfold utf8.ValidString. rewrite <- Hv. rewrite Hs' at 2.
      rewrite <- Hl, <- (Nat.add_0_r (String.length _)). symmetry. apply valid_from_skip. }
    assert (String.length (drop_bytes k (String c s)) <= n)%nat as Hn'.
    { pose proof (f_equal String.length Hs) as E. rewrite slength_app in E.
      simpl in E, Hn. lia. }
    rewrite Hb.
    destruct ((r =? 8232) || (r =? 8233)) eqn:Hsep.
    + rewrite !sapp_assoc. rewrite string_body_sep by lia.
      rewrite IH by done. by rewrite sapp_assoc, <- Hs.
    + rewrite <- He, sapp_assoc, string_body_rune by done.
      rewrite IH by done. by rewrite sapp_assoc, <- Hs.
Qed.

Lemma appendString_read s rest :
  utf8.ValidString s = true ->
  json.string_body (drop_bytes 1 (json.appendString s +:+ rest)) 0 "" = Some (s, rest).
Proof.
  intros Hv. unfold json.appendString, quoted. cbn [String.append drop_bytes].
  rewrite sapp_assoc. cbn [String.append]. by rewrite (string_body_bytes _ s "" rest (le_n _)).
Qed.

(** What the reader makes of a string literal is valid UTF-8. *)
Lemma string_body_valid s : forall k acc t rest,
  json.string_body s k acc = Some (t, rest) ->
  utf8.ValidString acc = true -> utf8.ValidString t = true.
Proof.
  induction s as [|c s IH]; intros k acc t rest Hb Ha; [done|].
  cbn [json.string_body] in Hb. destruct k as [|k]; [|by eapply IH].
  repeat case_match; try done; simplify_eq; try done.
  all: eapply IH; [done|].
  all: rewrite ValidString_app by done.
  all: try apply ValidString_EncodeRune.
  all: apply ValidString_ascii.
  - match goal with H : json.unescape _ = Some _ |- _ =>
      unfold json.unescape in H; repeat case_match; simplify_eq; try (by vm_compute) end.
    match goal with H : _ || _ = true |- _ =>
      rewrite !orb_true_iff, !byte_is_eq in H; destruct H as [[->| ->]| ->]; by vm_compute end.
  - match goal with H : (ord c <? utf8.RuneSelf) = true |- _ =>
      unfold utf8.RuneSelf in H; lia end.
Qed.

End JsonStrings.

(** ** Number literals and integers *)

#[local] Arguments byte_is : simpl never.
#[local] Arguments json.isDigit : simpl never.

Section Numbers.

Lemma digits_spec s d r : json.digits s = (d, r) -> s = d +:+ r.
Proof.
  revert d r. induction s as [|c s IH]; intros d r H; simpl in H.
  - by injection H as <- <-.
  - destruct (json.isDigit c).
    + destruct (json.digits s) as [d' r'] eqn:E. injection H as <- <-.
      simpl. f_equal. by apply IH.
    + by injection H as <- <-.
Qed.

Lemma digits_ext s d r rest :
  json.digits s = (d, r) -> number_stop rest = true ->
  json.digits (s +:+ rest) = (d, r +:+ rest).
Proof.
  revert d r. induction s as [|c s IH]; intros d r H Hs; simpl in H.
  - injection H as <- <-. simpl. destruct rest as [|c rest]; [done|].
    simpl in *. destruct (json.isDigit c); [done|]. done.
  - simpl. destruct (json.isDigit c).
    + destruct (json.digits s) as [d' r'] eqn:E. injection H as <- <-.
      by rewrite (IH d' r').
    + by injection H as <- <-.
Qed.

Lemma digits_all s : all_digits s = true -> json.digits s = (s, "").
Proof.
  induction s as [|c s IH]; simpl; [done|]. intros [Hc Hs]%andb_true_iff.
  rewrite Hc, IH by done. done.
Qed.

Lemma scan_int_spec s l r : json.scan_int s = Some (l, r) -> s = l +:+ r.
Proof.
  destruct s as [|c s]; simpl; [done|].
  destruct (byte_is c "0"); [by intros [= <- <-]|].
  destruct (json.isDigit c); [|done].
  destruct (json.digits s) as [d' r'] eqn:E. intros [= <- <-].
  simpl. f_equal. by apply digits_spec.
Qed.

Lemma scan_int_ext s l r rest :
  json.scan_int s = Some (l, r) -> number_stop rest = true ->
  json.scan_int (s +:+ rest) = Some (l, r +:+ rest).
Proof.
  destruct s as [|c s]; simpl; [done|].
  destruct (byte_is c "0"); [by intros [= <- <-]|].
  destruct (json.isDigit c); [|done].
  destruct (json.digits s) as [d' r'] eqn:E. intros [= <- <-] Hs.
  by rewrite (digits_ext _ _ _ _ E Hs).
Qed.

Lemma scan_frac_spec s l r : json.scan_frac s = Some (l, r) -> s = l +:+ r.
Proof.
  destruct s as [|c s]; simpl; [by intros [= <- <-]|].
  destruct (byte_is c "."); [|by intros [= <- <-]].
  destruct (json.digits s) as [d' r'] eqn:E. destruct d'; [done|]. intros [= <- <-].
  simpl. f_equal. by apply digits_spec in E.
Qed.

Lemma scan_frac_ext s l r rest :
  json.scan_frac s = Some (l, r) -> number_stop rest = true ->
  json.scan_frac (s +:+ rest) = Some (l, r +:+ rest).
Proof.
  destruct s as [|c s]; simpl.
  - intros [= <- <-] Hs. destruct rest as [|c rest]; [done|]. simpl in *.
    destruct (byte_is c "."); [|done]. by rewrite !orb_true_r in Hs.
  - destruct (byte_is c "."); [|by intros [= <- <-]].
    destruct (json.digits s) as [d' r'] eqn:E. destruct d'; [done|]. intros [= <- <-] Hs.
    by rewrite (digits_ext _ _ _ _ E Hs).
Qed.

Lemma scan_exp_spec s l r : json.scan_exp s = Some (l, r) -> s = l +:+ r.
Proof.
  destruct s as [|c s]; simpl; [by intros [= <- <-]|].
  destruct (byte_is c "e" || byte_is c "E"); [|by intros [= <- <-]].
  destruct (json.scan_sign s) as [sg s1] eqn:Es.
  destruct (json.digits s1) as [d' r'] eqn:E. destruct d'; [done|]. intros [= <- <-].
  simpl. f_equal. apply digits_spec in E. subst s1.
  destruct s as [|c' s]; simpl in Es; [simplify_eq|].
  destruct (byte_is c' "+" || byte_is c' "-"); simplify_eq; done.
Qed.

Lemma scan_exp_ext s l r rest :
  json.scan_exp s = Some (l, r) -> number_stop rest = true ->
  json.scan_exp (s +:+ rest) = Some (l, r +:+ rest).
Proof.
  destruct s as [|c s]; simpl.
  - intros [= <- <-] Hs. destruct rest as [|c rest]; [done|]. simpl in *.
    destruct (byte_is c "e"), (byte_is c "E"); try done; by rewrite ?orb_true_r in Hs.
  - destruct (byte_is c "e" || byte_is c "E"); [|by intros [= <- <-]].
    destruct s as [|c' s]; simpl; [done|].
    destruct (byte_is c' "+" || byte_is c' "-").
    + destruct (json.digits s) as [d' r'] eqn:E. destruct d'; [done|]. intros [= <- <-] Hs.
      by rewrite (digits_ext _ _ _ _ E Hs).
    + destruct (json.digits (String c' s)) as [d' r'] eqn:E. destruct d'; [done|].
      intros [= <- <-] Hs.
      change (String c' (s +:+ rest)) with (String c' s +:+ rest).
      by rewrite (digits_ext _ _ _ _ E Hs).
Qed.

Lemma scan_number_spec s l r : json.scan_number s = Some (l, r) -> s = l +:+ r.
Proof.
  unfold json.scan_number.
  destruct (json.scan_minus s) as [m s0] eqn:Em.
  destruct (json.scan_int s0) as [[i s1]|] eqn:Ei; [|done].
  destruct (json.scan_frac s1) as [[f s2]|] eqn:Ef; [|done].
  destruct (json.scan_exp s2) as [[e s3]|] eqn:Ee; [|done].
  intros [= <- <-].
  apply scan_int_spec in Ei. apply scan_frac_spec in Ef. apply scan_exp_spec in Ee.
  subst. rewrite !sapp_assoc.
  destruct s as [|c s]; simpl in Em; [by injection Em as <- <-|].
  destruct (byte_is c "-"); by injection Em as <- <-.
Qed.

Lemma scan_number_ext s l r rest :
  json.scan_number s = Some (l, r) -> number_stop rest = true ->
  json.scan_number (s +:+ rest) = Some (l, r +:+ rest).
Proof.
  unfold json.scan_number. intros H Hs.
  destruct s as [|c s]; [done|]. simpl json.scan_minus in *.
  destruct (byte_is c "-").
  - destruct (json.scan_int s) as [[i s1]|] eqn:Ei; [|done].
    destruct (json.scan_frac s1) as [[f s2]|] eqn:Ef; [|done].
    destruct (json.scan_exp s2) as [[e s3]|] eqn:Ee; [|done].
    injection H as <- <-.
    by rewrite (scan_int_ext _ _ _ _ Ei Hs), (scan_frac_ext _ _ _ _ Ef Hs),
      (scan_exp_ext _ _ _ _ Ee Hs).
  - destruct (json.scan_int (String c s)) as [[i s1]|] eqn:Ei; [|done].
    destruct (json.scan_frac s1) as [[f s2]|] eqn:Ef; [|done].
    destruct (json.scan_exp s2) as [[e s3]|] eqn:Ee; [|done].
    injection H as <- <-.
    change (String c (s +:+ rest)) with (String c s +:+ rest).
    by rewrite (scan_int_ext _ _ _ _ Ei Hs), (scan_frac_ext _ _ _ _ Ef Hs),
      (scan_exp_ext _ _ _ _ Ee Hs).
Qed.

(** A number literal is scanned as a whole when a stop follows it. *)
Lemma scan_number_valid lit rest :
  json.isValidNumber lit = true -> number_stop rest = true ->
  json.scan_number (lit +:+ rest) = Some (lit, rest).
Proof.
  unfold json.isValidNumber. intros H Hs.
  destruct (json.scan_number lit) as [[l r]|] eqn:E; [|done]. destruct r; [|done].
  pose proof (scan_number_spec _ _ _ E) as El. rewrite sapp_nil_r in El. subst l.
  by rewrite (scan_number_ext _ _ _ _ E Hs).
Qed.

(** *** Integers *)

Lemma string_of_uint_digits u : all_digits (NilEmpty.string_of_uint u) = true.
Proof. induction u; simpl; done. Qed.

Lemma to_uint_nzhead p : Decimal.nzhead (Pos.to_uint p) = Pos.to_uint p.
Proof.
  pose proof (DecimalPos.Unsigned.to_of (Pos.to_uint p)) as H.
  rewrite DecimalPos.Unsigned.of_to in H. simpl in H.
  destruct (Decimal.nzhead (Pos.to_uint p)) eqn:E.
  { exfalso. apply (DecimalPos.Unsigned.to_uint_nonzero p).
    rewrite H. unfold Decimal.unorm. by rewrite E. }
  all: rewrite H; unfold Decimal.unorm; by rewrite E.
Qed.

(** The decimal text of a positive number: digits, the first of which is
    not 0. *)
Lemma string_of_pos p :
  exists c s, NilZero.string_of_uint (Pos.to_uint p) = String c s
    /\ byte_is c "0" = false /\ json.isDigit c = true /\ all_digits s = true
    /\ byte_is c "-" = false /\ byte_is c "+" = false.
Proof.
  pose proof (to_uint_nzhead p) as Hn.
  pose proof (DecimalPos.Unsigned.to_uint_nonnil p) as Hnil.
  pose proof (string_of_uint_digits (Pos.to_uint p)) as Hd.
  destruct (Pos.to_uint p) as [|u|u|u|u|u|u|u|u|u|u] eqn:E; [done| |..].
  { exfalso. by apply (DecimalFacts.nzhead_nonzero (Decimal.D0 u) u). }
  all: simpl in *; eexists _, _; split; [done|]; by repeat split.
Qed.

Lemma FormatInt_valid z : json.isValidNumber (strconv.FormatInt z) = true.
Proof.
  unfold strconv.FormatInt, json.isValidNumber, json.scan_number.
  destruct z as [|p|p]; [done| |]; simpl Z.to_int; simpl NilZero.string_of_int.
  - destruct (string_of_pos p) as (c & s & -> & H0 & Hd & Hs & Hm & _).
    simpl. rewrite Hm. simpl. rewrite H0, Hd, (digits_all s Hs). done.
  - destruct (string_of_pos p) as (c & s & -> & H0 & Hd & Hs & Hm & _).
    simpl. change (byte_is "-" "-") with true. simpl.
    rewrite H0, Hd, (digits_all s Hs). done.
Qed.

Lemma ParseInt_FormatInt z : int64_range z -> strconv.ParseInt (strconv.FormatInt z) = Some z.
Proof.
  unfold int64_range. intros Hz. unfold strconv.FormatInt, strconv.ParseInt.
  destruct z as [|p|p]; [done| |]; simpl Z.to_int; simpl NilZero.string_of_int.
  - destruct (string_of_pos p) as (c & s & E & H0 & Hd & Hs & Hm & Hp). rewrite E.
    rewrite Hm, Hp. simpl. rewrite <- E. unfold strconv.ParseUint.
    rewrite NilZero.usu by apply DecimalPos.Unsigned.to_uint_nonnil.
    change (N.of_uint (Pos.to_uint p)) with (Pos.of_uint (Pos.to_uint p)).
    rewrite DecimalPos.Unsigned.of_to. simpl Z.of_N.
    rewrite (proj2 (Z.leb_gt _ _)) by lia. done.
  - change (byte_is "-" "-") with true. change (byte_is "-" "+") with false. simpl.
    unfold strconv.ParseUint.
    rewrite NilZero.usu by apply DecimalPos.Unsigned.to_uint_nonnil.
    change (N.of_uint (Pos.to_uint p)) with (Pos.of_uint (Pos.to_uint p)).
    rewrite DecimalPos.Unsigned.of_to. simpl Z.of_N.
    rewrite (proj2 (Z.ltb_ge _ _)) by lia. done.
Qed.

Lemma ParseInt_range lit z : strconv.ParseInt lit = Some z -> int64_range z.
Proof.
  unfold strconv.ParseInt, int64_range. destruct lit as [|c s]; [done|].
  destruct (strconv.ParseUint _) as [un|] eqn:E; [|done].
  assert (0 <= un) as Hun.
  { unfold strconv.ParseUint in E. destruct (NilZero.uint_of_string _); [|done].
    injection E as <-. lia. }
  destruct (byte_is c "-"); simpl.
  - destruct (Z.ltb_spec (2 ^ 63) un); [done|]. intros [= <-]. lia.
  - destruct (Z.leb_spec (2 ^ 63) un); [done|]. intros [= <-]. lia.
Qed.

End Numbers.

(** ** The parser: lengths and fuel *)

Section Lengths.

Lemma skipSpace_length s : (String.length (json.skipSpace s) <= String.length s)%nat.
Proof. induction s as [|c s IH]; simpl; [done|]. destruct (json.isSpace c); simpl; lia. Qed.

Lemma strip_prefix_length p s r :
  json.strip_prefix p s = Some r -> (String.length r <= String.length s)%nat.
Proof.
  revert s. induction p as [|a p IH]; intros [|b s]; simpl; try done.
  - by intros [= <-].
  - by intros [= <-].
  - destruct (byte_is a b); [|done]. intros H%IH. lia.
Qed.

Lemma string_body_length s : forall k acc t r,
  json.string_body s k acc = Some (t, r) -> (String.length r < String.length s)%nat.
Proof.
  induction s as [|c s IH]; intros k acc t r H; [done|].
  cbn [json.string_body] in H. destruct k as [|k]; [|apply IH in H; simpl; lia].
  repeat case_match; try done; simplify_eq; try (simpl; lia).
  all: match goal with H : json.string_body _ _ _ = Some _ |- _ => apply IH in H end.
  all: simpl in *; lia.
Qed.

Lemma scan_number_length s l r :
  json.scan_number s = Some (l, r) -> (String.length r < String.length s)%nat.
Proof.
  intros H. pose proof (scan_number_spec _ _ _ H) as ->. rewrite slength_app.
  enough (l <> "") by (destruct l; simpl; [done|lia]).
  unfold json.scan_number in H.
  destruct (json.scan_minus _) as [m s0]. destruct (json.scan_int s0) as [[i s1]|] eqn:Ei; [|done].
  destruct (json.scan_frac s1) as [[f s2]|]; [|done].
  destruct (json.scan_exp s2) as [[e s3]|]; [|done]. injection H as <- <-.
  destruct s0 as [|c s0]; [done|]. simpl in Ei.
  destruct (byte_is c "0"); [injection Ei as <- <-; by destruct m|].
  destruct (json.isDigit c); [|done]. destruct (json.digits s0).
  injection Ei as <- <-. by destruct m.
Qed.

End Lengths.

Ltac lengths IHv IHe IHm :=
  repeat match goal with
  | H : json.value _ _ _ = json.Done _ _ |- _ => apply IHv in H
  | H : json.elements _ _ _ = json.Done _ _ |- _ => apply IHe in H
  | H : json.members _ _ _ = json.Done _ _ |- _ => apply IHm in H
  | H : json.string_body _ _ _ = Some _ |- _ => apply string_body_length in H
  | H : json.scan_number _ = Some _ |- _ => apply scan_number_length in H
  | H : json.strip_prefix _ _ = Some _ |- _ => apply strip_prefix_length in H
  | H : json.skipSpace ?s = ?t |- _ =>
    assert (String.length t <= String.length s)%nat by (rewrite <- H; apply skipSpace_length);
    clear H
  end;
  repeat match goal with
  | H : context [json.skipSpace ?s] |- _ =>
    lazymatch goal with
    | _ : (String.length (json.skipSpace s) <= String.length s)%nat |- _ => fail
    | _ => pose proof (skipSpace_length s)
    end
  end.

Section Parser.

(** Reading a value consumes input. *)
Lemma value_length n :
  (forall d s v r, json.value n d s = json.Done v r -> (String.length r < String.length s)%nat)
  /\ (forall d s v r, json.elements n d s = json.Done v r ->
                      (String.length r < String.length s)%nat)
  /\ (forall d s v r, json.members n d s = json.Done v r ->
                      (String.length r < String.length s)%nat).
Proof.
  induction n as [|n (IHv & IHe & IHm)]; [done|].
  split; [|split]; intros d s v r H.
  - cbn [json.value] in H.
    repeat case_match; try done; simplify_eq; lengths IHv IHe IHm; simpl in *; lia.
  - cbn [json.elements] in H.
    repeat case_match; try done; simplify_eq; lengths IHv IHe IHm; simpl in *; lia.
  - cbn [json.members] in H.
    repeat case_match; try done; simplify_eq; lengths IHv IHe IHm; simpl in *; lia.
Qed.

Lemma value_length_v n d s v r :
  json.value n d s = json.Done v r -> (String.length r < String.length s)%nat.
Proof. apply value_length. Qed.
Lemma value_length_e n d s v r :
  json.elements n d s = json.Done v r -> (String.length r < String.length s)%nat.
Proof. apply value_length. Qed.
Lemma value_length_m n d s v r :
  json.members n d s = json.Done v r -> (String.length r < String.length s)%nat.
Proof. apply value_length. Qed.

(** The fuel [parse] starts with is never used up. *)
Lemma value_fuel n :
  (forall d s, (2 * String.length s < n)%nat -> json.value n d s <> json.Exhausted)
  /\ (forall d s, (2 * String.length s + 1 < n)%nat -> json.elements n d s <> json.Exhausted)
  /\ (forall d s, (2 * String.length s + 1 < n)%nat -> json.members n d s <> json.Exhausted).
Proof.
  induction n as [|n (IHv & IHe & IHm)]; [split; [|split]; intros; lia|].
  split; [|split]; intros d s Hn H.
  - cbn [json.value] in H. repeat case_match; try done; simplify_eq.
    all: match goal with
         | E : json.members _ _ _ = json.Exhausted |- _ => apply IHm in E; [done|]
         | E : json.elements _ _ _ = json.Exhausted |- _ => apply IHe in E; [done|]
         end.
    all: lengths value_length_v value_length_e value_length_m; simpl in *; lia.
  - cbn [json.elements] in H. repeat case_match; try done; simplify_eq.
    all: match goal with
         | E : json.value _ _ _ = json.Exhausted |- _ => apply IHv in E; [done|]
         | E : json.elements _ _ _ = json.Exhausted |- _ => apply IHe in E; [done|]
         end.
    all: lengths value_length_v value_length_e value_length_m; simpl in *; lia.
  - cbn [json.members] in H. repeat case_match; try done; simplify_eq.
    all: match goal with
         | E : json.value _ _ _ = json.Exhausted |- _ => apply IHv in E; [done|]
         | E : json.members _ _ _ = json.Exhausted |- _ => apply IHm in E; [done|]
         end.
    all: lengths value_length_v value_length_e value_length_m; simpl in *; lia.
Qed.

(** More fuel does not change a result. *)
Lemma value_more_fuel n :
  (forall d s x, json.value n d s = x -> x <> json.Exhausted -> json.value (S n) d s = x)
  /\ (forall d s x, json.elements n d s = x -> x <> json.Exhausted ->
                    json.elements (S n) d s = x)
  /\ (forall d s x, json.members n d s = x -> x <> json.Exhausted ->
                    json.members (S n) d s = x).
Proof.
  induction n as [|n (IHv & IHe & IHm)]; [split; [|split]; intros ??? <-; done|].
  split; [|split]; intros d s x H Hx.
  - cbn [json.value] in H. remember (S n) as m eqn:Em in |- *. cbn [json.value].
    repeat case_match; try done; simplify_eq;
    repeat match goal with
         | E : json.value n _ _ = _ |- _ => apply IHv in E; [|done]
         | E : json.elements n _ _ = _ |- _ => apply IHe in E; [|done]
         | E : json.members n _ _ = _ |- _ => apply IHm in E; [|done]
         end; congruence.
  - cbn [json.elements] in H. remember (S n) as m eqn:Em in |- *. cbn [json.elements].
    repeat case_match; try done; simplify_eq;
    repeat match goal with
         | E : json.value n _ _ = _ |- _ => apply IHv in E; [|done]
         | E : json.elements n _ _ = _ |- _ => apply IHe in E; [|done]
         | E : json.members n _ _ = _ |- _ => apply IHm in E; [|done]
         end; congruence.
  - cbn [json.members] in H. remember (S n) as m eqn:Em in |- *. cbn [json.members].
    repeat case_match; try done; simplify_eq;
    repeat match goal with
         | E : json.value n _ _ = _ |- _ => apply IHv in E; [|done]
         | E : json.elements n _ _ = _ |- _ => apply IHe in E; [|done]
         | E : json.members n _ _ = _ |- _ => apply IHm in E; [|done]
         end; congruence.
Qed.

Lemma value_fuel_le n m d s x :
  (n <= m)%nat -> json.value n d s = x -> x <> json.Exhausted -> json.value m d s = x.
Proof.
  induction 1 as [|m Hle IH]; [done|]. intros H Hx.
  apply value_more_fuel; [by apply IH|done].
Qed.

(** If some amount of fuel reads a value from [s], so does the amount
    [parse] starts with. *)
Lemma value_enough n d s v r :
  json.value n d s = json.Done v r ->
  json.value (S (2 * String.length s)) d s = json.Done v r.
Proof.
  intros H. destruct (Nat.le_gt_cases n (S (2 * String.length s))) as [Hle|Hgt].
  - by apply (value_fuel_le n).
  - destruct (json.value (S (2 * String.length s)) d s) as [v' r'| |] eqn:E.
    + apply (value_fuel_le _ n) in E; [congruence|lia|done].
    + apply (value_fuel_le _ n) in E; [congruence|lia|done].
    + exfalso. revert E. apply value_fuel. lia.
Qed.

End Parser.

(** ** Reading a text that is followed by a delimiter *)

Section Reads.

Lemma skipSpace_nospace c s : json.isSpace c = false -> json.skipSpace (String c s) = String c s.
Proof. intros H. cbn [json.skipSpace]. by rewrite H. Qed.

Lemma delimited_stop rest : delimited rest = true -> number_stop rest = true.
Proof.
  destruct rest as [|c rest]; [done|]. simpl.
  rewrite !orb_true_iff, !byte_is_eq. intros [[->| ->]| ->]; done.
Qed.

Lemma delimited_nospace rest : delimited rest = true -> json.skipSpace rest = rest.
Proof.
  destruct rest as [|c rest]; [done|]. simpl.
  rewrite !orb_true_iff, !byte_is_eq. intros [[->| ->]| ->]; done.
Qed.

Lemma reads_le n m d text v : (n <= m)%nat -> reads n d text v -> reads m d text v.
Proof. intros Hle H rest Hr. by apply (value_fuel_le n); [|apply H|]. Qed.

Lemma reads_string n d s :
  utf8.ValidString s = true -> reads (S n) d (json.appendString s) (json.Str s).
Proof.
  intros Hv rest _. pose proof (appendString_read s rest Hv) as H.
  unfold json.appendString, quoted in *. cbn [String.append drop_bytes] in *.
  cbn [json.value]. change (byte_is dquote "{") with false.
  change (byte_is dquote "[") with false. change (byte_is dquote dquote) with true.
  cbn iota. by rewrite H.
Qed.

Lemma valid_number_head lit :
  json.isValidNumber lit = true ->
  exists c s, lit = String c s /\ (byte_is c "-" = true \/ json.isDigit c = true).
Proof.
  unfold json.isValidNumber, json.scan_number. destruct lit as [|c s]; [done|].
  intros H. exists c, s. split; [done|]. simpl json.scan_minus in H.
  destruct (byte_is c "-"); [by left|]. right.
  simpl in H. destruct (byte_is c "0") eqn:E; [by apply byte_is_eq in E as ->|].
  by destruct (json.isDigit c).
Qed.

Lemma reads_number n d lit :
  json.isValidNumber lit = true -> reads (S n) d lit (json.Number lit).
Proof.
  intros Hv rest Hr. destruct (valid_number_head lit Hv) as (c & s & -> & Hc).
  pose proof (scan_number_valid (String c s) rest Hv (delimited_stop _ Hr)) as Hn.
  cbn [String.append json.value] in *.
  assert (byte_is c "{" = false /\ byte_is c "[" = false /\ byte_is c dquote = false
          /\ byte_is c "t" = false /\ byte_is c "f" = false /\ byte_is c "n" = false)
    as (H1 & H2 & H3 & H4 & H5 & H6).
  { destruct Hc as [Hc|Hc].
    - apply byte_is_eq in Hc as ->. done.
    - unfold json.isDigit, between in Hc. rewrite !byte_is_ord.
      change (ord "{") with 123. change (ord "[") with 91. change (ord dquote) with 34.
      change (ord "t") with 116. change (ord "f") with 102. change (ord "n") with 110.
      repeat split; lia. }
  by rewrite H1, H2, H3, H4, H5, H6, Hn.
Qed.

Lemma reads_bool n d b : reads (S n) d (marshalBool b) (json.Bool b).
Proof. intros rest _. by destruct b. Qed.

Lemma reads_null n d : reads (S n) d "null" json.Null.
Proof. by intros rest _. Qed.

(** A plain member name is read back as it is. *)
Lemma plain_read name : forall acc rest,
  plain name = true ->
  json.string_body (name +:+ String dquote rest) 0 acc = Some (acc +:+ name, rest).
Proof.
  induction name as [|c name IH]; intros acc rest Hp.
  - cbn [String.append json.string_body]. change (byte_is dquote dquote) with true.
    by rewrite sapp_nil_r.
  - simpl in Hp. apply andb_true_iff in Hp as [Hc Hp].
    pose proof (string_body_ascii c (name +:+ String dquote rest) acc) as H.
    rewrite Hc in H. cbn [String.append] in *. rewrite H.
    + rewrite IH by done. by rewrite sapp_assoc.
    + unfold json.htmlSafeSet, between in Hc. lia.
Qed.

(** A value is not read from input that starts with white space or with a
    closing bracket or brace. *)
Lemma value_start n d s v r :
  json.value n d s = json.Done v r ->
  exists c s', s = String c s' /\ json.isSpace c = false /\ byte_is c "]" = false
               /\ byte_is c "}" = false.
Proof.
  destruct n as [|n]; [done|]. cbn [json.value]. destruct s as [|c s]; [done|].
  intros H. exists c, s. split; [done|].
  assert (forall x, In x [" "; "009"; "010"; "013"; "]"; "}"]%char -> c = x -> False) as Hx.
  { intros x Hin ->. simpl in Hin.
    destruct Hin as [<-|[<-|[<-|[<-|[<-|[<-|[]]]]]]]; by vm_compute in H. }
  unfold json.isSpace.
  repeat split.
  2,3: apply not_true_is_false; intros E%byte_is_eq; eapply Hx; [|done]; simpl; tauto.
  apply not_true_is_false. rewrite !orb_true_iff, !byte_is_eq.
  intros [[[E|E]|E]|E]; (eapply Hx; [|done]); simpl; tauto.
Qed.

Lemma value_nospace n d s v r : json.value n d s = json.Done v r -> json.skipSpace s = s.
Proof.
  intros (c & s' & -> & Hc & _)%value_start. by apply skipSpace_nospace.
Qed.

End Reads.

(** ** Objects and arrays *)

Ltac eval_bytes :=
  repeat match goal with
  | |- context [byte_is ?a ?b] =>
    let x := eval vm_compute in (byte_is a b) in
    lazymatch x with
    | true => change (byte_is a b) with true
    | false => change (byte_is a b) with false
    end
  | |- context [json.isSpace ?a] =>
    let x := eval vm_compute in (json.isSpace a) in
    lazymatch x with
    | true => change (json.isSpace a) with true
    | false => change (json.isSpace a) with false
    end
  end; cbn [negb andb orb].

Ltac steps := repeat (progress (cbn [String.append json.skipSpace]; eval_bytes; cbn iota)).

Section Composite.

Lemma delimited_brace rest : delimited ("}" +:+ rest) = true.
Proof. done. Qed.
Lemma delimited_bracket rest : delimited ("]" +:+ rest) = true.
Proof. done. Qed.
Lemma delimited_comma rest : delimited ("," +:+ rest) = true.
Proof. done. Qed.

(** One member, up to the byte behind its value. *)
Lemma member_read n d name text v rest :
  plain name = true -> reads n d text v -> delimited rest = true ->
  exists X, member name text +:+ rest = String dquote X
    /\ json.string_body X 0 "" = Some (name, ":" +:+ text +:+ rest)
    /\ json.value n d (json.skipSpace (text +:+ rest)) = json.Done v rest.
Proof.
  intros Hp Hr Hd. unfold member, quoted. eexists. split.
  { cbn [String.append]. done. }
  split.
  - rewrite !sapp_assoc. cbn [String.append]. by rewrite plain_read.
  - rewrite (value_nospace n d _ v rest); by apply Hr.
Qed.

Lemma join_cons sep x l : l <> [] -> join sep (x :: l) = x +:+ sep +:+ join sep l.
Proof. by destruct l. Qed.

Lemma member_texts_head fs rest :
  fs <> [] -> exists X, join "," (member_texts fs) +:+ rest = String dquote X.
Proof.
  destruct fs as [|f fs]; [done|]. intros _.
  change (member_texts (f :: fs)) with (member f.1.1 f.1.2 :: member_texts fs).
  destruct (member_texts fs); cbn [join]; unfold member, quoted; rewrite ?sapp_assoc;
    cbn [String.append]; by eexists.
Qed.

Lemma members_fields n d fs rest :
  fs <> [] ->
  Forall (fun f : string * string * json.Value => plain f.1.1 = true /\ reads n d f.1.2 f.2) fs ->
  json.members (length fs + n) d (join "," (member_texts fs) +:+ "}" +:+ rest)
  = json.Done (member_values fs) rest.
Proof.
  induction fs as [|[[name text] v] fs IH]; [done|]. intros _ Hfs.
  apply Forall_cons in Hfs as [[Hp Hr] Hfs]. cbn [fst snd] in Hp, Hr.
  change (member_texts ((name, text, v) :: fs)) with (member name text :: member_texts fs).
  change (member_values ((name, text, v) :: fs)) with ((name, v) :: member_values fs).
  change (length ((name, text, v) :: fs) + n)%nat with (S (length fs + n)).
  destruct fs as [|f2 fs].
  - cbn [member_texts map join length Nat.add member_values].
    destruct (member_read n d name text v ("}" +:+ rest) Hp Hr (delimited_brace _))
      as (X & -> & Hk & Hv).
    cbn [json.members]. eval_bytes. cbn [negb].
    rewrite Hk. cbn [String.append json.skipSpace].
    eval_bytes. eval_bytes. cbn [negb].
    cbn [String.append] in Hv. rewrite Hv. done.
  - specialize (IH ltac:(done) Hfs).
    rewrite join_cons by done. rewrite !sapp_assoc.
    destruct (member_texts_head (f2 :: fs) ("}" +:+ rest)) as [T HT]; [done|].
    rewrite HT in *.
    assert (n <= length (f2 :: fs) + n)%nat as Hle by lia.
    remember (length (f2 :: fs) + n)%nat as k eqn:Ek. clear Ek.
    destruct (member_read k d name text v ("," +:+ String dquote T) Hp)
      as (X & -> & Hk & Hv); [by apply (reads_le n)|done|].
    cbn [json.members]. eval_bytes. cbn [negb].
    rewrite Hk. cbn [String.append json.skipSpace].
    eval_bytes. eval_bytes. cbn [negb].
    cbn [String.append] in Hv. rewrite Hv.
    cbn [json.skipSpace]. eval_bytes.
    eval_bytes. eval_bytes.
    eval_bytes. cbn iota. cbn [json.skipSpace]. eval_bytes. cbn iota.
    by rewrite IH.
Qed.

Lemma reads_object n d fs :
  fs <> [] -> d + 1 <= json.maxNestingDepth ->
  Forall (fun f : string * string * json.Value => plain f.1.1 = true /\ reads n (d + 1) f.1.2 f.2)
         fs ->
  reads (S (length fs + n)) d (object (member_texts fs)) (json.Object (member_values fs)).
Proof.
  intros Hne Hd Hfs rest Hr. unfold object. rewrite !sapp_assoc.
  pose proof (members_fields n (d + 1) fs rest Hne Hfs) as Hm.
  destruct (member_texts_head fs ("}" +:+ rest) Hne) as [X HX].
  rewrite HX in *. cbn [String.append json.value]. steps.
  rewrite (proj2 (Z.ltb_ge _ _)) by lia. steps. by rewrite Hm.
Qed.

Lemma elements_elems n d (es : list (string * json.Value)) rest :
  es <> [] -> Forall (fun e => reads n d e.1 e.2) es ->
  json.elements (length es + n) d (join "," (map fst es) +:+ "]" +:+ rest)
  = json.Done (map snd es) rest.
Proof.
  induction es as [|[text v] es IH]; [done|]. intros _ Hes.
  apply Forall_cons in Hes as [Hr Hes]. cbn [fst snd] in Hr.
  change (map fst ((text, v) :: es)) with (text :: map fst es).
  change (map snd ((text, v) :: es)) with (v :: map snd es).
  change (length ((text, v) :: es) + n)%nat with (S (length es + n)).
  destruct es as [|e2 es].
  - cbn [map join length Nat.add]. cbn [json.elements].
    rewrite (Hr _ (delimited_bracket rest)). cbn [String.append json.skipSpace].
    eval_bytes. eval_bytes. done.
  - specialize (IH ltac:(done) Hes).
    rewrite join_cons by done. rewrite !sapp_assoc.
    assert (json.skipSpace (join "," (map fst (e2 :: es)) +:+ "]" +:+ rest)
            = join "," (map fst (e2 :: es)) +:+ "]" +:+ rest) as Hs.
    { change (length (e2 :: es) + n)%nat with (S (length es + n)) in IH.
      cbn [json.elements] in IH.
      destruct (json.value _ _ _) as [v2 r2| |] eqn:E; try done.
      by apply value_nospace in E. }
    assert (n <= length (e2 :: es) + n)%nat as Hle by lia.
    remember (length (e2 :: es) + n)%nat as k eqn:Ek. clear Ek.
    remember (join "," (map fst (e2 :: es)) +:+ "]" +:+ rest) as T eqn:ET. clear ET.
    cbn [json.elements].
    rewrite (reads_le n k d _ _ Hle Hr _ (delimited_comma _)).
    cbn [String.append json.skipSpace]. eval_bytes.
    eval_bytes. eval_bytes. cbn iota.
    by rewrite Hs, IH.
Qed.

Lemma reads_array n d (es : list (string * json.Value)) :
  d + 1 <= json.maxNestingDepth -> Forall (fun e => reads n (d + 1) e.1 e.2) es ->
  reads (S (length es + n)) d ("[" +:+ join "," (map fst es) +:+ "]") (json.Array (map snd es)).
Proof.
  intros Hd Hes rest Hr. rewrite !sapp_assoc.
  destruct es as [|e es].
  { cbn [map join String.append json.value]. steps.
    rewrite (proj2 (Z.ltb_ge _ _)) by lia. by steps. }
  pose proof (elements_elems n (d + 1) (e :: es) rest ltac:(done) Hes) as He.
  assert (exists c X, join "," (map fst (e :: es)) +:+ "]" +:+ rest = String c X
                      /\ json.isSpace c = false /\ byte_is c "]" = false) as (c & X & HX & Hc & Hb).
  { change (length (e :: es) + n)%nat with (S (length es + n)) in He.
    cbn [json.elements] in He.
    destruct (json.value _ _ _) as [v2 r2| |] eqn:E; try done.
    apply value_start in E as (c & X & E & Hc & Hb & _). by exists c, X. }
  rewrite HX in *. remember (length (e :: es) + n)%nat as k eqn:Ek. clear Ek.
  cbn [String.append json.value]. steps.
  rewrite (proj2 (Z.ltb_ge _ _)) by lia. cbn [json.skipSpace]. rewrite Hc, Hb. by rewrite He.
Qed.

End Composite.

(** ** Requests: serialization followed by deserialization *)

Ltac eval_fields :=
  repeat match goal with
  | |- context [json.field_is ?a ?b] =>
    let x := eval vm_compute in (json.field_is a b) in
    lazymatch x with
    | true => change (json.field_is a b) with true
    | false => change (json.field_is a b) with false
    end
  end; cbn iota.

Section RequestRoundTrip.

Context `{Float64} `{!Float64Spec}.

Lemma omitempty_optField {A : Type} name (text : A -> option string) val (p : option A) :
  omitempty name text p = option_map member_texts (optField name text val p).
Proof. destruct p as [a|]; [|done]. simpl. by destruct (text a). Qed.

Lemma MarshalRequest_fields r :
  MarshalRequest r = option_map (fun fs => object (member_texts fs)) (requestFields r).
Proof.
  unfold MarshalRequest, requestFields.
  rewrite (omitempty_optField "temperature" _ (fun _ t => json.Number t)).
  rewrite (omitempty_optField "top_p" _ (fun _ t => json.Number t)).
  rewrite (omitempty_optField "max_tokens" _ (fun _ t => json.Number t)).
  rewrite (omitempty_optField "stream" _ (fun b _ => json.Bool b)).
  destruct (optField "temperature" _ _ _) as [t|], (optField "top_p" _ _ _) as [p|],
    (optField "max_tokens" _ _ _) as [m|], (optField "stream" _ _ _) as [s|]; try done.
  cbn [option_map]. unfold member_texts. by rewrite !map_app.
Qed.

Lemma reads_message n m :
  valid_message m = true -> reads (4 + n) 2 (marshalMessage m) (valueOfMessage m).
Proof.
  intros [Hr Hc]%andb_true_iff. unfold marshalMessage, valueOfMessage.
  apply (reads_object (S n) 2
           [("role", json.appendString (Role m), json.Str (Role m));
            ("content", json.appendString (Content m), json.Str (Content m))]);
    [done|unfold json.maxNestingDepth; lia|].
  apply Forall_cons_2; [split; [by vm_compute|by apply reads_string]|].
  apply Forall_cons_2; [split; [by vm_compute|by apply reads_string]|]. done.
Qed.

Lemma reads_messages n ms :
  forallb valid_message (default [] ms) = true ->
  reads (S (length (default [] ms) + (4 + n))) 1 (marshalSlice marshalMessage ms)
        (valueOfSlice valueOfMessage ms).
Proof.
  intros Hv. destruct ms as [l|]; [|apply reads_null].
  cbn [default marshalSlice valueOfSlice] in *.
  pose proof (reads_array (4 + n) 1
                (map (fun m => (marshalMessage m, valueOfMessage m)) l)) as Ha.
  rewrite !map_map, length_map in Ha. cbn [fst snd] in Ha.
  apply Ha; [unfold json.maxNestingDepth; lia|].
  apply Forall_map. apply Forall_forall. intros m Hm. cbn [fst snd].
  apply reads_message. rewrite forallb_forall in Hv. apply Hv.
  by apply list_elem_of_In.
Qed.

Lemma optField_reads {A : Type} n d name (text : A -> option string) val (p : option A) fs :
  plain name = true ->
  (forall a t, text a = Some t -> reads n d t (val a t)) ->
  optField name text val p = Some fs ->
  Forall (fun f : string * string * json.Value => plain f.1.1 = true /\ reads n d f.1.2 f.2) fs.
Proof.
  intros Hp Hr. destruct p as [a|]; simpl; [|by intros [= <-]].
  destruct (text a) as [t|] eqn:E; [|done]. intros [= <-].
  repeat constructor; cbn [fst snd]; [done|]. by apply Hr.
Qed.

(** The text of a request is read as the object of its members. *)
Lemma parse_MarshalRequest r fs :
  valid_strings r = true -> requestFields r = Some fs ->
  json.parse (object (member_texts fs)) = json.Done (json.Object (member_values fs)) "".
Proof.
  intros [Hm Hms]%andb_true_iff Hfs. unfold requestFields in Hfs.
  destruct (optField "temperature" _ _ _) as [t|] eqn:Et; [|done].
  destruct (optField "max_tokens" _ _ _) as [m|] eqn:Em; [|done].
  destruct (optField "top_p" _ _ _) as [p|] eqn:Ep; [|done].
  destruct (optField "stream" _ _ _) as [s|] eqn:Es; [|done].
  injection Hfs as <-.
  set (k := (S (length (default [] (Messages r)) + 4))%nat).
  match goal with |- context [member_texts ?l] => set (fs := l) end.
  assert (reads (S (length fs + k)) 0 (object (member_texts fs))
                (json.Object (member_values fs))) as Hr.
  { subst fs k. apply reads_object; [done|unfold json.maxNestingDepth; lia|].
    change (0 + 1) with 1.
    apply Forall_cons_2; [split; [by vm_compute|by apply reads_string]|].
    apply Forall_cons_2; [split; [by vm_compute|by apply (reads_messages 0)]|].
    apply Forall_app_2; [|apply Forall_app_2; [|apply Forall_app_2]].
    - eapply (optField_reads _ _ "temperature"); [by vm_compute| |exact Et]. intros f lit Hf.
      apply (reads_le 1); [lia|]. apply reads_number. by eapply encodeFloat_valid.
    - eapply (optField_reads _ _ "max_tokens"); [by vm_compute| |exact Em]. intros z lit [= <-].
      apply (reads_le 1); [lia|]. apply reads_number, FormatInt_valid.
    - eapply (optField_reads _ _ "top_p"); [by vm_compute| |exact Ep]. intros f lit Hf.
      apply (reads_le 1); [lia|]. apply reads_number. by eapply encodeFloat_valid.
    - eapply (optField_reads _ _ "stream"); [by vm_compute| |exact Es]. intros b lit [= <-].
      apply (reads_le 1); [lia|]. apply reads_bool. }
  specialize (Hr "" eq_refl). rewrite sapp_nil_r in Hr.
  unfold json.parse. apply value_nospace in Hr as Hs. rewrite Hs.
  by rewrite (value_enough _ _ _ _ _ Hr).
Qed.

Lemma readMessage_value m : readMessage (valueOfMessage m) zeroMessage = Some m.
Proof.
  destruct m as [role content]. unfold readMessage, valueOfMessage, json.readStruct.
  cbn [json.readMembers]. unfold readMessageField. eval_fields. done.
Qed.

Lemma readElems_messages l :
  json.readElems zeroMessage readMessage (map valueOfMessage l) [] = Some l.
Proof.
  induction l as [|m l IH]; [done|]. cbn [map json.readElems hd tl].
  by rewrite readMessage_value, IH.
Qed.

Lemma readSlice_messages ms :
  json.readSlice zeroMessage readMessage (valueOfSlice valueOfMessage ms) (None, [])
  = Some (ms, default [] ms).
Proof.
  destruct ms as [[|m l]|]; [done| |done].
  cbn [valueOfSlice map json.readSlice snd].
  change (valueOfMessage m :: map valueOfMessage l) with (map valueOfMessage (m :: l)).
  rewrite readElems_messages. rewrite drop_nil, app_nil_r. done.
Qed.

#[local] Opaque strconv.FormatInt strconv.ParseInt json.appendString.

(** The members of a request are read back as the request. *)
Lemma readRequest_fields r fs :
  int_fields_in_range r -> requestFields r = Some fs ->
  readRequest (json.Object (member_values fs)) (zeroRequest, [])
  = Some (r, default [] (Messages r)).
Proof.
  destruct r as [model msgs temp maxtok topp stream].
  unfold int_fields_in_range, requestFields, optField. cbn [Model Messages Temperature MaxTokens TopP Stream].
  intros Hz Hfs.
  destruct temp as [temp|], maxtok as [maxtok|], topp as [topp|], stream as [stream|].
  all: repeat match type of Hfs with
       | context [encodeFloat ?f] => destruct (encodeFloat f) eqn:?
       end; try done.
  all: injection Hfs as <-.
  all: unfold readRequest, json.readStruct.
  all: cbn [member_values map fst snd app json.readMembers].
  all: unfold readRequestField; eval_fields.
  all: cbn [json.readString Model Messages Temperature MaxTokens TopP Stream].
  all: rewrite readSlice_messages.
  all: cbn [json.readPtr json.readFloat json.readInt json.readBool default
            Model Messages Temperature MaxTokens TopP Stream].
  all: repeat match goal with
       | E : encodeFloat ?f = Some ?t |- context [ParseFloat ?t] =>
         rewrite (ParseFloat_encodeFloat f t E)
       end.
  all: rewrite ?ParseInt_FormatInt by done.
  all: done.
Qed.

(** Writing a request and reading the text gives the request back. *)
Lemma Unmarshal_Marshal r text :
  valid_strings r = true -> int_fields_in_range r ->
  MarshalRequest r = Some text -> UnmarshalRequest text = inl r.
Proof.
  intros Hv Hz Hm. rewrite MarshalRequest_fields in Hm.
  destruct (requestFields r) as [fs|] eqn:Hfs; [|done]. injection Hm as <-.
  unfold UnmarshalRequest, Unmarshal.
  rewrite (parse_MarshalRequest r fs Hv Hfs).
  by rewrite (readRequest_fields r fs Hz Hfs).
Qed.

End RequestRoundTrip.

(** ** Requests: what holds of every request that was read *)

Section ReadInvariant.

Context `{Float64} `{!Float64Spec}.

(** The values the parser builds hold valid UTF-8 only. *)
Lemma value_valid n :
  (forall d s v r, json.value n d s = json.Done v r -> valid_value v = true)
  /\ (forall d s vs r, json.elements n d s = json.Done vs r -> forallb valid_value vs = true)
  /\ (forall d s ms r, json.members n d s = json.Done ms r ->
                       forallb (fun kv => valid_value kv.2) ms = true).
Proof.
  induction n as [|n (IHv & IHe & IHm)]; [done|].
  split; [|split]; intros d s v r Hd.
  - cbn [json.value] in Hd. repeat case_match; try done; simplify_eq; cbn [valid_value]; try done.
    + by eapply IHm.
    + by eapply IHe.
    + by eapply string_body_valid.
  - cbn [json.elements] in Hd. repeat case_match; try done; simplify_eq; cbn [forallb].
    + rewrite andb_true_r. by eapply IHv.
    + apply andb_true_iff. split; [by eapply IHv|by eapply IHe].
  - cbn [json.members] in Hd. repeat case_match; try done; simplify_eq; cbn [forallb snd].
    + rewrite andb_true_r. by eapply IHv.
    + apply andb_true_iff. split; [by eapply IHv|by eapply IHm].
Qed.

Lemma parse_valid data v r : json.parse data = json.Done v r -> valid_value v = true.
Proof.
  unfold json.parse. destruct (json.value _ _ _) as [v' r'| |] eqn:E; [|done..].
  destruct (json.skipSpace r'); [|done]. intros [= <- <-]. by eapply value_valid.
Qed.









End ReadInvariant.

(** ** Fields without a member in the body *)

Section Absent.

Context `{Float64}.

Lemma readMembers_absent ms : forall st st',
  json.readMembers readRequestField ms st = Some st' ->
  (absent "model" ms = true -> Model st'.1 = Model st.1)
  /\ (absent "temperature" ms = true -> Temperature st'.1 = Temperature st.1)
  /\ (absent "max_tokens" ms = true -> MaxTokens st'.1 = MaxTokens st.1)
  /\ (absent "top_p" ms = true -> TopP st'.1 = TopP st.1)
  /\ (absent "stream" ms = true -> Stream st'.1 = Stream st.1).
Proof.
  induction ms as [|[key j] ms IH]; intros st st' Hr.
  { by injection Hr as <-. }
  cbn [json.readMembers] in Hr.
  destruct (readRequestField key j st) as [st1|] eqn:E; [|done].
  destruct (IH _ _ Hr) as (I1 & I2 & I3 & I4 & I5).
  unfold absent in *. cbn [forallb fst] in *.
  destruct st as [r b]. unfold readRequestField in E.
  repeat match type of E with
  | context [json.field_is ?name key] => destruct (json.field_is name key) eqn:?
  end.
  all: repeat case_match; simplify_eq; cbn [fst snd] in *.
  all: cbn [Model Messages Temperature MaxTokens TopP Stream].
  all: repeat split; intros [Hk Ha]%andb_true_iff; try done;
       first [ by apply I1 | by apply I2 | by apply I3 | by apply I4 | by apply I5 ].
Qed.

(** A field no member of the body names keeps its zero value: an optional
    field that is absent on the wire is absent in the request. *)
Lemma Unmarshal_absent body ms req :
  json.parse body = json.Done (json.Object ms) "" -> UnmarshalRequest body = inl req ->
  (absent "model" ms = true -> Model req = "")
  /\ (absent "temperature" ms = true -> Temperature req = None)
  /\ (absent "max_tokens" ms = true -> MaxTokens req = None)
  /\ (absent "top_p" ms = true -> TopP req = None)
  /\ (absent "stream" ms = true -> Stream req = None).
Proof.
  unfold UnmarshalRequest, Unmarshal. intros ->. unfold readRequest, json.readStruct.
  destruct (json.readMembers _ _ _) as [[r b]|] eqn:E; [|done]. intros [= <-].
  by apply readMembers_absent in E.
Qed.

End Absent.

(** ** The handler *)

Section Http.

(** What [http.Error] leaves in a writer nothing was written to. *)
Lemma Error_fresh failure text code :
  let w := http.Error (http.NewResponseWriter failure) text code in
  http.status w = Some code /\ http.written w = text +:+ newline
  /\ http.sent_header "Content-Type" w = "text/plain; charset=utf-8".
Proof. done. Qed.

(** After the first [Write] the status is fixed. *)
Lemma Error_sent w text code :
  http.sent w <> None -> 
  http.status (http.Error w text code) = http.status w
  /\ http.written (http.Error w text code) = http.written w +:+ text +:+ newline.
Proof.
  intros Hs. destruct w as [h [[c hs]|] wr f]; [|done]. split; [done|].
  done.
Qed.

End Http.

Section Handler.

Context `{Float64} `{JSONErrors} {C : Type} `{!OpenAIClient C}.

Variable s : ProxyServer C.
Variable failure : option error.

Lemma handle_rejected r body req text :
  http.Method r = http.MethodPost -> http.Body r = inl body ->
  UnmarshalRequest body = inl req ->
  (Model req = "" /\ text = "Model field is required"
   \/ Model req <> "" /\ len (Messages req) = 0%nat
      /\ text = "Messages field is required and cannot be empty") ->
  handleChatCompletions s (http.NewResponseWriter failure) r
  = (http.Error (http.NewResponseWriter failure) text http.StatusBadRequest, [ReadBody]).
Proof.
  intros Hm Hb Hu Hc. unfold handleChatCompletions. rewrite Hm, Hb, Hu. cbn [negb].
  change (String.eqb http.MethodPost http.MethodPost) with true. cbn iota.
  destruct Hc as [[-> ->]|(Hn & Hl & ->)].
  - done.
  - apply String.eqb_neq in Hn. rewrite Hn, Hl. done.
Qed.

Lemma handle_forwarded r body req :
  http.Method r = http.MethodPost -> http.Body r = inl body ->
  UnmarshalRequest body = inl req -> valid_request req ->
  handleChatCompletions s (http.NewResponseWriter failure) r
  = let '((resp, err), evs) := CreateChatCompletion (client s) req in
    match err with
    | Some e =>
      (http.Error (http.NewResponseWriter failure) ("OpenAI API error: " +:+ Error e)
                  http.StatusInternalServerError,
       [ReadBody; Call req] ++ evs ++ [Log ("OpenAI API error: " +:+ Error e)])
    | None =>
      let w1 := http.SetHeader "Content-Type" "application/json"
                  (http.NewResponseWriter failure) in
      match Encode w1 resp with
      | (w2, Some e) =>
        (http.Error w2 "Failed to encode response" http.StatusInternalServerError,
         [ReadBody; Call req] ++ evs ++ [Log ("Failed to encode response: " +:+ Error e)])
      | (w2, None) => (w2, [ReadBody; Call req] ++ evs)
      end
    end.
Proof.
  intros Hm Hb Hu [Hn Hl]. unfold handleChatCompletions. rewrite Hm, Hb, Hu.
  change (String.eqb http.MethodPost http.MethodPost) with true. cbn [negb].
  apply String.eqb_neq in Hn. rewrite Hn.
  destruct (len (Messages req)) eqn:E; [done|]. done.
Qed.

(** C8: a request whose method is not POST is answered with status 405
    and the text [Method not allowed]; nothing else happens: the body is not
    read and the client is not called. *)
Theorem method_not_allowed r :
  http.Method r <> http.MethodPost ->
  let out := handleChatCompletions s (http.NewResponseWriter failure) r in
  http.status out.1 = Some http.StatusMethodNotAllowed
  /\ http.written out.1 = "Method not allowed" +:+ newline
  /\ out.2 = [].
Proof.
  intros Hm%String.eqb_neq. unfold handleChatCompletions. rewrite Hm. done.
Qed.

(** C9: a POST request whose body is not well-formed JSON is answered
    with status 400 and the client is not called. *)
Theorem malformed_json_rejected r body :
  http.Method r = http.MethodPost -> http.Body r = inl body -> Valid body = false ->
  let out := handleChatCompletions s (http.NewResponseWriter failure) r in
  http.status out.1 = Some http.StatusBadRequest
  /\ http.written out.1 = "Invalid JSON in request body" +:+ newline
  /\ calls out.2 = [] /\ sends out.2 = [].
Proof.
  intros Hm Hb Hv. unfold handleChatCompletions. rewrite Hm, Hb.
  change (String.eqb http.MethodPost http.MethodPost) with true. cbn [negb].
  unfold UnmarshalRequest, Unmarshal. unfold Valid in Hv.
  destruct (json.parse body); done.
Qed.

(** C1: a POST request whose body parses as a request with an empty model
    or without messages is answered with status 400 and a text that names
    the field, and [CreateChatCompletion] is not called. *)
Theorem missing_field_rejected r body req :
  http.Method r = http.MethodPost -> http.Body r = inl body ->
  UnmarshalRequest body = inl req ->
  Model req = "" \/ len (Messages req) = 0%nat ->
  let out := handleChatCompletions s (http.NewResponseWriter failure) r in
  http.status out.1 = Some http.StatusBadRequest
  /\ http.written out.1
     = (if String.eqb (Model req) "" then "Model field is required"
        else "Messages field is required and cannot be empty") +:+ newline
  /\ calls out.2 = [] /\ sends out.2 = [].
Proof.
  intros Hm Hb Hu Hc. cbv zeta.
  rewrite (handle_rejected r body req
             (if String.eqb (Model req) "" then "Model field is required"
              else "Messages field is required and cannot be empty") Hm Hb Hu).
  - done.
  - destruct (String.eqb_spec (Model req) "") as [E|E]; [by left|]. right.
    destruct Hc; done.
Qed.

(** C5: when the client returns an error for a valid request, the answer
    has status 500 and its text holds the message of the error. *)
Theorem upstream_error_surfaced r body req resp e evs :
  http.Method r = http.MethodPost -> http.Body r = inl body ->
  UnmarshalRequest body = inl req -> valid_request req ->
  CreateChatCompletion (client s) req = ((resp, Some e), evs) ->
  let out := handleChatCompletions s (http.NewResponseWriter failure) r in
  http.status out.1 = Some http.StatusInternalServerError
  /\ http.written out.1 = "OpenAI API error: " +:+ Error e +:+ newline.
Proof.
  intros Hm Hb Hu Hv Hc. cbv zeta. rewrite (handle_forwarded r body req Hm Hb Hu Hv), Hc.
  split; [done|]. cbn [fst]. unfold http.Error, http.Write. cbn [http.written fst].
  by rewrite sapp_assoc.
Qed.


(** A failing connection: when the write of the serialized response fails, the
    status 200 has gone out already, and the status 500 the handler asks
    for afterwards has no effect. *)
Lemma write_failure_after_header r body req resp evs e :
  http.Method r = http.MethodPost -> http.Body r = inl body ->
  UnmarshalRequest body = inl req -> valid_request req ->
  CreateChatCompletion (client s) req = ((resp, None), evs) ->
  failure = Some e ->
  let out := handleChatCompletions s (http.NewResponseWriter failure) r in
  http.status out.1 = Some http.StatusOK
  /\ http.sent_header "Content-Type" out.1 = "application/json"
  /\ http.written out.1
     = MarshalResponse resp +:+ newline +:+ "Failed to encode response" +:+ newline.
Proof.
  intros Hm Hb Hu Hv Hc Hf. cbv zeta. rewrite (handle_forwarded r body req Hm Hb Hu Hv), Hc.
  rewrite Hf. cbv zeta. unfold Encode, http.Write. cbn [http.failure http.WriteHeader http.SetHeader
    http.NewResponseWriter http.sent http.header http.written].
  split; [|split]; [done|done|].
  cbn [fst]. unfold http.Error, http.Write. cbn [http.written fst http.WriteHeader
    http.SetHeader http.DelHeader http.sent http.header http.failure].
  by rewrite !sapp_assoc.
Qed.

End Handler.

(** ** The client, the forwarded payload and the reading of bodies *)

(** The scanner never runs out of fuel: an input [parse] does not accept
    is not JSON. *)
Lemma parse_total data : json.parse data <> json.Exhausted.
Proof.
  unfold json.parse. intros E.
  destruct (json.value _ _ _) as [v r| |] eqn:Ev.
  - by destruct (json.skipSpace r).
  - done.
  - by apply (proj1 (value_fuel _)) in Ev; [|lia].
Qed.

Lemma Valid_false data : Valid data = false -> UnmarshalRequest data = inr (SyntaxError data).
Proof.
  unfold Valid, UnmarshalRequest, Unmarshal. by destruct (json.parse data).
Qed.

(** The four floats obey the contract. *)
#[export] Instance sample_Float64Spec : Float64Spec (H := sample_Float64).
Proof.
  split.
  - intros [] lit Hf; cbn in Hf; simplify_eq; by vm_compute.
  - intros [] lit Hf; cbn in Hf; simplify_eq; by vm_compute.
  - intros lit f Hf. cbn in Hf. repeat case_match; simplify_eq; by eexists.
Qed.

Section Client.

Context `{Float64} `{JSONErrors} `{Network}.

(** C2: when the reply of the provider has a status other than 200, the
    client returns an error and no response; the text of the error is the
    message of the provider when the body of the reply parses as an
    [ErrorResponse], and the status code and the body otherwise.  When the
    status is 200 and the body does not parse as a
    [ChatCompletionResponse], the client returns the error of the parse,
    and no response. *)
Theorem upstream_reply_errors (c : RealOpenAIClient) (req : ChatCompletionRequest)
    (httpReq : http.Request) (resp : http.Response) (body : string) :
  buildRequest c req = inl httpReq -> Do httpReq = inl resp ->
  http.resp_Body resp = inl body ->
  let result := (RealOpenAIClient_CreateChatCompletion c req).1 in
  (http.StatusCode resp <> http.StatusOK ->
   exists e, result = (None, Some e)
     /\ Error e = match UnmarshalErrorResponse body with
                  | inl errorResp => "API error: " +:+ err_Message (resp_Error errorResp)
                  | inr _ => "API error (status " +:+ strconv.FormatInt (http.StatusCode resp)
                             +:+ "): " +:+ body
                  end)
  /\ (http.StatusCode resp = http.StatusOK ->
      forall err, UnmarshalResponse body = inr err ->
      result = (None, Some (wrapError "failed to unmarshal response: " err))).
Proof.
  intros Hb Hd Hr. unfold RealOpenAIClient_CreateChatCompletion. rewrite Hb, Hd.
  cbn [fst]. unfold readReply. rewrite Hr. split.
  - intros Hs%Z.eqb_neq. rewrite Hs. cbn [negb].
    destruct (UnmarshalErrorResponse body); by eexists.
  - intros Hs%Z.eqb_eq err He. by rewrite Hs, He.
Qed.

End Client.

Section Forwarding.

Context `{Float64} `{!Float64Spec} `{JSONErrors} `{Network}.


(** C7 (as the code has it): a request whose strings are valid UTF-8 and
    whose integer fits Go's [int], once serialized, deserializes to itself,
    whichever optional fields are set; and an optional field that no member
    of a body names is absent in the request read from it. *)
Theorem request_round_trip :
  (forall r text,
     valid_strings r = true -> int_fields_in_range r ->
     MarshalRequest r = Some text -> UnmarshalRequest text = inl r)
  /\ (forall body ms req,
        json.parse body = json.Done (json.Object ms) "" ->
        UnmarshalRequest body = inl req ->
        (absent "temperature" ms = true -> Temperature req = None)
        /\ (absent "max_tokens" ms = true -> MaxTokens req = None)
        /\ (absent "top_p" ms = true -> TopP req = None)
        /\ (absent "stream" ms = true -> Stream req = None)).
Proof.
  split.
  - apply Unmarshal_Marshal.
  - intros body ms req Hp Hu. by destruct (Unmarshal_absent body ms req Hp Hu) as (_ & ?).
Qed.

End Forwarding.

Section Classification.

Context `{Float64} `{JSONErrors} {C : Type} `{!OpenAIClient C}.


End Classification.

(** ** The handler: what holds of every run *)

Section HandlerInvariants.

Context `{Float64} `{JSONErrors} {C : Type} `{!OpenAIClient C}.

Variable s : ProxyServer C.
Variable failure : option error.

(** X1: whatever the request and whatever the client does, the handler
    sends exactly one status line, and the status is 200, 400, 405 or 500.
    A reply with status 200 has the content type [application/json];
    every other reply is plain text and carries [nosniff]. *)
Theorem reply_status_and_content_type r :
  let out := handleChatCompletions s (http.NewResponseWriter failure) r in
  exists code,
    http.status out.1 = Some code
    /\ (code = 200 \/ code = 400 \/ code = 405 \/ code = 500)
    /\ http.sent_header "Content-Type" out.1
       = (if code =? 200 then "application/json" else "text/plain; charset=utf-8")
    /\ (code <> 200 -> http.sent_header "X-Content-Type-Options" out.1 = "nosniff").
Proof.
  cbv zeta. unfold handleChatCompletions.
  destruct (String.eqb (http.Method r) http.MethodPost); cbn [negb];
    [|exists 405; repeat split; auto].
  destruct (http.Body r) as [body|e]; [|exists 400; repeat split; auto].
  destruct (UnmarshalRequest body) as [req|e]; [|exists 400; repeat split; auto].
  destruct (String.eqb (Model req) ""); [exists 400; repeat split; auto|].
  destruct (len (Messages req) =? 0)%nat; [exists 400; repeat split; auto|].
  destruct (CreateChatCompletion (client s) req) as [[resp [e|]] evs];
    [exists 500; repeat split; auto|].
  unfold Encode, http.Write.
  cbn [http.failure http.WriteHeader http.SetHeader http.NewResponseWriter http.sent
       http.header http.written].
  destruct failure as [e|]; exists 200; repeat split; auto; done.
Qed.

(** X2: the handler calls the client at most once, after it has read the
    body, and only with the request the body was parsed into, which has a
    model and at least one message; after the call it logs at most one
    line.  In every other case the events are the read of the body at
    most. *)
Theorem client_called_once_with_valid_request r :
  let out := handleChatCompletions s (http.NewResponseWriter failure) r in
  (out.2 = [] /\ http.Method r <> http.MethodPost)
  \/ (out.2 = [ReadBody] /\ http.status out.1 = Some http.StatusBadRequest)
  \/ (exists body req tail,
        http.Method r = http.MethodPost /\ http.Body r = inl body
        /\ UnmarshalRequest body = inl req /\ valid_request req
        /\ out.2 = [ReadBody; Call req] ++ (CreateChatCompletion (client s) req).2 ++ tail
        /\ (tail = [] \/ exists text, tail = [Log text])).
Proof.
  cbv zeta. destruct (String.eqb_spec (http.Method r) http.MethodPost) as [Hm|Hm].
  2:{ left. apply String.eqb_neq in Hm as Hm'. unfold handleChatCompletions.
      by rewrite Hm'. }
  right. destruct (http.Body r) as [body|e] eqn:Hb.
  2:{ left. unfold handleChatCompletions. by rewrite Hm, Hb. }
  destruct (UnmarshalRequest body) as [req|e] eqn:Hu.
  2:{ left. unfold handleChatCompletions. by rewrite Hm, Hb, Hu. }
  destruct (String.eqb_spec (Model req) "") as [Hmod|Hmod].
  { left. by rewrite (handle_rejected s failure r body req "Model field is required" Hm Hb Hu);
      [|left]. }
  destruct (len (Messages req)) as [|n] eqn:Hl.
  { left. by rewrite (handle_rejected s failure r body req
                        "Messages field is required and cannot be empty" Hm Hb Hu); [|right]. }
  right. exists body, req.
  assert (valid_request req) as Hv by (unfold valid_request; rewrite Hl; split; [done|lia]).
  rewrite (handle_forwarded s failure r body req Hm Hb Hu Hv).
  destruct (CreateChatCompletion (client s) req) as [[resp [e|]] evs]; cbn [snd fst].
  { exists [Log ("OpenAI API error: " +:+ Error e)].
    split; [done|]. split; [done|]. split; [done|]. split; [done|]. split; [done|].
    right. by eexists. }
  destruct (Encode _ resp) as [w2 [e|]]; cbn [snd].
  - exists [Log ("Failed to encode response: " +:+ Error e)].
    split; [done|]. split; [done|]. split; [done|]. split; [done|]. split; [done|].
    right. by eexists.
  - exists []. rewrite app_nil_r.
    split; [done|]. split; [done|]. split; [done|]. split; [done|]. split; [done|]. by left.
Qed.

(** X3: when the body of a POST request cannot be read, the reply has
    status 400 and the text [Failed to read request body]; nothing is
    parsed and the client is not called. *)
Theorem unreadable_body_rejected r e :
  http.Method r = http.MethodPost -> http.Body r = inr e ->
  let out := handleChatCompletions s (http.NewResponseWriter failure) r in
  http.status out.1 = Some http.StatusBadRequest
  /\ http.written out.1 = "Failed to read request body" +:+ newline
  /\ out.2 = [ReadBody].
Proof.
  intros Hm Hb. cbv zeta. unfold handleChatCompletions. rewrite Hm, Hb.
  change (String.eqb http.MethodPost http.MethodPost) with true. cbn [negb].
  by destruct (Error_fresh failure "Failed to read request body" http.StatusBadRequest)
    as (? & ? & _).
Qed.

(** X4: the handler does not look at the response when the client
    returns no error: a client that returns neither a response nor an
    error (the test double with [shouldError] set and no error) gets the
    reply 200 with the JSON text [null]. *)
Theorem nil_response_written_as_null r body req evs :
  http.Method r = http.MethodPost -> http.Body r = inl body ->
  UnmarshalRequest body = inl req -> valid_request req ->
  CreateChatCompletion (client s) req = ((None, None), evs) ->
  let out := handleChatCompletions s (http.NewResponseWriter failure) r in
  http.status out.1 = Some http.StatusOK
  /\ http.sent_header "Content-Type" out.1 = "application/json"
  /\ (failure = None -> http.written out.1 = "null" +:+ newline).
Proof.
  intros Hm Hb Hu Hv Hc. cbv zeta. rewrite (handle_forwarded s failure r body req Hm Hb Hu Hv), Hc.
  cbv zeta. unfold Encode, http.Write. cbn [http.failure http.WriteHeader http.SetHeader
    http.NewResponseWriter http.sent http.header http.written].
  destruct failure as [e|]; [|done].
  split; [|split]; [| |done].
  - by apply Error_sent.
  - done.
Qed.

End HandlerInvariants.

(** ** The health endpoint, and the client on the network *)

Section Health.

(** X5: the health endpoint answers every request in the same way,
    whatever its method, its headers and its body: status 200, the content
    type [application/json] and the one-member object that says
    [healthy], followed by a line end.  The text is the JSON object with
    the member [status]. *)
Theorem health_always_healthy (failure : option error) (r : http.Request) :
  let w := handleHealth (http.NewResponseWriter failure) r in
  http.status w = Some http.StatusOK
  /\ http.sent_header "Content-Type" w = "application/json"
  /\ http.written w = jq "{'status':'healthy'}" +:+ newline
  /\ json.parse (jq "{'status':'healthy'}")
     = json.Done (json.Object [("status", json.Str "healthy")]) "".
Proof.
  cbv zeta. unfold handleHealth, http.Write.
  cbn [http.WriteHeader http.SetHeader http.NewResponseWriter http.sent http.header
       http.written http.failure fst].
  split; [done|]. split; [done|]. split; by vm_compute.
Qed.

End Health.

Section RealClient.

Context `{Float64} `{JSONErrors} `{Network}.

(** The HTTP request the client sends for [payload]. *)
Lemma buildRequest_shape (c : RealOpenAIClient) req httpReq :
  buildRequest c req = inl httpReq ->
  exists payload,
    MarshalRequest req = Some payload
    /\ parseURL (BaseURL c +:+ "/chat/completions") = None
    /\ httpReq = http.mkRequest http.MethodPost (BaseURL c +:+ "/chat/completions")
                   (<["Authorization" := ["Bearer " +:+ APIKey c]]>
                      (<["Content-Type" := ["application/json"]]> ∅))
                   (inl payload).
Proof.
  unfold buildRequest, NewRequest. destruct (MarshalRequest req) as [payload|]; [|done].
  destruct (parseURL _) as [e|]; [done|]. intros [= <-]. by exists payload.
Qed.

(** X6: the client talks to the network at most once per call.  It sends
    nothing when the request cannot be serialized or the URL is refused,
    and returns an error then; otherwise it sends one POST to the
    chat-completion endpoint, whose payload is the serialized request and
    whose headers are the content type and the bearer token. *)
Theorem client_sends_at_most_one_request (c : RealOpenAIClient) (req : ChatCompletionRequest) :
  let out := RealOpenAIClient_CreateChatCompletion c req in
  match MarshalRequest req, parseURL (BaseURL c +:+ "/chat/completions") with
  | Some payload, None =>
    out.2 = [Send (http.mkRequest http.MethodPost (BaseURL c +:+ "/chat/completions")
                     (<["Authorization" := ["Bearer " +:+ APIKey c]]>
                        (<["Content-Type" := ["application/json"]]> ∅))
                     (inl payload))]
  | None, _ =>
    out = ((None, Some (wrapError "failed to marshal request: " UnsupportedValueError)), [])
  | Some _, Some e =>
    out = ((None, Some (wrapError "failed to create request: " e)), [])
  end.
Proof.
  cbv zeta. unfold RealOpenAIClient_CreateChatCompletion, buildRequest, NewRequest.
  destruct (MarshalRequest req) as [payload|]; [|done].
  destruct (parseURL _) as [e|]; [done|].
  cbn [http.Header http.Method http.URL http.Body].
  by destruct (Do _).
Qed.

(** X7: the client returns either a response or an error, never both and
    never neither; it returns a response exactly when the request was
    sent, the reply has status 200, its body could be read, and the body
    parses as a [ChatCompletionResponse], and the response is the parsed
    body. *)
Theorem client_response_xor_error (c : RealOpenAIClient) (req : ChatCompletionRequest) :
  let result := (RealOpenAIClient_CreateChatCompletion c req).1 in
  ((exists resp, result = (Some resp, None)) \/ (exists e, result = (None, Some e)))
  /\ (forall resp,
        result = (Some resp, None)
        <-> exists httpReq reply body,
              buildRequest c req = inl httpReq /\ Do httpReq = inl reply
              /\ http.StatusCode reply = http.StatusOK
              /\ http.resp_Body reply = inl body
              /\ UnmarshalResponse body = inl resp).
Proof.
  cbv zeta. unfold RealOpenAIClient_CreateChatCompletion.
  destruct (buildRequest c req) as [httpReq|e] eqn:Hb.
  2:{ split; [right; by eexists|]. intros resp. split; [done|]. by intros (? & ? & ? & ? & _). }
  destruct (Do httpReq) as [reply|e] eqn:Hd; cbn [fst].
  2:{ split; [right; by eexists|]. intros resp. split; [done|].
      intros (? & ? & ? & [= <-] & Hd' & _). congruence. }
  unfold readReply. destruct (http.resp_Body reply) as [body|e] eqn:Hr.
  2:{ split; [right; by eexists|]. intros resp. split; [done|].
      intros (? & ? & ? & [= <-] & Hd' & _ & Hr' & _). congruence. }
  destruct (Z.eqb_spec (http.StatusCode reply) http.StatusOK) as [Hs|Hs]; cbn [negb].
  2:{ split; [right; destruct (UnmarshalErrorResponse body); by eexists|].
      intros resp. split; [by destruct (UnmarshalErrorResponse body)|].
      intros (? & ? & ? & [= <-] & Hd' & Hs' & _). congruence. }
  destruct (UnmarshalResponse body) as [chatResp|e] eqn:Hu.
  - split; [left; by eexists|]. intros resp. split.
    + intros [= <-]. by exists httpReq, reply, body.
    + intros (? & ? & ? & [= <-] & Hd' & _ & Hr' & Hu'). congruence.
  - split; [right; by eexists|]. intros resp. split; [done|].
    intros (? & ? & ? & [= <-] & Hd' & _ & Hr' & Hu'). congruence.
Qed.

Variable c : RealOpenAIClient.
Variable failure : option error.

(** The handler on top of the client, once the request went out. *)
Lemma handle_sent req httpReq :
  buildRequest c req = inl httpReq ->
  CreateChatCompletion (NewProxyServer c).(client) req
  = (match Do httpReq with
     | inr err => (None, Some (wrapError "failed to send request: " err))
     | inl resp => readReply resp
     end, [Send httpReq]).
Proof.
  intros Hb. cbn [CreateChatCompletion RealOpenAIClient_OpenAIClient NewProxyServer client].
  unfold RealOpenAIClient_CreateChatCompletion. rewrite Hb. by destruct (Do httpReq).
Qed.

(** X8: when the provider cannot be reached, the caller gets status 500
    with the text of the network error behind the two prefixes the handler
    and the client add; the request was sent once and is not retried. *)
Theorem network_failure_surfaced r body req httpReq e :
  http.Method r = http.MethodPost -> http.Body r = inl body ->
  UnmarshalRequest body = inl req -> valid_request req ->
  buildRequest c req = inl httpReq -> Do httpReq = inr e ->
  let out := handleChatCompletions (NewProxyServer c) (http.NewResponseWriter failure) r in
  http.status out.1 = Some http.StatusInternalServerError
  /\ http.written out.1
     = "OpenAI API error: failed to send request: " +:+ Error e +:+ newline
  /\ sends out.2 = [httpReq].
Proof.
  intros Hm Hb Hu Hv Hq Hd. cbv zeta.
  rewrite (handle_forwarded _ failure r body req Hm Hb Hu Hv).
  rewrite (handle_sent req httpReq Hq), Hd.
  split; [done|]. split; [|done].
  cbn [fst]. unfold http.Error, http.Write. cbn [http.written fst Error]. by rewrite !sapp_assoc.
Qed.

(** X9: a reply of the provider with status 200 whose body parses as a
    response is relayed as status 200 with the JSON content type; the body
    written is the serialization of the parsed response, not the bytes the
    provider sent. *)
Theorem provider_response_relayed r body req httpReq reply text resp :
  http.Method r = http.MethodPost -> http.Body r = inl body ->
  UnmarshalRequest body = inl req -> valid_request req ->
  buildRequest c req = inl httpReq -> Do httpReq = inl reply ->
  http.StatusCode reply = http.StatusOK -> http.resp_Body reply = inl text ->
  UnmarshalResponse text = inl resp ->
  let out := handleChatCompletions (NewProxyServer c) (http.NewResponseWriter failure) r in
  http.status out.1 = Some http.StatusOK
  /\ http.sent_header "Content-Type" out.1 = "application/json"
  /\ sends out.2 = [httpReq]
  /\ (failure = None -> http.written out.1 = MarshalResponse (Some resp) +:+ newline).
Proof.
  intros Hm Hb Hu Hv Hq Hd Hs Hr Hp. cbv zeta.
  rewrite (handle_forwarded _ failure r body req Hm Hb Hu Hv).
  rewrite (handle_sent req httpReq Hq), Hd.
  unfold readReply. rewrite Hr, Hs, Hp. cbn [negb Z.eqb Pos.eqb]. cbv zeta. 
  unfold Encode, http.Write. cbn [http.failure http.WriteHeader http.SetHeader
    http.NewResponseWriter http.sent http.header http.written].
  destruct failure as [e|]; [|done].
  split; [by apply Error_sent|]. split; [done|]. split; done.
Qed.

(** X10: a reply of the provider with a status other than 200 reaches the
    caller as status 500.  When the body of the reply parses as an
    [ErrorResponse], the text is the message of the provider behind the
    prefixes of the handler and of the client, and the status code of the
    provider is not in it; otherwise the text holds the status code and
    the body. *)
Theorem provider_error_relayed r body req httpReq reply text :
  http.Method r = http.MethodPost -> http.Body r = inl body ->
  UnmarshalRequest body = inl req -> valid_request req ->
  buildRequest c req = inl httpReq -> Do httpReq = inl reply ->
  http.StatusCode reply <> http.StatusOK -> http.resp_Body reply = inl text ->
  let out := handleChatCompletions (NewProxyServer c) (http.NewResponseWriter failure) r in
  http.status out.1 = Some http.StatusInternalServerError
  /\ http.written out.1
     = "OpenAI API error: "
       +:+ match UnmarshalErrorResponse text with
           | inl errorResp => "API error: " +:+ err_Message (resp_Error errorResp)
           | inr _ => "API error (status " +:+ strconv.FormatInt (http.StatusCode reply)
                      +:+ "): " +:+ text
           end
       +:+ newline.
Proof.
  intros Hm Hb Hu Hv Hq Hd Hs%Z.eqb_neq Hr. cbv zeta.
  rewrite (handle_forwarded _ failure r body req Hm Hb Hu Hv).
  rewrite (handle_sent req httpReq Hq), Hd.
  unfold readReply. rewrite Hr, Hs. cbn [negb].
  destruct (UnmarshalErrorResponse text); (split; [done|]);
    cbn [fst]; unfold http.Error, http.Write; cbn [http.written fst Error];
    by rewrite !sapp_assoc.
Qed.

End RealClient.

(** ** Responses: serialization followed by deserialization *)

#[local] Opaque strconv.FormatInt strconv.ParseInt json.appendString.

Section ResponseRoundTrip.

Lemma depth_ok d : d <= 9 -> d + 1 <= json.maxNestingDepth.
Proof. unfold json.maxNestingDepth. lia. Qed.

Lemma reads_message_at n d m :
  d <= 9 -> valid_message m = true -> reads (4 + n) d (marshalMessage m) (valueOfMessage m).
Proof.
  intros Hd [Hr Hc]%andb_true_iff. unfold marshalMessage, valueOfMessage.
  apply (reads_object (S n) d
           [("role", json.appendString (Role m), json.Str (Role m));
            ("content", json.appendString (Content m), json.Str (Content m))]);
    [done|by apply depth_ok|].
  apply Forall_cons_2; [split; [by vm_compute|by apply reads_string]|].
  apply Forall_cons_2; [split; [by vm_compute|by apply reads_string]|]. done.
Qed.

Lemma reads_choice n d c :
  d <= 8 -> valid_choice c = true -> reads (8 + n) d (marshalChoice c) (valueOfChoice c).
Proof.
  intros Hd [Hm Hf]%andb_true_iff.
  apply (reads_object (4 + n) d (choiceFields c)); [done|apply depth_ok; lia|].
  apply Forall_cons_2.
  { split; [by vm_compute|]. apply (reads_le 1); [lia|]. apply reads_number, FormatInt_valid. }
  apply Forall_cons_2.
  { split; [by vm_compute|]. apply reads_message_at; [lia|done]. }
  apply Forall_cons_2; [|done].
  split; [by vm_compute|]. by apply (reads_string (3 + n)).
Qed.

Lemma reads_choices n d cs :
  d <= 7 -> forallb valid_choice (default [] cs) = true ->
  reads (S (length (default [] cs) + (8 + n))) d (marshalSlice marshalChoice cs)
        (valueOfSlice valueOfChoice cs).
Proof.
  intros Hd Hv. destruct cs as [l|]; [|apply reads_null].
  cbn [default marshalSlice valueOfSlice] in *.
  pose proof (reads_array (8 + n) d
                (map (fun c => (marshalChoice c, valueOfChoice c)) l)) as Ha.
  rewrite !map_map, length_map in Ha. cbn [fst snd] in Ha.
  apply Ha; [apply depth_ok; lia|].
  apply Forall_map. apply Forall_forall. intros c Hc. cbn [fst snd].
  apply reads_choice; [lia|]. rewrite forallb_forall in Hv. apply Hv.
  by apply list_elem_of_In.
Qed.

Lemma reads_usage n d u :
  d <= 9 -> reads (5 + n) d (marshalUsage u) (valueOfUsage u).
Proof.
  intros Hd. apply (reads_object (S n) d (usageFields u)); [done|by apply depth_ok|].
  repeat (apply Forall_cons_2;
          [split; [by vm_compute|apply reads_number, FormatInt_valid]|]).
  done.
Qed.

(** The text of a response is read as the object of its members. *)
Lemma parse_MarshalResponse r :
  valid_response r = true ->
  json.parse (MarshalResponse (Some r))
  = json.Done (json.Object (member_values (responseFields r))) "".
Proof.
  intros (((Hid & Hob)%andb_true_iff & Hmo)%andb_true_iff & Hch)%andb_true_iff.
  set (k := (S (length (default [] (Choices r)) + 8))%nat).
  assert (reads (S (6 + k)) 0 (MarshalResponse (Some r))
                (json.Object (member_values (responseFields r)))) as Hr.
  { apply (reads_object k 0 (responseFields r)); [done|by apply depth_ok|].
    change (0 + 1) with 1. subst k.
    apply Forall_cons_2; [split; [by vm_compute|by apply reads_string]|].
    apply Forall_cons_2; [split; [by vm_compute|by apply reads_string]|].
    apply Forall_cons_2.
    { split; [by vm_compute|]. apply reads_number, FormatInt_valid. }
    apply Forall_cons_2; [split; [by vm_compute|by apply reads_string]|].
    apply Forall_cons_2.
    { split; [by vm_compute|]. apply (reads_choices 0); [lia|done]. }
    apply Forall_cons_2; [|done].
    split; [by vm_compute|]. apply (reads_le 5); [lia|]. apply (reads_usage 0). lia. }
  specialize (Hr "" eq_refl). rewrite sapp_nil_r in Hr.
  unfold json.parse. apply value_nospace in Hr as Hs. rewrite Hs.
  by rewrite (value_enough _ _ _ _ _ Hr).
Qed.

Lemma readChoice_value c old :
  int64_range (Index c) -> readChoice (valueOfChoice c) old = Some c.
Proof.
  intros Hz. destruct c as [index [role content] finish]. cbn [Index] in Hz.
  unfold readChoice, valueOfChoice, choiceFields, valueOfMessage, json.readStruct.
  cbn [member_values map fst snd json.readMembers Index choice_Message FinishReason
       Role Content].
  unfold readChoiceField. eval_fields.
  cbn [json.readInt json.readString]. rewrite (ParseInt_FormatInt index Hz).
  cbn [Index choice_Message FinishReason].
  unfold readMessage, json.readStruct. cbn [json.readMembers].
  unfold readMessageField. eval_fields. done.
Qed.

Lemma readElems_choices l : forall old,
  Forall (fun c => int64_range (Index c)) l ->
  json.readElems zeroChoice readChoice (map valueOfChoice l) old = Some l.
Proof.
  induction l as [|c l IH]; intros old Hz; [done|].
  apply Forall_cons in Hz as [Hc Hl]. cbn [map json.readElems].
  by rewrite (readChoice_value c _ Hc), (IH _ Hl).
Qed.

Lemma readSlice_choices cs :
  Forall (fun c => int64_range (Index c)) (default [] cs) ->
  json.readSlice zeroChoice readChoice (valueOfSlice valueOfChoice cs) (None, [])
  = Some (cs, default [] cs).
Proof.
  intros Hz. destruct cs as [[|c l]|]; [done| |done].
  cbn [valueOfSlice map json.readSlice snd].
  change (valueOfChoice c :: map valueOfChoice l) with (map valueOfChoice (c :: l)).
  rewrite (readElems_choices _ _ Hz). by rewrite drop_nil, app_nil_r.
Qed.

Lemma readUsage_value u old :
  int64_range (PromptTokens u) -> int64_range (CompletionTokens u) ->
  int64_range (TotalTokens u) -> readUsage (valueOfUsage u) old = Some u.
Proof.
  intros Hp Hc Ht. destruct u as [p c t]. cbn [PromptTokens CompletionTokens TotalTokens] in *.
  unfold readUsage, valueOfUsage, usageFields, json.readStruct.
  cbn [member_values map fst snd json.readMembers PromptTokens CompletionTokens TotalTokens].
  unfold readUsageField. eval_fields. cbn [json.readInt].
  rewrite (ParseInt_FormatInt p Hp). cbn [PromptTokens CompletionTokens TotalTokens].
  rewrite (ParseInt_FormatInt c Hc). cbn [PromptTokens CompletionTokens TotalTokens].
  by rewrite (ParseInt_FormatInt t Ht).
Qed.

(** The members of a response are read back as the response. *)
Lemma readResponse_fields r :
  response_in_range r ->
  readResponse (json.Object (member_values (responseFields r))) (zeroResponse, [])
  = Some (r, default [] (Choices r)).
Proof.
  intros (Hc & Hi & Hp & Hm & Ht). destruct r as [id object created model choices usage].
  cbn [Created Choices resp_Usage] in *.
  unfold readResponse, responseFields, json.readStruct.
  cbn [member_values map fst snd json.readMembers ID Object Created resp_Model Choices
       resp_Usage].
  unfold readResponseField. eval_fields.
  cbn [json.readString json.readInt ID Object Created resp_Model Choices resp_Usage zeroResponse].
  rewrite (ParseInt_FormatInt created Hc).
  cbn [ID Object Created resp_Model Choices resp_Usage].
  rewrite (readSlice_choices choices Hi).
  cbn [ID Object Created resp_Model Choices resp_Usage].
  by rewrite (readUsage_value usage _ Hp Hm Ht).
Qed.

(** Writing a response and reading the text gives the response back. *)
Lemma Unmarshal_MarshalResponse r :
  valid_response r = true -> response_in_range r ->
  UnmarshalResponse (MarshalResponse (Some r)) = inl r.
Proof.
  intros Hv Hz. unfold UnmarshalResponse, Unmarshal.
  rewrite (parse_MarshalResponse r Hv). by rewrite (readResponse_fields r Hz).
Qed.

(** X11: a response whose strings are valid UTF-8 and whose integers fit
    their Go types, once serialized, deserializes to itself: every field,
    every choice and the usage come back as they were; and the serialized
    text is well-formed JSON. *)
Theorem response_round_trip r :
  valid_response r = true -> response_in_range r ->
  UnmarshalResponse (MarshalResponse (Some r)) = inl r
  /\ Valid (MarshalResponse (Some r)) = true.
Proof.
  intros Hv Hz. split; [by apply Unmarshal_MarshalResponse|].
  unfold Valid. by rewrite (parse_MarshalResponse r Hv).
Qed.

(** A body in the form of [ErrorResponse] is read as its three strings. *)
Lemma Unmarshal_errorBody e :
  valid_error e = true -> UnmarshalErrorResponse (errorBody e) = inl (mkErrorResponse e).
Proof.
  intros ((Hm & Ht)%andb_true_iff & Hc)%andb_true_iff. destruct e as [m t c].
  cbn [err_Message err_Type err_Code] in *.
  set (inner := [("message", json.appendString m, json.Str m);
                 ("type", json.appendString t, json.Str t);
                 ("code", json.appendString c, json.Str c)]).
  set (outer := [("error", object (member_texts inner), json.Object (member_values inner))]).
  assert (reads 7 0 (errorBody (mkErrorDetail m t c)) (json.Object (member_values outer))) as Hr.
  { apply (reads_object 5 0 outer); [done|by apply depth_ok|].
    apply Forall_cons_2; [|done]. split; [by vm_compute|].
    apply (reads_object 1 (0 + 1) inner); [done|by apply depth_ok|].
    repeat (apply Forall_cons_2; [split; [by vm_compute|by apply reads_string]|]). done. }
  specialize (Hr "" eq_refl). rewrite sapp_nil_r in Hr.
  unfold UnmarshalErrorResponse, Unmarshal, json.parse.
  apply value_nospace in Hr as Hs. rewrite Hs, (value_enough _ _ _ _ _ Hr).
  cbn [json.skipSpace]. subst outer inner.
  unfold readErrorResponse, json.readStruct.
  cbn [member_values map fst snd json.readMembers].
  unfold readErrorResponseField. eval_fields. unfold json.readStruct.
  cbn [json.readMembers]. unfold readErrorDetailField. eval_fields. done.
Qed.

(** A body with no member for the error leaves the [ErrorResponse] as it
    was. *)
Lemma readMembers_no_error ms : forall e,
  absent "error" ms = true -> json.readMembers readErrorResponseField ms e = Some e.
Proof.
  induction ms as [|[key j] ms IH]; intros e Ha; [done|].
  cbn [absent forallb fst] in Ha. apply andb_true_iff in Ha as [Hk Ha].
  cbn [json.readMembers]. unfold readErrorResponseField at 1.
  apply negb_true_iff in Hk. rewrite Hk. by apply IH.
Qed.

End ResponseRoundTrip.

(** ** Responses: what holds of every response that was read *)

Section Scalars.

Lemma readString_valid j s s' :
  valid_value j = true -> utf8.ValidString s = true -> json.readString j s = Some s' ->
  utf8.ValidString s' = true.
Proof. destruct j; cbn [json.readString valid_value]; intros; by simplify_eq. Qed.

Lemma readInt_range j z z' :
  int64_range z -> json.readInt j z = Some z' -> int64_range z'.
Proof.
  destruct j; cbn [json.readInt]; intros Hz Hr; simplify_eq; [done|]. by eapply ParseInt_range.
Qed.

End Scalars.

Ltac by_reader :=
  match goal with
  | Hj : valid_value ?j = true, E : json.readString ?j ?s = Some ?x
    |- utf8.ValidString ?x = true => by apply (readString_valid j s x Hj)
  | E : json.readInt ?j ?z = Some ?x |- int64_range ?x => by apply (readInt_range j z x)
  end.

Ltac split_conj := repeat match goal with |- _ /\ _ => split end.

Section ResponseInvariant.

(** Reading the members of an object keeps what every field reader
    keeps. *)
Lemma readMembers_inv {A : Type} (field : string -> json.Reader A) (P : A -> Prop) :
  (forall key j v v', valid_value j = true -> P v -> field key j v = Some v' -> P v') ->
  forall ms v v',
    forallb (fun kv => valid_value kv.2) ms = true -> P v ->
    json.readMembers field ms v = Some v' -> P v'.
Proof.
  intros Hf. induction ms as [|[key j] ms IH]; intros v v' Hms Hv Hr.
  { by injection Hr as <-. }
  cbn [json.readMembers forallb snd] in *. apply andb_true_iff in Hms as [Hj Hms].
  destruct (field key j v) as [v1|] eqn:E; [|done].
  apply (IH v1); [done| |done]. by eapply Hf.
Qed.

Lemma readStruct_inv {A : Type} (field : string -> json.Reader A) (P : A -> Prop) :
  (forall key j v v', valid_value j = true -> P v -> field key j v = Some v' -> P v') ->
  forall j v v', valid_value j = true -> P v -> json.readStruct field j v = Some v' -> P v'.
Proof.
  intros Hf j v v' Hj Hv Hr. unfold json.readStruct in Hr.
  destruct j as [| | | | |ms]; simplify_eq; [done|].
  by eapply (readMembers_inv field P Hf ms v v').
Qed.

Lemma readElems_inv {A : Type} (zero : A) (elem : json.Reader A) (P : A -> Prop) :
  P zero ->
  (forall j a a', valid_value j = true -> P a -> elem j a = Some a' -> P a') ->
  forall js old l,
    forallb valid_value js = true -> Forall P old ->
    json.readElems zero elem js old = Some l -> Forall P l.
Proof.
  intros Hz He. induction js as [|j js IH]; intros old l Hjs Hold Hr.
  { by injection Hr as <-. }
  cbn [json.readElems forallb] in *. apply andb_true_iff in Hjs as [Hj Hjs].
  destruct (elem j (hd zero old)) as [a|] eqn:Ea; [|done].
  destruct (json.readElems _ _ js (tl old)) as [l'|] eqn:El; [|done].
  injection Hr as <-. apply Forall_cons. split.
  - apply (He j (hd zero old)); [done| |done]. destruct old; [done|].
    by apply Forall_cons in Hold as [??].
  - apply (IH (tl old)); [done| |done]. destruct old; [done|].
    by apply Forall_cons in Hold as [??].
Qed.

Lemma readSlice_inv {A : Type} (zero : A) (elem : json.Reader A) (P : A -> Prop) :
  P zero ->
  (forall j a a', valid_value j = true -> P a -> elem j a = Some a' -> P a') ->
  forall j s backing s' backing',
    valid_value j = true -> Forall P backing ->
    json.readSlice zero elem j (s, backing) = Some (s', backing') ->
    Forall P (default [] s') /\ Forall P backing'.
Proof.
  intros Hz He j s backing s' backing' Hj Hb Hr. unfold json.readSlice in Hr. cbn [snd] in Hr.
  destruct j as [| | | |js|]; simplify_eq; try done.
  destruct js as [|j js]; simplify_eq; [done|].
  destruct (json.readElems _ _ _ _) as [l|] eqn:El; [|done]. simplify_eq.
  pose proof (readElems_inv zero elem P Hz He _ _ _ Hj Hb El) as Hl.
  split; [done|]. apply Forall_app. split; [done|]. by apply Forall_drop.
Qed.

Lemma readMessageField_valid key j m m' :
  valid_value j = true -> valid_message m = true -> readMessageField key j m = Some m' ->
  valid_message m' = true.
Proof.
  unfold readMessageField, valid_message. intros Hj [Hr Hc]%andb_true_iff Hm.
  repeat case_match; simplify_eq; cbn [Role Content]; apply andb_true_iff; split; try done;
    by_reader.
Qed.

Lemma readChoice_ok j c c' :
  valid_value j = true -> choice_ok c -> readChoice j c = Some c' -> choice_ok c'.
Proof.
  apply readStruct_inv. clear. intros key j c c' Hj [Hv Hz] Hr.
  unfold valid_choice in Hv. apply andb_true_iff in Hv as [Hm Hf].
  unfold readChoiceField in Hr. unfold choice_ok, valid_choice.
  repeat case_match; simplify_eq; cbn [Index choice_Message FinishReason].
  - split; [by apply andb_true_iff|]. by_reader.
  - split; [|done]. apply andb_true_iff. split; [|done].
    eapply (readStruct_inv readMessageField (fun m => valid_message m = true));
      [apply readMessageField_valid|exact Hj|exact Hm|]. done.
  - split; [|done]. apply andb_true_iff. split; [done|]. by_reader.
  - split; [by apply andb_true_iff|done].
Qed.

Lemma readUsage_ok j u u' :
  valid_value j = true -> usage_ok u -> readUsage j u = Some u' -> usage_ok u'.
Proof.
  apply readStruct_inv. clear. intros key j u u' Hj (Hp & Hc & Ht) Hr.
  unfold readUsageField in Hr. unfold usage_ok.
  repeat case_match; simplify_eq; cbn [PromptTokens CompletionTokens TotalTokens];
    split_conj; try done; by_reader.
Qed.

Lemma readResponseField_ok key j st st' :
  valid_value j = true -> response_ok st -> readResponseField key j st = Some st' ->
  response_ok st'.
Proof.
  destruct st as [r backing]. unfold response_ok, readResponseField. cbn [fst snd].
  intros Hj (Hid & Hob & Hmo & Hcr & Hch & Hus & Hb) Hr.
  repeat case_match; simplify_eq;
    cbn [fst snd ID Object Created resp_Model Choices resp_Usage].
  - split_conj; try done. by_reader.
  - split_conj; try done. by_reader.
  - split_conj; try done. by_reader.
  - split_conj; try done. by_reader.
  - match goal with
    | E : json.readSlice _ _ _ _ = Some _ |- _ =>
      apply (readSlice_inv zeroChoice readChoice choice_ok) in E as [??];
        [|by vm_compute|apply readChoice_ok|done|done]
    end.
    by split_conj.
  - split_conj; try done. by eapply readUsage_ok.
  - by split_conj.
Qed.

(** A response that was read from a body has valid strings and integers
    in range. *)
Lemma UnmarshalResponse_ok text resp :
  UnmarshalResponse text = inl resp -> valid_response resp = true /\ response_in_range resp.
Proof.
  unfold UnmarshalResponse, Unmarshal.
  destruct (json.parse text) as [j r| |] eqn:Ep; [|done..].
  destruct (readResponse j (zeroResponse, [])) as [[resp' b]|] eqn:Er; [|done].
  intros [= <-]. apply parse_valid in Ep.
  assert (response_ok (resp', b)) as (Hid & Hob & Hmo & Hcr & Hch & (? & ? & ?) & _).
  { eapply (readStruct_inv readResponseField response_ok);
      [apply readResponseField_ok|exact Ep| |exact Er].
    repeat split; try done; by vm_compute. }
  cbn [fst] in *. split.
  - unfold valid_response. rewrite Hid, Hob, Hmo. cbn [andb].
    apply forallb_forall. intros c Hc%list_elem_of_In.
    by destruct (proj1 (Forall_forall _ _) Hch c Hc).
  - unfold response_in_range. split_conj; try done.
    eapply Forall_impl; [exact Hch|]. by intros c [??].
Qed.

(** What the proxy writes for a response it read is read back as that
    response. *)
Lemma MarshalResponse_Unmarshal text resp :
  UnmarshalResponse text = inl resp ->
  UnmarshalResponse (MarshalResponse (Some resp)) = inl resp.
Proof. intros [??]%UnmarshalResponse_ok. by apply Unmarshal_MarshalResponse. Qed.

End ResponseInvariant.

(** ** The relay of replies, and the members of a request *)

Section Relay.

Context `{Float64} `{JSONErrors} `{Network}.

Variable c : RealOpenAIClient.
Variable failure : option error.

(** X12: whatever body the client accepted as a response, the text the
    proxy writes for it is well-formed JSON that deserializes to the same
    response: nothing the client parsed is lost or changed on the way to
    the caller. *)
Theorem relayed_response_reparses text resp :
  UnmarshalResponse text = inl resp ->
  Valid (MarshalResponse (Some resp)) = true
  /\ UnmarshalResponse (MarshalResponse (Some resp)) = inl resp.
Proof.
  intros Hu. split; [|by eapply MarshalResponse_Unmarshal].
  destruct (UnmarshalResponse_ok text resp Hu) as [Hv _].
  unfold Valid. by rewrite (parse_MarshalResponse resp Hv).
Qed.

(** X13: a body of the provider that is written the way [json.Marshal]
    writes a response reaches the caller byte for byte, with a line end
    behind it. *)
Theorem canonical_body_relayed_verbatim r body req httpReq reply resp :
  http.Method r = http.MethodPost -> http.Body r = inl body ->
  UnmarshalRequest body = inl req -> valid_request req ->
  buildRequest c req = inl httpReq -> Do httpReq = inl reply ->
  http.StatusCode reply = http.StatusOK ->
  http.resp_Body reply = inl (MarshalResponse (Some resp)) ->
  valid_response resp = true -> response_in_range resp ->
  failure = None ->
  let out := handleChatCompletions (NewProxyServer c) (http.NewResponseWriter failure) r in
  http.status out.1 = Some http.StatusOK
  /\ http.written out.1 = MarshalResponse (Some resp) +:+ newline.
Proof.
  intros Hm Hb Hu Hv Hq Hd Hs Hr Hvr Hz Hf. cbv zeta.
  rewrite (handle_forwarded _ failure r body req Hm Hb Hu Hv).
  rewrite (handle_sent c req httpReq Hq), Hd.
  unfold readReply. rewrite Hr, Hs, (Unmarshal_MarshalResponse resp Hvr Hz).
  cbn [negb Z.eqb Pos.eqb]. cbv zeta. rewrite Hf. done.
Qed.

(** X14: a reply with a status other than 200 whose body has the form of
    an [ErrorResponse] gives the error [API error: ] followed by the
    message of the provider; neither the type and the code of the error
    nor the status of the reply are kept. *)
Theorem provider_message_extracted req httpReq reply e :
  buildRequest c req = inl httpReq -> Do httpReq = inl reply ->
  http.StatusCode reply <> http.StatusOK ->
  http.resp_Body reply = inl (errorBody e) -> valid_error e = true ->
  (RealOpenAIClient_CreateChatCompletion c req).1
  = (None, Some (errorString ("API error: " +:+ err_Message e))).
Proof.
  intros Hq Hd Hs%Z.eqb_neq Hr He. unfold RealOpenAIClient_CreateChatCompletion.
  rewrite Hq, Hd. cbn [fst]. unfold readReply.
  by rewrite Hr, Hs, (Unmarshal_errorBody e He).
Qed.

(** X15: a reply with a status other than 200 whose body is the JSON
    literal [null] or a JSON object with no member [error] counts as a
    parsed [ErrorResponse]: the error of the client is the bare text
    [API error: ], and the status and the body of the reply are lost. *)
Theorem error_without_error_member req httpReq reply text v :
  buildRequest c req = inl httpReq -> Do httpReq = inl reply ->
  http.StatusCode reply <> http.StatusOK -> http.resp_Body reply = inl text ->
  json.parse text = json.Done v "" ->
  v = json.Null \/ (exists ms, v = json.Object ms /\ absent "error" ms = true) ->
  (RealOpenAIClient_CreateChatCompletion c req).1
  = (None, Some (errorString "API error: ")).
Proof.
  intros Hq Hd Hs%Z.eqb_neq Hr Hp Hv. unfold RealOpenAIClient_CreateChatCompletion.
  rewrite Hq, Hd. cbn [fst]. unfold readReply. rewrite Hr, Hs. cbn [negb].
  assert (UnmarshalErrorResponse text = inl zeroErrorResponse) as ->; [|done].
  unfold UnmarshalErrorResponse, Unmarshal. rewrite Hp.
  destruct Hv as [->|(ms & -> & Ha)]; [done|].
  unfold readErrorResponse, json.readStruct. by rewrite (readMembers_no_error ms _ Ha).
Qed.

End Relay.

Section RequestMembers.

Context `{Float64}.

(** A member name selects a field by its folded form only. *)
Lemma field_is_foldName name key :
  json.field_is name key = String.eqb (json.foldName key) (json.foldName name).
Proof.
  unfold json.field_is. destruct (String.eqb_spec key name) as [->|]; [|done].
  by rewrite String.eqb_refl.
Qed.

(** X16: member names are matched without regard to case: two names with
    the same folded form select the same field of a request, so a body
    that writes [MODEL] or [Max_Tokens] is read like one that writes the
    names of the struct tags. *)
Theorem member_names_fold_case key key' j st :
  json.foldName key = json.foldName key' ->
  readRequestField key j st = readRequestField key' j st.
Proof.
  intros Hf. unfold readRequestField. rewrite !(field_is_foldName _ key).
  rewrite !(field_is_foldName _ key'). by rewrite Hf.
Qed.

Lemma readRequestField_unknown key j st :
  request_field key = false -> readRequestField key j st = Some st.
Proof.
  unfold request_field. intros Hk.
  repeat match goal with E : _ || _ = false |- _ => apply orb_false_iff in E as [??] end.
  destruct st as [r b]. unfold readRequestField.
  repeat match goal with E : json.field_is _ key = false |- _ => rewrite E; clear E end. done.
Qed.

Lemma readMembers_known ms : forall st,
  json.readMembers readRequestField ms st
  = json.readMembers readRequestField (List.filter (fun kv => request_field kv.1) ms) st.
Proof.
  induction ms as [|[key j] ms IH]; intros st; [done|].
  cbn [List.filter fst]. destruct (request_field key) eqn:Hk.
  - cbn [json.readMembers]. destruct (readRequestField key j st); [apply IH|done].
  - cbn [json.readMembers]. rewrite (readRequestField_unknown key j st Hk). apply IH.
Qed.

(** X17: members of the body whose name is not the name of a field of
    [ChatCompletionRequest] have no effect, whatever their value: a body
    and the same body without those members are read as the same request,
    or both are refused. *)
Theorem unknown_members_ignored body body' ms :
  json.parse body = json.Done (json.Object ms) "" ->
  json.parse body'
  = json.Done (json.Object (List.filter (fun kv => request_field kv.1) ms)) "" ->
  forall req, UnmarshalRequest body = inl req <-> UnmarshalRequest body' = inl req.
Proof.
  intros Hp Hp' req. unfold UnmarshalRequest, Unmarshal. rewrite Hp, Hp'.
  unfold readRequest, json.readStruct. rewrite (readMembers_known ms).
  destruct (json.readMembers _ _ _) as [[r b]|]; [done|]. split; intros; simplify_eq.
Qed.

End RequestMembers.

(** ** Bodies forwarded as they are, bodies refused, replies that cannot be used *)

Section Verbatim.

Context `{Float64} `{!Float64Spec} `{JSONErrors} `{Network}.

Variable c : RealOpenAIClient.
Variable failure : option error.

(** X18: an inbound body that is written the way [json.Marshal] writes a
    request, with strings that are valid UTF-8, is forwarded to the
    provider byte for byte. *)
Theorem canonical_request_forwarded_verbatim r body req :
  http.Method r = http.MethodPost -> http.Body r = inl body ->
  MarshalRequest req = Some body ->
  valid_strings req = true -> int_fields_in_range req -> valid_request req ->
  parseURL (BaseURL c +:+ "/chat/completions") = None ->
  let out := handleChatCompletions (NewProxyServer c) (http.NewResponseWriter failure) r in
  calls out.2 = [req] /\ map http.Body (sends out.2) = [inl body].
Proof.
  intros Hm Hb HM Hs Hz Hv Hp. cbv zeta.
  pose proof (Unmarshal_Marshal req body Hs Hz HM) as Hu.
  rewrite (handle_forwarded _ failure r body req Hm Hb Hu Hv).
  cbn [CreateChatCompletion RealOpenAIClient_OpenAIClient NewProxyServer client].
  unfold RealOpenAIClient_CreateChatCompletion, buildRequest, NewRequest.
  rewrite HM, Hp. cbn [http.Header http.Method http.URL http.Body].
  destruct (Do _) as [resp|e].
  - destruct (readReply resp) as [o [e|]]; [done|].
    destruct (Encode _ _) as [w2 [e|]]; done.
  - done.
Qed.

End Verbatim.

Section Refusals.

Context `{Float64} `{JSONErrors} {C : Type} `{!OpenAIClient C}.

Lemma readMembers_refused ms key j :
  In (key, j) ms -> (forall st, readRequestField key j st = None) ->
  forall st, json.readMembers readRequestField ms st = None.
Proof.
  intros Hin Hf. induction ms as [|[k v] ms IH]; intros st; [done|].
  cbn [json.readMembers]. destruct Hin as [[= -> ->]|Hin]; [by rewrite Hf|].
  destruct (readRequestField k v st); [by apply IH|done].
Qed.

Lemma max_tokens_refused key lit :
  json.field_is "max_tokens" key = true -> strconv.ParseInt lit = None ->
  forall st, readRequestField key (json.Number lit) st = None.
Proof.
  intros Hk Hp [r b]. rewrite field_is_foldName in Hk. apply String.eqb_eq in Hk.
  unfold readRequestField. rewrite !field_is_foldName, Hk.
  cbn [json.readPtr json.readInt]. vm_compute String.eqb. cbn iota.
  by rewrite Hp.
Qed.

Lemma model_refused key j :
  json.field_is "model" key = true ->
  match j with json.Str _ | json.Null => False | _ => True end ->
  forall st, readRequestField key j st = None.
Proof.
  intros Hk Hj [r b]. unfold readRequestField. rewrite Hk. by destruct j.
Qed.

(** X19: one member that does not fit its field makes the whole body
    invalid, wherever it stands among the members: a model that is not a
    string, or a [max_tokens] that is not an integer of 64 bits, gives
    status 400 with the text for invalid JSON, and the client is not
    called. *)
Theorem mistyped_member_rejected (s : ProxyServer C) (failure : option error)
    (r : http.Request) (body : string) ms key j :
  http.Method r = http.MethodPost -> http.Body r = inl body ->
  json.parse body = json.Done (json.Object ms) "" -> In (key, j) ms ->
  (json.field_is "model" key = true
   /\ match j with json.Str _ | json.Null => False | _ => True end)
  \/ (json.field_is "max_tokens" key = true
      /\ exists lit, j = json.Number lit /\ strconv.ParseInt lit = None) ->
  let out := handleChatCompletions s (http.NewResponseWriter failure) r in
  http.status out.1 = Some http.StatusBadRequest
  /\ http.written out.1 = "Invalid JSON in request body" +:+ newline
  /\ calls out.2 = [].
Proof.
  intros Hm Hb Hp Hin Hbad. cbv zeta.
  assert (UnmarshalRequest body = inr (UnmarshalTypeError body)) as Hu.
  { unfold UnmarshalRequest, Unmarshal. rewrite Hp. unfold readRequest, json.readStruct.
    rewrite (readMembers_refused ms key j Hin); [done|].
    destruct Hbad as [[Hk Hj]|(Hk & lit & -> & Hl)].
    - by apply model_refused.
    - by apply max_tokens_refused. }
  unfold handleChatCompletions. rewrite Hm, Hb, Hu. done.
Qed.

End Refusals.

Section UnusableReply.

Context `{Float64} `{JSONErrors} `{Network}.

Variable c : RealOpenAIClient.
Variable failure : option error.

(** X20: a reply of the provider whose body cannot be read, or that has
    status 200 and a body that is not a [ChatCompletionResponse], reaches
    the caller as status 500 with the cause in the text; nothing of the
    body of the provider is written. *)
Theorem unusable_reply_surfaced r body req httpReq reply :
  http.Method r = http.MethodPost -> http.Body r = inl body ->
  UnmarshalRequest body = inl req -> valid_request req ->
  buildRequest c req = inl httpReq -> Do httpReq = inl reply ->
  let out := handleChatCompletions (NewProxyServer c) (http.NewResponseWriter failure) r in
  (forall e, http.resp_Body reply = inr e ->
     http.status out.1 = Some http.StatusInternalServerError
     /\ http.written out.1
        = "OpenAI API error: failed to read response: " +:+ Error e +:+ newline)
  /\ (forall text err,
        http.StatusCode reply = http.StatusOK -> http.resp_Body reply = inl text ->
        UnmarshalResponse text = inr err ->
        http.status out.1 = Some http.StatusInternalServerError
        /\ http.written out.1
           = "OpenAI API error: failed to unmarshal response: " +:+ Error err +:+ newline).
Proof.
  intros Hm Hb Hu Hv Hq Hd. cbv zeta.
  rewrite (handle_forwarded _ failure r body req Hm Hb Hu Hv).
  rewrite (handle_sent c req httpReq Hq), Hd. unfold readReply. split.
  - intros e Hr. rewrite Hr. split; [done|].
    cbn [fst]. unfold http.Error, http.Write. cbn [http.written fst Error].
    by rewrite ?sapp_assoc.
  - intros text err Hs Hr He. rewrite Hr, Hs, He. cbn [negb Z.eqb Pos.eqb]. split; [done|].
    cbn [fst]. unfold http.Error, http.Write. cbn [http.written fst Error].
    by rewrite ?sapp_assoc.
Qed.

End UnusableReply.

(** ** The status of the reply *)

Section StatusTable.

Context `{Float64} `{JSONErrors} {C : Type} `{!OpenAIClient C}.

Variable s : ProxyServer C.
Variable failure : option error.

(** The request the handler hands to the client, if it gets that far. *)
Lemma handle_cases r :
  let out := handleChatCompletions s (http.NewResponseWriter failure) r in
  (http.Method r <> http.MethodPost /\ http.status out.1 = Some 405)
  \/ (http.Method r = http.MethodPost
      /\ (forall body req, http.Body r = inl body -> UnmarshalRequest body = inl req ->
                           ~ valid_request req)
      /\ http.status out.1 = Some 400)
  \/ (exists body req,
        http.Method r = http.MethodPost /\ http.Body r = inl body
        /\ UnmarshalRequest body = inl req /\ valid_request req
        /\ http.status out.1
           = Some (match (CreateChatCompletion (client s) req).1.2 with
                   | Some _ => 500
                   | None => 200
                   end)).
Proof.
  cbv zeta. destruct (String.eqb_spec (http.Method r) http.MethodPost) as [Hm|Hm].
  2:{ left. split; [done|]. apply String.eqb_neq in Hm as Hm'.
      unfold handleChatCompletions. by rewrite Hm'. }
  right. destruct (http.Body r) as [body|e] eqn:Hb.
  2:{ left. split; [done|]. split; [done|]. unfold handleChatCompletions. by rewrite Hm, Hb. }
  destruct (UnmarshalRequest body) as [req|e] eqn:Hu.
  2:{ left. split; [done|]. split; [intros ?? [= <-]; congruence|].
      unfold handleChatCompletions. by rewrite Hm, Hb, Hu. }
  destruct (String.eqb_spec (Model req) "") as [Hmod|Hmod].
  { left. split; [done|]. split.
    - intros ?? [= <-] Hu' [Hn _]. congruence.
    - by rewrite (handle_rejected s failure r body req "Model field is required" Hm Hb Hu);
        [|left]. }
  destruct (len (Messages req)) as [|n] eqn:Hl.
  { left. split; [done|]. split.
    - intros ?? [= <-] Hu' [_ Hn]. rewrite Hu in Hu'. injection Hu' as <-. done.
    - by rewrite (handle_rejected s failure r body req
                    "Messages field is required and cannot be empty" Hm Hb Hu); [|right]. }
  right. exists body, req.
  assert (valid_request req) as Hv by (unfold valid_request; rewrite Hl; split; [done|lia]).
  split; [done|]. split; [done|]. split; [done|]. split; [done|].
  rewrite (handle_forwarded s failure r body req Hm Hb Hu Hv).
  destruct (CreateChatCompletion (client s) req) as [[resp [e|]] evs]; cbn [snd fst]; [done|].
  unfold Encode, http.Write. cbn [http.failure http.WriteHeader http.SetHeader
    http.NewResponseWriter http.sent http.header http.written].
  by destruct failure.
Qed.

(** X21: the status of the reply tells what happened.  It is 405 exactly
    when the method is not POST; 200 exactly when the body of a POST was
    read and parsed into a request with a model and a message and the
    client returned no error for it; 500 exactly when the client returned
    an error for such a request; and 400 in every other case. *)
Theorem status_tells_the_outcome r :
  let out := handleChatCompletions s (http.NewResponseWriter failure) r in
  let accepted (req : ChatCompletionRequest) :=
    exists body, http.Method r = http.MethodPost /\ http.Body r = inl body
                 /\ UnmarshalRequest body = inl req /\ valid_request req in
  (http.status out.1 = Some 405 <-> http.Method r <> http.MethodPost)
  /\ (http.status out.1 = Some 200 <->
      exists req, accepted req /\ (CreateChatCompletion (client s) req).1.2 = None)
  /\ (http.status out.1 = Some 500 <->
      exists req e, accepted req /\ (CreateChatCompletion (client s) req).1.2 = Some e)
  /\ (http.status out.1 = Some 400 <->
      http.Method r = http.MethodPost /\ ~ exists req, accepted req).
Proof.
  cbv zeta.
  destruct (handle_cases r)
    as [[Hm Hs]|[(Hm & Hn & Hs)|(body & req & Hm & Hb & Hu & Hv & Hs)]]; rewrite Hs.
  - split; [done|]. split; [|split]; (split; [done|]).
    + by intros (? & (? & ? & _) & _).
    + by intros (? & ? & (? & ? & _) & _).
    + by intros [? _].
  - split; [split; [done|congruence]|]. split; [|split].
    + split; [done|]. intros (q & (b & _ & Hb & Hu & Hv) & _). by destruct (Hn b q).
    + split; [done|]. intros (q & e & (b & _ & Hb & Hu & Hv) & _). by destruct (Hn b q).
    + split; [|done]. intros _. split; [done|].
      intros (q & (b & _ & Hb & Hu & Hv)). by destruct (Hn b q).
  - assert (forall q, (exists b, http.Method r = http.MethodPost /\ http.Body r = inl b
                                 /\ UnmarshalRequest b = inl q /\ valid_request q) -> q = req)
      as Huniq.
    { intros q (b & _ & Hb' & Hu' & _). congruence. }
    destruct ((CreateChatCompletion (client s) req).1.2) as [e|] eqn:He.
    + split; [split; [done|congruence]|]. split; [|split].
      * split; [done|]. intros (q & Hq & Hk). rewrite (Huniq q Hq) in Hk. congruence.
      * split; [|done]. intros _. exists req, e. split; [by exists body|done].
      * split; [done|]. intros (_ & Hk). destruct Hk. exists req. by exists body.
    + split; [split; [done|congruence]|]. split; [|split].
      * split; [|done]. intros _. exists req. split; [by exists body|done].
      * split; [done|]. intros (q & e & Hq & Hk). rewrite (Huniq q Hq) in Hk. congruence.
      * split; [done|]. intros (_ & Hk). destruct Hk. exists req. by exists body.
Qed.

End StatusTable.

(** ** What is written for a response is JSON *)

#[local] Transparent json.appendString.

Section AnyString.

Lemma string_body_fffd rest acc :
  json.string_body ("\ufffd" +:+ rest) 0 acc
  = json.string_body rest 0 (acc +:+ utf8.EncodeRune utf8.RuneError).
Proof. done. Qed.

(** A string literal that [appendString] wrote is read back as some
    string, whatever bytes it was written from. *)
Lemma string_body_any n : forall s,
  (String.length s <= n)%nat ->
  exists t, forall acc rest,
    json.string_body (json.string_bytes s 0 +:+ String dquote rest) 0 acc
    = Some (acc +:+ t, rest).
Proof.
  induction n as [|n IH]; intros s Hn.
  { destruct s; [|simpl in Hn; lia]. exists "". intros. simpl. by rewrite sapp_nil_r. }
  destruct s as [|c s]; [exists ""; intros; simpl; by rewrite sapp_nil_r|].
  cbn [json.string_bytes]. unfold utf8.RuneSelf.
  destruct (Z.ltb_spec (ord c) 128) as [Hc|Hc].
  - destruct (IH s) as [t Ht]; [simpl in Hn; lia|]. exists (String c t). intros acc rest.
    rewrite sapp_assoc, string_body_ascii by done. rewrite Ht. by rewrite sapp_assoc.
  - destruct (utf8.DecodeRune (String c s)) as [r k] eqn:Hd.
    destruct ((r =? utf8.RuneError) && (k =? 1)%nat) eqn:Hok.
    { destruct (IH s) as [t Ht]; [simpl in Hn; lia|].
      exists (utf8.EncodeRune utf8.RuneError +:+ t). intros acc rest.
      rewrite sapp_assoc, string_body_fffd, Ht. by rewrite sapp_assoc. }
    destruct (encode_decode _ _ _ Hd) as (Hr & He & Hk); try done.
    destruct (DecodeRune_prefix _ _ _ Hd) as [Hlen _]; try done.
    assert (128 <= r) as Hr128.
    { destruct (Z.lt_ge_cases r 128) as [Hlt|]; [|done]. exfalso.
      apply ValidRune_spec in Hr. rewrite EncodeRune_1 in He, Hk by lia.
      simpl in Hk. subst k. simpl in He. injection He as He.
      rewrite <- He, ord_chr in Hc by lia. lia. }
    assert (String c s = utf8.EncodeRune r +:+ drop_bytes k (String c s)) as Hs.
    { by rewrite He, take_drop. }
    assert (s = drop_bytes 1 (utf8.EncodeRune r) +:+ drop_bytes k (String c s)) as Hs'.
    { destruct (utf8.EncodeRune r) as [|c' u]; [simpl in *; lia|].
      cbn [String.append drop_bytes] in *. by injection Hs. }
    assert (String.length (drop_bytes 1 (utf8.EncodeRune r)) = (k - 1)%nat) as Hl.
    { destruct (utf8.EncodeRune r) as [|c' u]; simpl in *; lia. }
    assert (json.string_bytes s (k - 1) = json.string_bytes (drop_bytes k (String c s)) 0) as Hb.
    { rewrite Hs' at 1. rewrite <- Hl, <- (Nat.add_0_r (String.length _)).
      apply string_bytes_skip. }
    assert (String.length (drop_bytes k (String c s)) <= n)%nat as Hn'.
    { pose proof (f_equal String.length Hs) as E. rewrite slength_app in E.
      simpl in E, Hn. lia. }
    rewrite Hb. destruct (IH _ Hn') as [t Ht].
    exists (utf8.EncodeRune r +:+ t). intros acc rest.
    destruct ((r =? 8232) || (r =? 8233)) eqn:Hsep.
    + rewrite !sapp_assoc. rewrite string_body_sep by lia.
      rewrite Ht. by rewrite sapp_assoc.
    + rewrite <- He, sapp_assoc, string_body_rune by done.
      rewrite Ht. by rewrite sapp_assoc.
Qed.

Lemma reads_any_string s :
  exists t, forall n d, reads (S n) d (json.appendString s) (json.Str t).
Proof.
  destruct (string_body_any _ s (le_n _)) as [t Ht]. exists t. intros n d rest _.
  specialize (Ht "" rest).
  unfold json.appendString, quoted. cbn [String.append json.value].
  change (byte_is dquote "{") with false. change (byte_is dquote "[") with false.
  change (byte_is dquote dquote) with true. cbn iota. cbn [drop_bytes].
  rewrite sapp_assoc. cbn [String.append]. by rewrite Ht.
Qed.

#[local] Opaque json.appendString.

Lemma reads_any_message m :
  exists v, forall n d, d <= 9 -> reads (4 + n) d (marshalMessage m) v.
Proof.
  destruct (reads_any_string (Role m)) as [r Hr], (reads_any_string (Content m)) as [c Hc].
  exists (json.Object [("role", json.Str r); ("content", json.Str c)]). intros n d Hd.
  apply (reads_object (S n) d
           [("role", json.appendString (Role m), json.Str r);
            ("content", json.appendString (Content m), json.Str c)]);
    [done|by apply depth_ok|].
  apply Forall_cons_2; [split; [by vm_compute|apply Hr]|].
  apply Forall_cons_2; [split; [by vm_compute|apply Hc]|]. done.
Qed.

Lemma reads_any_choice c :
  exists v, forall n d, d <= 8 -> reads (8 + n) d (marshalChoice c) v.
Proof.
  destruct (reads_any_message (choice_Message c)) as [m Hm].
  destruct (reads_any_string (FinishReason c)) as [f Hf].
  exists (json.Object [("index", json.Number (strconv.FormatInt (Index c)));
                       ("message", m); ("finish_reason", json.Str f)]).
  intros n d Hd.
  apply (reads_object (4 + n) d
           [("index", strconv.FormatInt (Index c), json.Number (strconv.FormatInt (Index c)));
            ("message", marshalMessage (choice_Message c), m);
            ("finish_reason", json.appendString (FinishReason c), json.Str f)]);
    [done|apply depth_ok; lia|].
  apply Forall_cons_2.
  { split; [by vm_compute|]. apply (reads_le 1); [lia|]. apply reads_number, FormatInt_valid. }
  apply Forall_cons_2; [split; [by vm_compute|apply Hm; lia]|].
  apply Forall_cons_2; [|done]. split; [by vm_compute|]. apply (Hf (3 + n)%nat).
Qed.

Lemma reads_any_choices l :
  exists es : list (string * json.Value),
    map fst es = map marshalChoice l
    /\ forall n d, d <= 8 -> Forall (fun e => reads (8 + n) d e.1 e.2) es.
Proof.
  induction l as [|c l (es & Hes & Hr)]; [by exists []|].
  destruct (reads_any_choice c) as [v Hv]. exists ((marshalChoice c, v) :: es).
  split; [cbn [map fst]; by rewrite Hes|]. intros n d Hd.
  apply Forall_cons. split; [by apply Hv|by apply Hr].
Qed.

(** What [json.Marshal] writes for a response is well-formed JSON,
    whatever the strings of the response are. *)
Lemma MarshalResponse_Valid resp : Valid (MarshalResponse resp) = true.
Proof.
  destruct resp as [r|]; [|done].
  destruct (reads_any_string (ID r)) as [id Hid], (reads_any_string (Object r)) as [ob Hob],
    (reads_any_string (resp_Model r)) as [mo Hmo].
  assert (exists v, forall n d, d <= 7 ->
            reads (S (length (default [] (Choices r)) + (8 + n))) d
                  (marshalSlice marshalChoice (Choices r)) v) as [ch Hch].
  { destruct (Choices r) as [l|]; [|exists json.Null; intros; apply reads_null].
    destruct (reads_any_choices l) as (es & Hes & Hr).
    assert (length l = length es) as Hlen.
    { by rewrite <- (length_map marshalChoice l), <- Hes, length_map. }
    exists (json.Array (map snd es)). intros n d Hd.
    change (default [] (Some l)) with l. cbn [marshalSlice]. rewrite <- Hes, Hlen.
    apply reads_array; [apply depth_ok; lia|]. apply Hr. lia. }
  set (k := (S (length (default [] (Choices r)) + 8))%nat).
  set (fs := [("id", json.appendString (ID r), json.Str id);
              ("object", json.appendString (Object r), json.Str ob);
              ("created", strconv.FormatInt (Created r),
               json.Number (strconv.FormatInt (Created r)));
              ("model", json.appendString (resp_Model r), json.Str mo);
              ("choices", marshalSlice marshalChoice (Choices r), ch);
              ("usage", marshalUsage (resp_Usage r), valueOfUsage (resp_Usage r))]).
  assert (reads (S (6 + k)) 0 (MarshalResponse (Some r)) (json.Object (member_values fs))) as Hr.
  { apply (reads_object k 0 fs); [done|by apply depth_ok|].
    change (0 + 1) with 1. subst k fs.
    apply Forall_cons_2; [split; [by vm_compute|apply Hid]|].
    apply Forall_cons_2; [split; [by vm_compute|apply Hob]|].
    apply Forall_cons_2.
    { split; [by vm_compute|]. apply reads_number, FormatInt_valid. }
    apply Forall_cons_2; [split; [by vm_compute|apply Hmo]|].
    apply Forall_cons_2; [split; [by vm_compute|apply (Hch 0%nat); lia]|].
    apply Forall_cons_2; [|done].
    split; [by vm_compute|]. apply (reads_le 5); [lia|]. apply (reads_usage 0). lia. }
  specialize (Hr "" eq_refl). rewrite sapp_nil_r in Hr.
  unfold Valid, json.parse. apply value_nospace in Hr as Hs. rewrite Hs.
  by rewrite (value_enough _ _ _ _ _ Hr).
Qed.

End AnyString.

Section WellFormedReply.

Context `{Float64} `{JSONErrors} {C : Type} `{!OpenAIClient C}.

(** X22: when the client returns no error, what the handler writes is
    one well-formed JSON text and a line end, whatever the client
    returned: a response with strings that are not valid UTF-8, or no
    response at all. *)
Theorem success_body_is_json (s : ProxyServer C) r body req resp evs :
  http.Method r = http.MethodPost -> http.Body r = inl body ->
  UnmarshalRequest body = inl req -> valid_request req ->
  CreateChatCompletion (client s) req = ((resp, None), evs) ->
  let out := handleChatCompletions s (http.NewResponseWriter None) r in
  exists text, http.written out.1 = text +:+ newline /\ Valid text = true.
Proof.
  intros Hm Hb Hu Hv Hc. cbv zeta. rewrite (handle_forwarded s None r body req Hm Hb Hu Hv), Hc.
  exists (MarshalResponse resp). split; [done|]. apply MarshalResponse_Valid.
Qed.

End WellFormedReply.

(** ** The handler and the client on the inputs of the tests *)

Lemma missing_field_rejected_witness :
  let out := handleChatCompletions mockSuccess (http.NewResponseWriter None)
               (post (jq "{'model':'gpt-3.5-turbo','messages':[]}")) in
  http.status out.1 = Some 400
  /\ http.written out.1 = "Messages field is required and cannot be empty" +:+ newline
  /\ calls out.2 = [] /\ sends out.2 = [].
Proof.
  apply (missing_field_rejected mockSuccess None
           (post (jq "{'model':'gpt-3.5-turbo','messages':[]}"))
           (jq "{'model':'gpt-3.5-turbo','messages':[]}")
           (mkRequest "gpt-3.5-turbo" (Some []) None None None None)).
  - reflexivity.
  - reflexivity.
  - vm_compute. reflexivity.
  - right. reflexivity.
Defined.

Lemma upstream_reply_errors_witness :
  (exists e,
     (RealOpenAIClient_CreateChatCompletion
        (H0 := sample_Network
                 (inl (http.mkResponse 429
                         (inl (jq "{'error':{'message':'rate limit exceeded','type':'requests','code':'rate_limit'}}")))))
        (NewRealOpenAIClient "test-key") createTestChatCompletionRequest).1
     = (None, Some e)
     /\ Error e = "API error: rate limit exceeded")
  /\ (RealOpenAIClient_CreateChatCompletion
        (H0 := sample_Network (inl (http.mkResponse 200 (inl "<html>"))))
        (NewRealOpenAIClient "test-key") createTestChatCompletionRequest).1
     = (None, Some (wrapError "failed to unmarshal response: " (SyntaxError "<html>"))).
Proof.
  split.
  - eapply (proj1 (upstream_reply_errors
             (H1 := sample_Network
                      (inl (http.mkResponse 429
                         (inl (jq "{'error':{'message':'rate limit exceeded','type':'requests','code':'rate_limit'}}")))))
             (NewRealOpenAIClient "test-key") createTestChatCompletionRequest
             _ _ _ eq_refl eq_refl eq_refl)).
    vm_compute. discriminate.
  - eapply (proj2 (upstream_reply_errors
             (H1 := sample_Network (inl (http.mkResponse 200 (inl "<html>"))))
             (NewRealOpenAIClient "test-key") createTestChatCompletionRequest
             _ _ _ eq_refl eq_refl eq_refl)).
    + reflexivity.
    + vm_compute. reflexivity.
Defined.




Lemma upstream_error_surfaced_witness :
  let out := handleChatCompletions mockFailure (http.NewResponseWriter None) (post testBody) in
  http.status out.1 = Some 500
  /\ http.written out.1 = "OpenAI API error: rate limit exceeded" +:+ newline.
Proof.
  apply (upstream_error_surfaced mockFailure None (post testBody) testBody
           createTestChatCompletionRequest None (errorString "rate limit exceeded") []).
  - reflexivity.
  - reflexivity.
  - vm_compute. reflexivity.
  - split; [vm_compute; discriminate | vm_compute; lia].
  - reflexivity.
Defined.

(** C6: the request of the tests, a client that returns the response of
    the tests, and a connection on which every write fails.  The handler
    asks for status 500 after the failed write, but the status 200 and the
    JSON content type went out with that write: the reply has status 200,
    and the generic text follows what was written of the response. *)
Theorem encode_failure_keeps_status_200 :
  let w := http.NewResponseWriter (Some (errorString "write: broken pipe")) in
  let out := handleChatCompletions mockSuccess w (post testBody) in
  UnmarshalRequest testBody = inl createTestChatCompletionRequest
  /\ (Encode (http.SetHeader "Content-Type" "application/json" w)
             (Some (createTestChatCompletionResponse 0))).2
     = Some (errorString "write: broken pipe")
  /\ http.status out.1 = Some 200
  /\ http.status out.1 <> Some 500
  /\ http.sent_header "Content-Type" out.1 = "application/json"
  /\ http.written out.1
     = MarshalResponse (Some (createTestChatCompletionResponse 0)) +:+ newline
       +:+ "Failed to encode response" +:+ newline
  /\ out.2 = [ReadBody; Call createTestChatCompletionRequest;
              Log "Failed to encode response: write: broken pipe"].
Proof.
  cbv zeta. split; [by vm_compute|]. split; [by vm_compute|]. split; [by vm_compute|].
  split; [vm_compute; discriminate|]. split; [by vm_compute|]. split; by vm_compute.
Qed.

Lemma request_round_trip_witness :
  (exists text, MarshalRequest (fullRequest "gpt-3.5-turbo") = Some text
     /\ UnmarshalRequest text = inl (fullRequest "gpt-3.5-turbo"))
  /\ (forall req, UnmarshalRequest (jq "{'model':'gpt-4','stream':true}") = inl req ->
      Temperature req = None /\ MaxTokens req = None /\ TopP req = None).
Proof.
  split.
  - eexists. split; [reflexivity|].
    apply (proj1 (request_round_trip (H := sample_Float64)) (fullRequest "gpt-3.5-turbo")).
    + vm_compute. reflexivity.
    + vm_compute. split; [discriminate|reflexivity].
    + vm_compute. reflexivity.
  - intros req Hu.
    destruct (proj2 (request_round_trip (H := sample_Float64))
                (jq "{'model':'gpt-4','stream':true}")
                [("model", json.Str "gpt-4"); ("stream", json.Bool true)] req)
      as (Ht & Hm & Hp & _).
    + vm_compute. reflexivity.
    + exact Hu.
    + split; [apply Ht; reflexivity|]. split; [apply Hm; reflexivity|apply Hp; reflexivity].
Defined.

(** A model that is the byte 255 is written as the escape of U+FFFD, and
    read back as the three bytes of U+FFFD. *)
Lemma round_trip_invalid_utf8 :
  let r := fullRequest (String (chr 255) "") in
  exists text r',
    MarshalRequest r = Some text /\ UnmarshalRequest text = inl r'
    /\ Model r' = String (chr 239) (String (chr 191) (String (chr 189) ""))
    /\ Model r' <> Model r
    /\ UnmarshalRequest text <> inl r.
Proof.
  cbv zeta. eexists. eexists. split; [by vm_compute|]. split; [by vm_compute|].
  split; [by vm_compute|]. split; vm_compute; discriminate.
Qed.

Lemma method_not_allowed_witness :
  let out := handleChatCompletions mockSuccess (http.NewResponseWriter None)
               (http.mkRequest "GET" "/v1/chat/completions" ∅ (inl "")) in
  http.status out.1 = Some 405
  /\ http.written out.1 = "Method not allowed" +:+ newline
  /\ out.2 = [].
Proof.
  apply (method_not_allowed mockSuccess None
           (http.mkRequest "GET" "/v1/chat/completions" ∅ (inl ""))).
  vm_compute. discriminate.
Defined.

Lemma malformed_json_rejected_witness :
  let out := handleChatCompletions mockSuccess (http.NewResponseWriter None)
               (post "invalid json") in
  http.status out.1 = Some 400
  /\ http.written out.1 = "Invalid JSON in request body" +:+ newline
  /\ calls out.2 = [] /\ sends out.2 = [].
Proof.
  apply (malformed_json_rejected mockSuccess None (post "invalid json") "invalid json").
  - reflexivity.
  - reflexivity.
  - vm_compute. reflexivity.
Defined.



(** ** Further runs on the inputs of the tests *)

Lemma unreadable_body_rejected_witness :
  let out := handleChatCompletions mockSuccess (http.NewResponseWriter None)
               (http.mkRequest "POST" "/v1/chat/completions" ∅
                  (inr (errorString "unexpected EOF"))) in
  http.status out.1 = Some 400
  /\ http.written out.1 = "Failed to read request body" +:+ newline
  /\ out.2 = [ReadBody].
Proof.
  apply (unreadable_body_rejected mockSuccess None
           (http.mkRequest "POST" "/v1/chat/completions" ∅ (inr (errorString "unexpected EOF")))
           (errorString "unexpected EOF")).
  - reflexivity.
  - reflexivity.
Defined.

Lemma nil_response_written_as_null_witness :
  let out := handleChatCompletions mockSilent (http.NewResponseWriter None) (post testBody) in
  http.status out.1 = Some 200
  /\ http.sent_header "Content-Type" out.1 = "application/json"
  /\ (@None error = None -> http.written out.1 = "null" +:+ newline).
Proof.
  apply (nil_response_written_as_null mockSilent None (post testBody) testBody
           createTestChatCompletionRequest []).
  - reflexivity.
  - reflexivity.
  - vm_compute. reflexivity.
  - split; [vm_compute; discriminate | vm_compute; lia].
  - reflexivity.
Defined.

Lemma network_failure_surfaced_witness :
  let out := handleChatCompletions
               (OpenAIClient0 := RealOpenAIClient_OpenAIClient
                  (H0 := sample_Network (inr (errorString "connection refused"))))
               (NewProxyServer testClient) (http.NewResponseWriter None) (post testBody) in
  http.status out.1 = Some 500
  /\ http.written out.1
     = "OpenAI API error: failed to send request: connection refused" +:+ newline
  /\ sends out.2 = [testHttpRequest].
Proof.
  cbv zeta.
  edestruct (network_failure_surfaced
               (H1 := sample_Network (inr (errorString "connection refused")))
               testClient None (post testBody) testBody createTestChatCompletionRequest
               testHttpRequest (errorString "connection refused"))
    as (Hs & Hw & Hn).
  - reflexivity.
  - reflexivity.
  - vm_compute. reflexivity.
  - split; [vm_compute; discriminate | vm_compute; lia].
  - vm_compute. reflexivity.
  - reflexivity.
  - exact (conj Hs (conj Hw Hn)).
Defined.

Lemma provider_response_relayed_witness :
  let out := handleChatCompletions
               (OpenAIClient0 := RealOpenAIClient_OpenAIClient (H0 := sample_Network (inl okReply)))
               (NewProxyServer testClient) (http.NewResponseWriter None) (post testBody) in
  http.status out.1 = Some 200
  /\ http.written out.1
     = MarshalResponse (Some (createTestChatCompletionResponse 0)) +:+ newline.
Proof.
  cbv zeta.
  edestruct (provider_response_relayed (H1 := sample_Network (inl okReply))
               testClient None (post testBody) testBody createTestChatCompletionRequest
               testHttpRequest okReply
               (MarshalResponse (Some (createTestChatCompletionResponse 0)))
               (createTestChatCompletionResponse 0))
    as (Hs & _ & _ & Hw).
  - reflexivity.
  - reflexivity.
  - vm_compute. reflexivity.
  - split; [vm_compute; discriminate | vm_compute; lia].
  - vm_compute. reflexivity.
  - reflexivity.
  - reflexivity.
  - reflexivity.
  - vm_compute. reflexivity.
  - split; [exact Hs|]. apply Hw. reflexivity.
Defined.

Lemma provider_error_relayed_witness :
  let out := handleChatCompletions
               (OpenAIClient0 := RealOpenAIClient_OpenAIClient
                  (H0 := sample_Network (inl errorReply)))
               (NewProxyServer testClient) (http.NewResponseWriter None) (post testBody) in
  http.status out.1 = Some 500
  /\ http.written out.1 = "OpenAI API error: API error: rate limit exceeded" +:+ newline.
Proof.
  cbv zeta.
  edestruct (provider_error_relayed (H1 := sample_Network (inl errorReply))
               testClient None (post testBody) testBody createTestChatCompletionRequest
               testHttpRequest errorReply (errorBody rateLimit))
    as (Hs & Hw).
  - reflexivity.
  - reflexivity.
  - vm_compute. reflexivity.
  - split; [vm_compute; discriminate | vm_compute; lia].
  - vm_compute. reflexivity.
  - reflexivity.
  - vm_compute. discriminate.
  - reflexivity.
  - split; [exact Hs|]. rewrite Hw. vm_compute. reflexivity.
Defined.

Lemma response_round_trip_witness :
  UnmarshalResponse (MarshalResponse (Some (createTestChatCompletionResponse 1700000000)))
  = inl (createTestChatCompletionResponse 1700000000)
  /\ Valid (MarshalResponse (Some (createTestChatCompletionResponse 1700000000))) = true.
Proof.
  apply (response_round_trip (createTestChatCompletionResponse 1700000000)).
  - vm_compute. reflexivity.
  - unfold response_in_range, int64_range. cbn.
    split; [lia|]. split; [repeat constructor; cbn; lia|]. lia.
Defined.

Lemma relayed_response_reparses_witness :
  Valid (MarshalResponse (Some sparseResponse)) = true
  /\ UnmarshalResponse (MarshalResponse (Some sparseResponse)) = inl sparseResponse.
Proof.
  apply (relayed_response_reparses sparseText sparseResponse).
  vm_compute. reflexivity.
Defined.

Lemma canonical_body_relayed_verbatim_witness :
  let out := handleChatCompletions
               (OpenAIClient0 := RealOpenAIClient_OpenAIClient (H0 := sample_Network (inl okReply)))
               (NewProxyServer testClient) (http.NewResponseWriter None) (post testBody) in
  http.status out.1 = Some 200
  /\ http.written out.1
     = MarshalResponse (Some (createTestChatCompletionResponse 0)) +:+ newline.
Proof.
  apply (canonical_body_relayed_verbatim (H1 := sample_Network (inl okReply))
           testClient None (post testBody) testBody createTestChatCompletionRequest
           testHttpRequest okReply (createTestChatCompletionResponse 0)).
  - reflexivity.
  - reflexivity.
  - vm_compute. reflexivity.
  - split; [vm_compute; discriminate | vm_compute; lia].
  - vm_compute. reflexivity.
  - reflexivity.
  - reflexivity.
  - reflexivity.
  - vm_compute. reflexivity.
  - unfold response_in_range, int64_range. cbn.
    split; [lia|]. split; [repeat constructor; cbn; lia|]. lia.
  - reflexivity.
Defined.

Lemma provider_message_extracted_witness :
  (RealOpenAIClient_CreateChatCompletion (H0 := sample_Network (inl errorReply))
     testClient createTestChatCompletionRequest).1
  = (None, Some (errorString "API error: rate limit exceeded")).
Proof.
  eapply (provider_message_extracted (H1 := sample_Network (inl errorReply))
            testClient createTestChatCompletionRequest testHttpRequest errorReply rateLimit).
  - vm_compute. reflexivity.
  - reflexivity.
  - vm_compute. discriminate.
  - reflexivity.
  - vm_compute. reflexivity.
Defined.

Lemma error_without_error_member_witness :
  (RealOpenAIClient_CreateChatCompletion (H0 := sample_Network (inl notFoundReply))
     testClient createTestChatCompletionRequest).1
  = (None, Some (errorString "API error: ")).
Proof.
  eapply (error_without_error_member (H1 := sample_Network (inl notFoundReply))
            testClient createTestChatCompletionRequest testHttpRequest notFoundReply
            (jq "{'detail':'Not Found'}") (json.Object [("detail", json.Str "Not Found")])).
  - vm_compute. reflexivity.
  - reflexivity.
  - vm_compute. discriminate.
  - reflexivity.
  - vm_compute. reflexivity.
  - right. eexists. split; [reflexivity|]. vm_compute. reflexivity.
Defined.

Lemma member_names_fold_case_witness :
  readRequestField "MODEL" (json.Str "gpt-4") (zeroRequest, [])
  = readRequestField "model" (json.Str "gpt-4") (zeroRequest, []).
Proof.
  apply (member_names_fold_case (H := sample_Float64) "MODEL" "model").
  vm_compute. reflexivity.
Defined.

Lemma unknown_members_ignored_witness :
  UnmarshalRequest (jq "{'model':'m','n':2,'messages':[{'role':'u','content':'c'}],'user':'x'}")
  = inl (mkRequest "m" (Some [mkMessage "u" "c"]) None None None None)
  <-> UnmarshalRequest (jq "{'model':'m','messages':[{'role':'u','content':'c'}]}")
      = inl (mkRequest "m" (Some [mkMessage "u" "c"]) None None None None).
Proof.
  apply (unknown_members_ignored (H := sample_Float64)
           (jq "{'model':'m','n':2,'messages':[{'role':'u','content':'c'}],'user':'x'}")
           (jq "{'model':'m','messages':[{'role':'u','content':'c'}]}")
           [("model", json.Str "m"); ("n", json.Number "2");
            ("messages", json.Array [json.Object [("role", json.Str "u");
                                                   ("content", json.Str "c")]]);
            ("user", json.Str "x")]).
  - vm_compute. reflexivity.
  - vm_compute. reflexivity.
Defined.

Lemma canonical_request_forwarded_verbatim_witness :
  let out := handleChatCompletions
               (OpenAIClient0 := RealOpenAIClient_OpenAIClient (H0 := sample_Network (inl okReply)))
               (NewProxyServer testClient) (http.NewResponseWriter None) (post testBody) in
  calls out.2 = [createTestChatCompletionRequest]
  /\ map http.Body (sends out.2) = [inl testBody].
Proof.
  apply (canonical_request_forwarded_verbatim (H2 := sample_Network (inl okReply))
           testClient None (post testBody) testBody createTestChatCompletionRequest).
  - reflexivity.
  - reflexivity.
  - vm_compute. reflexivity.
  - vm_compute. reflexivity.
  - exact I.
  - split; [vm_compute; discriminate | vm_compute; lia].
  - reflexivity.
Defined.

Lemma mistyped_member_rejected_witness :
  let out := handleChatCompletions mockSuccess (http.NewResponseWriter None)
               (post (jq "{'model':'m','max_tokens':9223372036854775808}")) in
  http.status out.1 = Some 400
  /\ http.written out.1 = "Invalid JSON in request body" +:+ newline
  /\ calls out.2 = [].
Proof.
  apply (mistyped_member_rejected mockSuccess None
           (post (jq "{'model':'m','max_tokens':9223372036854775808}"))
           (jq "{'model':'m','max_tokens':9223372036854775808}")
           [("model", json.Str "m"); ("max_tokens", json.Number "9223372036854775808")]
           "max_tokens" (json.Number "9223372036854775808")).
  - reflexivity.
  - reflexivity.
  - vm_compute. reflexivity.
  - right. left. reflexivity.
  - right. split; [vm_compute; reflexivity|]. eexists. split; [reflexivity|].
    vm_compute. reflexivity.
Defined.

Lemma unusable_reply_surfaced_witness :
  let out := handleChatCompletions
               (OpenAIClient0 := RealOpenAIClient_OpenAIClient
                  (H0 := sample_Network (inl htmlReply)))
               (NewProxyServer testClient) (http.NewResponseWriter None) (post testBody) in
  http.status out.1 = Some 500
  /\ http.written out.1
     = "OpenAI API error: failed to unmarshal response: invalid character" +:+ newline.
Proof.
  cbv zeta.
  edestruct (unusable_reply_surfaced (H1 := sample_Network (inl htmlReply))
               testClient None (post testBody) testBody createTestChatCompletionRequest
               testHttpRequest htmlReply)
    as (_ & Hp).
  - reflexivity.
  - reflexivity.
  - vm_compute. reflexivity.
  - split; [vm_compute; discriminate | vm_compute; lia].
  - vm_compute. reflexivity.
  - reflexivity.
  - apply (Hp "<html>" (SyntaxError "<html>")).
    + reflexivity.
    + reflexivity.
    + vm_compute. reflexivity.
Defined.

Lemma success_body_is_json_witness :
  let out := handleChatCompletions mockBroken (http.NewResponseWriter None) (post testBody) in
  exists text, http.written out.1 = text +:+ newline /\ Valid text = true.
Proof.
  apply (success_body_is_json mockBroken (post testBody) testBody
           createTestChatCompletionRequest (Some brokenResponse) []).
  - reflexivity.
  - reflexivity.
  - vm_compute. reflexivity.
  - split; [vm_compute; discriminate | vm_compute; lia].
  - reflexivity.
Defined.
